(** * Phase 0 meta-dataset workflow: a shallow embedding of
      [src/workflows/meta_workflow.py] and [src/analytics/meta_analytics.py].

    Python values are modelled as follows.
    - [int] is [Z]; [len(...)] is [Z.of_nat (length ...)]; indices into
      [top_players] are [nat].
    - [str] is [string], read as a sequence of code points below 256;
      [str.lower] and [str.strip] are written out for that range.
    - A [dict] with string keys is an association list that keeps Python's
      insertion order: assigning to an existing key replaces the value in
      place, a new key goes to the end.
    - [Set[int]] and [Set[str]] are [gset nat] and [gset string].
    - [MetaState] is a [TypedDict] with [total=False]: every key may be
      missing, so every field is an [option]; a node returns a partial
      state that is merged key by key into the current one.
    - [random.sample] draws from an explicit random source that is threaded
      through the sampling nodes.
    - The collaborators that are not part of these two files (leaderboard,
      battle log, normaliser, user analytics) are parameters of the model. *)

From Stdlib Require Import ZArith String Ascii List Lia Bool.
From stdpp Require Import base tactics option list sets gmap strings pretty.

Local Open Scope string_scope.
Local Open Scope list_scope.
Local Open Scope Z_scope.

(* ------------------------------------------------------------------ *)
(** ** Strings: [str.lower] and [str.strip] *)
(* ------------------------------------------------------------------ *)

Module PyStr.

(** [c.lower()] for one code point below 256: A-Z, and the Latin-1
    capitals U+00C0..U+00DE except the multiplication sign U+00D7. *)
Definition lower_char (c : ascii) : ascii :=
  let n := nat_of_ascii c in
  if ((65 <=? n)%nat && (n <=? 90)%nat)
     || ((192 <=? n)%nat && (n <=? 222)%nat && negb (n =? 215)%nat)
  then ascii_of_nat (n + 32) else c.

Fixpoint lower (s : string) : string :=
  match s with
  | EmptyString => EmptyString
  | String c r => String (lower_char c) (lower r)
  end.

(** [c.isspace()] for one code point below 256. *)
Definition isspace (c : ascii) : bool :=
  let n := nat_of_ascii c in
  ((9 <=? n)%nat && (n <=? 13)%nat) || ((28 <=? n)%nat && (n <=? 32)%nat)
  || (n =? 133)%nat || (n =? 160)%nat.

Fixpoint lstrip (s : string) : string :=
  match s with
  | EmptyString => EmptyString
  | String c r => if isspace c then lstrip r else s
  end.

Fixpoint rstrip (s : string) : string :=
  match s with
  | EmptyString => EmptyString
  | String c r =>
      match rstrip r with
      | EmptyString => if isspace c then EmptyString else String c EmptyString
      | r' => String c r'
      end
  end.

Definition strip (s : string) : string := lstrip (rstrip s).

End PyStr.

(* ------------------------------------------------------------------ *)
(** ** Dictionaries with string keys *)
(* ------------------------------------------------------------------ *)

Module Dict.

Definition t (V : Type) : Type := list (string * V).

Definition empty {V} : t V := [].

(** [d[k] = v] *)
Fixpoint set {V} (d : t V) (k : string) (v : V) : t V :=
  match d with
  | [] => [(k, v)]
  | (k', v') :: d' =>
      if String.eqb k' k then (k', v) :: d' else (k', v') :: set d' k v
  end.

Fixpoint lookup {V} (d : t V) (k : string) : option V :=
  match d with
  | [] => None
  | (k', v') :: d' => if String.eqb k' k then Some v' else lookup d' k
  end.

(** [d.get(k, dflt)] *)
Definition get {V} (d : t V) (k : string) (dflt : V) : V :=
  match lookup d k with Some v => v | None => dflt end.

(** [d.items()] *)
Definition items {V} (d : t V) : list (string * V) := d.

(** [{kf(x): vf(x) for x in xs}] *)
Definition comprehension {A V} (kf : A -> string) (vf : A -> V) (xs : list A) : t V :=
  fold_left (fun d x => set d (kf x) (vf x)) xs empty.

End Dict.

(* ------------------------------------------------------------------ *)
(** ** Data *)
(* ------------------------------------------------------------------ *)

(** An entry of [top_players]; only [player.get("tag")] is read. *)
Record Player := { player_tag : option string }.

(** A normalised ranked 1v1 battle.  The workflow treats it as opaque; the
    deck categories are the fields the analytics tables are built from. *)
Record Battle := { my_deck_type : string; opp_deck_type : string }.

(** A row of the [opp_deck_types] table: [row.get("type")], [row.get("games")]. *)
Record DeckTypeRow := { row_type : option string; row_games : option Z }.

(** The analytics dictionary: the keys read or written by these two files. *)
Record Analytics := {
  summary_games_played : option Z;          (* analytics["summary"]["games_played"] *)
  opp_deck_types : option (list DeckTypeRow);
  games_total : option Z;
  deck_type_counts_opp : option (Dict.t Z);
  source : option string
}.

Definition empty_analytics : Analytics :=
  {| summary_games_played := None; opp_deck_types := None; games_total := None;
     deck_type_counts_opp := None; source := None |}.

Record MetaState := {
  top_players : option (list Player);
  selected_players : option (list Player);
  used_player_indices : option (gset nat);
  fetched_player_tags : option (gset string);
  meta_raw_battles : option (list Battle);
  normalized_battles : option (list Battle);
  meta_analytics : option Analytics;
  is_balanced : option bool;
  loop_count : option Z;
  stop_decision : option string;
  notes : option (list string)
}.

(** The empty dictionary, also the update that writes no key. *)
Definition no_update : MetaState :=
  {| top_players := None; selected_players := None; used_player_indices := None;
     fetched_player_tags := None; meta_raw_battles := None; normalized_battles := None;
     meta_analytics := None; is_balanced := None; loop_count := None;
     stop_decision := None; notes := None |}.

Definition overwrite {A} (new old : option A) : option A :=
  match new with Some _ => new | None => old end.

(** The graph engine merges a node's result into the state: a key present
    in the result replaces the state's value, the other keys stay. *)
Definition apply_update (s upd : MetaState) : MetaState :=
  {| top_players := overwrite (top_players upd) (top_players s);
     selected_players := overwrite (selected_players upd) (selected_players s);
     used_player_indices := overwrite (used_player_indices upd) (used_player_indices s);
     fetched_player_tags := overwrite (fetched_player_tags upd) (fetched_player_tags s);
     meta_raw_battles := overwrite (meta_raw_battles upd) (meta_raw_battles s);
     normalized_battles := overwrite (normalized_battles upd) (normalized_battles s);
     meta_analytics := overwrite (meta_analytics upd) (meta_analytics s);
     is_balanced := overwrite (is_balanced upd) (is_balanced s);
     loop_count := overwrite (loop_count upd) (loop_count s);
     stop_decision := overwrite (stop_decision upd) (stop_decision s);
     notes := overwrite (notes upd) (notes s) |}.

(** [state.get(key, default)] for each key the nodes read. *)
Definition get_top_players (s : MetaState) : list Player := default [] (top_players s).
Definition get_selected_players (s : MetaState) : list Player := default [] (selected_players s).
Definition get_used_player_indices (s : MetaState) : gset nat := default ∅ (used_player_indices s).
Definition get_fetched_player_tags (s : MetaState) : gset string := default ∅ (fetched_player_tags s).
Definition get_meta_raw_battles (s : MetaState) : list Battle := default [] (meta_raw_battles s).
Definition get_loop_count (s : MetaState) : Z := default 0 (loop_count s).
Definition get_notes (s : MetaState) : list string := default [] (notes s).
Definition get_stop_decision (s : MetaState) : string := default "" (stop_decision s).
(** [state.get("meta_analytics", {}) or {}] *)
Definition get_meta_analytics (s : MetaState) : Analytics := default empty_analytics (meta_analytics s).

Definition len {A} (l : list A) : Z := Z.of_nat (length l).

(* ------------------------------------------------------------------ *)
(** ** Constants *)
(* ------------------------------------------------------------------ *)

Definition MIN_TOTAL_BATTLES : Z := 500.
Definition MIN_GAMES_PER_TYPE : Z := 50.
Definition REQUIRED_DECK_TYPES_LOWER : list string :=
  ["siege"; "bait"; "cycle"; "bridge spam"; "beatdown"].
(** The loop bound is the literal [20] in [check_enough_battles_node]. *)
Definition MAX_LOOPS : Z := 20.

(* ------------------------------------------------------------------ *)
(** ** String formatting used by the audit notes *)
(* ------------------------------------------------------------------ *)

(** [repr] of a [Dict[str, int]] whose keys hold no quote character, as an
    f-string prints it: [{'siege': 0, 'bait': 12}]. *)
Definition repr_counts (d : Dict.t Z) : string :=
  "{" +:+ String.concat ", " (map (fun kv => "'" +:+ fst kv +:+ "': " +:+ pretty (snd kv)) d) +:+ "}".

(* ------------------------------------------------------------------ *)
(** ** [check_enough_battles_node] and [route_after_check_enough] *)
(* ------------------------------------------------------------------ *)

(** [int(meta.get("games_total", len(state.get("meta_raw_battles", []))))] *)
Definition state_games_total (state : MetaState) : Z :=
  default (len (get_meta_raw_battles state)) (games_total (get_meta_analytics state)).

(** [meta.get("deck_type_counts_opp", {})] *)
Definition deck_counts_raw (state : MetaState) : Dict.t Z :=
  default Dict.empty (deck_type_counts_opp (get_meta_analytics state)).

(** [{str(k).lower(): int(v) for k, v in deck_counts_raw.items()}] *)
Definition lower_keys (raw : Dict.t Z) : Dict.t Z :=
  Dict.comprehension (fun kv => PyStr.lower (fst kv)) snd (Dict.items raw).

Definition deck_counts_lower (state : MetaState) : Dict.t Z :=
  lower_keys (deck_counts_raw state).

(** The loop over [REQUIRED_DECK_TYPES_LOWER] that fills [insufficient_types]. *)
Definition collect_insufficient (counts : Dict.t Z) (required : list string) : Dict.t Z :=
  fold_left
    (fun insufficient t =>
       let count := Dict.get counts t 0 in
       if count <? MIN_GAMES_PER_TYPE then Dict.set insufficient t count else insufficient)
    required Dict.empty.

Definition insufficient_types (state : MetaState) : Dict.t Z :=
  collect_insufficient (deck_counts_lower state) REQUIRED_DECK_TYPES_LOWER.

Definition enough_total (state : MetaState) : bool :=
  MIN_TOTAL_BATTLES <=? state_games_total state.

Definition enough_per_type (state : MetaState) : bool :=
  len (insufficient_types state) =? 0.

(** [max(0, len(top_players) - len(used_indices))] *)
Definition remaining (state : MetaState) : Z :=
  Z.max 0 (len (get_top_players state) - Z.of_nat (size (get_used_player_indices state))).

Definition check_enough_battles_node (state : MetaState) : MetaState :=
  let notes0 := get_notes state in
  let games_total := state_games_total state in
  let insufficient := insufficient_types state in
  let remaining := remaining state in
  let loop_count := get_loop_count state in
  let '(decision, note, balanced) :=
    if enough_total state && enough_per_type state then
      ("enough",
       "check_enough_battles: enough data. " +:+
       "games_total=" +:+ pretty games_total +:+ ", all required deck types >= " +:+
       pretty MIN_GAMES_PER_TYPE +:+ ".",
       true)
    else if (remaining <=? 0) || (20 <=? loop_count) then
      ("stop",
       "check_enough_battles: stopping. " +:+
       "games_total=" +:+ pretty games_total +:+ ", remaining_players=" +:+ pretty remaining +:+
       ", loop_count=" +:+ pretty loop_count +:+ ", insufficient_types=" +:+
       repr_counts insufficient +:+ ".",
       false)
    else
      ("need_more",
       "check_enough_battles: need more data. " +:+
       "games_total=" +:+ pretty games_total +:+ ", remaining_players=" +:+ pretty remaining +:+
       ", loop_count=" +:+ pretty loop_count +:+ ", insufficient_types=" +:+
       repr_counts insufficient +:+ ".",
       false)
  in
  {| top_players := None; selected_players := None; used_player_indices := None;
     fetched_player_tags := None; meta_raw_battles := None; normalized_battles := None;
     meta_analytics := None;
     is_balanced := Some balanced;
     loop_count := None;
     stop_decision := Some decision;
     notes := Some (notes0 ++ [note]) |}.

(** [decision in ("enough", "need_more", "stop")] *)
Definition is_known_decision (decision : string) : bool :=
  String.eqb decision "enough" || String.eqb decision "need_more" || String.eqb decision "stop".

Definition route_after_check_enough (state : MetaState) : string :=
  let decision := get_stop_decision state in
  if is_known_decision decision then decision else "stop".

(* ------------------------------------------------------------------ *)
(** ** Random sampling *)
(* ------------------------------------------------------------------ *)

(** The random source: an unbounded supply of naturals, read from the front. *)
Definition Rng : Type := nat -> nat.

Definition rng_tail (g : Rng) : Rng := fun n => g (S n).

(** [random.sample(population, k)]: [k] positions of [population] chosen
    without replacement.  Each draw takes the next number of the source
    modulo the number of elements still available and removes the chosen
    element; every ordered choice of [k] distinct positions arises from some
    source.  Python raises [ValueError] when [k > len(population)]; both
    callers clamp [k] with [min], and the model then stops drawing. *)
Fixpoint random_sample {A} (g : Rng) (population : list A) (k : nat) : list A * Rng :=
  match k with
  | O => ([], g)
  | S k' =>
      let j := (g O mod length population)%nat in
      match population !! j with
      | None => ([], g)
      | Some x =>
          let '(rest, g') := random_sample (rng_tail g) (delete j population) k' in
          (x :: rest, g')
      end
  end.

(** [[top_players[i] for i in indices]]; the indices are always in range. *)
Definition players_at (top : list Player) (indices : list nat) : list Player :=
  omap (fun i => top !! i) indices.

(** What a sampling node hands back: the partial state, the indices it drew
    (the node's [sampled_indices] / [new_indices]) and the random source. *)
Record Sampling := {
  sampling_update : MetaState;
  sampling_indices : list nat;
  sampling_rng : Rng
}.

Definition en_dash : string := "–".

Definition sample_initial_50_node (g : Rng) (state : MetaState) : Sampling :=
  let top := get_top_players state in
  let notes0 := get_notes state in
  match top with
  | [] =>
      {| sampling_update :=
           {| top_players := None; selected_players := Some []; used_player_indices := None;
              fetched_player_tags := None; meta_raw_battles := None; normalized_battles := None;
              meta_analytics := None; is_balanced := None; loop_count := None;
              stop_decision := None;
              notes := Some (notes0 ++
                 ["sample_initial_50: WARNING " +:+ en_dash +:+ " top_players is empty."]) |};
         sampling_indices := [];
         sampling_rng := g |}
  | _ :: _ =>
      let all_indices := seq 0 (length top) in
      let sample_size := Nat.min 50 (length all_indices) in
      let '(sampled_indices, g') := random_sample g all_indices sample_size in
      let selected := players_at top sampled_indices in
      let used_indices := get_used_player_indices state ∪ list_to_set sampled_indices in
      {| sampling_update :=
           {| top_players := None; selected_players := Some selected;
              used_player_indices := Some used_indices;
              fetched_player_tags := None; meta_raw_battles := None; normalized_battles := None;
              meta_analytics := None; is_balanced := None; loop_count := None;
              stop_decision := None;
              notes := Some (notes0 ++
                 ["sample_initial_50: sampled " +:+ pretty (len selected) +:+ " players " +:+
                  "out of " +:+ pretty (len top) +:+ "."]) |};
         sampling_indices := sampled_indices;
         sampling_rng := g' |}
  end.

(** [[i for i in all_indices if i not in used_indices]] *)
Definition unused_indices (state : MetaState) : list nat :=
  filter (fun i => i ∉ get_used_player_indices state) (seq 0 (length (get_top_players state))).

Definition sample_more_5_node (g : Rng) (state : MetaState) : Sampling :=
  let top := get_top_players state in
  let used_indices := get_used_player_indices state in
  let loop_count0 := get_loop_count state in
  let notes0 := get_notes state in
  match top with
  | [] =>
      {| sampling_update :=
           {| top_players := None; selected_players := Some []; used_player_indices := None;
              fetched_player_tags := None; meta_raw_battles := None; normalized_battles := None;
              meta_analytics := None; is_balanced := None; loop_count := None;
              stop_decision := None;
              notes := Some (notes0 ++
                 ["sample_more_5: WARNING " +:+ en_dash +:+ " top_players is empty."]) |};
         sampling_indices := [];
         sampling_rng := g |}
  | _ :: _ =>
      let unused := unused_indices state in
      match unused with
      | [] =>
          {| sampling_update :=
               {| top_players := None; selected_players := Some [];
                  used_player_indices := Some used_indices;
                  fetched_player_tags := None; meta_raw_battles := None;
                  normalized_battles := None; meta_analytics := None; is_balanced := None;
                  loop_count := None; stop_decision := None;
                  notes := Some (notes0 ++
                     ["sample_more_5: no unused players left; cannot sample more."]) |};
             sampling_indices := [];
             sampling_rng := g |}
      | _ :: _ =>
          let sample_size := Nat.min 5 (length unused) in
          let '(new_indices, g') := random_sample g unused sample_size in
          let selected := players_at top new_indices in
          let used_indices' := used_indices ∪ list_to_set new_indices in
          let loop_count' := loop_count0 + 1 in
          {| sampling_update :=
               {| top_players := None; selected_players := Some selected;
                  used_player_indices := Some used_indices';
                  fetched_player_tags := None; meta_raw_battles := None;
                  normalized_battles := None; meta_analytics := None; is_balanced := None;
                  loop_count := Some loop_count'; stop_decision := None;
                  notes := Some (notes0 ++
                     ["sample_more_5: loop " +:+ pretty loop_count' +:+ " " +:+ en_dash +:+
                      " sampled " +:+ pretty (len selected) +:+ " more " +:+
                      "players; total_used=" +:+ pretty (size used_indices') +:+ "/" +:+
                      pretty (len top) +:+ "."]) |};
             sampling_indices := new_indices;
             sampling_rng := g' |}
      end
  end.

(* ------------------------------------------------------------------ *)
(** ** [compute_meta_analytics]: the deck-type count table *)
(* ------------------------------------------------------------------ *)

(** [{str(row.get("type", "")).strip(): int(row.get("games", 0)) for row in opp_deck_types}] *)
Definition strip_rows (rows : list DeckTypeRow) : Dict.t Z :=
  Dict.comprehension
    (fun row => PyStr.strip (default "" (row_type row)))
    (fun row => default 0 (row_games row))
    rows.

(** The body of [compute_meta_analytics] after the call of
    [compute_user_analytics], whose result is [analytics]. *)
Definition extend_analytics (battles_normalized : list Battle) (analytics : Analytics) : Analytics :=
  let total := default (len battles_normalized) (summary_games_played analytics) in
  let rows := default [] (opp_deck_types analytics) in
  {| summary_games_played := summary_games_played analytics;
     opp_deck_types := opp_deck_types analytics;
     games_total := Some total;
     deck_type_counts_opp := Some (strip_rows rows);
     source := Some "meta" |}.

(* ------------------------------------------------------------------ *)
(** ** The nodes that call the external collaborators, and the graph *)
(* ------------------------------------------------------------------ *)

(** A record of the calls made during a run.  It is written by the model
    only and never read by a node, so that statements can speak about the
    indices drawn, the retrievals issued and the decisions taken. *)
Inductive Event :=
| Sampled (indices : list nat)
| Retrieved (tag : string) (result : string + list Battle)
| Decided (decision : string).

(** The six nodes of [build_meta_graph]. *)
Inductive Node :=
| fetch_top_players_n
| sample_initial_50
| fetch_meta_battles
| compute_meta_analytics_n
| check_enough_battles
| sample_more_5.

(** The four nodes on the cycle of the graph. *)
Inductive LoopNode :=
| in_sample_more_5
| in_fetch_meta_battles
| in_compute_meta_analytics
| in_check_enough_battles.

#[global] Instance LoopNode_eq_dec : EqDecision LoopNode.
Proof. solve_decision. Defined.

Definition loop_node (n : LoopNode) : Node :=
  match n with
  | in_sample_more_5 => sample_more_5
  | in_fetch_meta_battles => fetch_meta_battles
  | in_compute_meta_analytics => compute_meta_analytics_n
  | in_check_enough_battles => check_enough_battles
  end.

(** *** Reading the call record *)

Definition drawn (trace : list Event) : list (list nat) :=
  omap (fun ev => match ev with Sampled indices => Some indices | _ => None end) trace.

Definition retrieved_tags (trace : list Event) : list string :=
  omap (fun ev => match ev with Retrieved tag _ => Some tag | _ => None end) trace.

(** The retrievals that succeeded: the tag and the normalised history. *)
Definition successes (trace : list Event) : list (string * list Battle) :=
  omap (fun ev => match ev with Retrieved tag (inr normalized) => Some (tag, normalized) | _ => None end) trace.

Definition failures (trace : list Event) : list (string * string) :=
  omap (fun ev => match ev with Retrieved tag (inl e) => Some (tag, e) | _ => None end) trace.

Definition decisions (trace : list Event) : list string :=
  omap (fun ev => match ev with Decided d => Some d | _ => None end) trace.

(** The records one successful retrieval adds to the cohort. *)
Definition contribution (normalized : list Battle) : list Battle :=
  take (Nat.min (length normalized) 10) normalized.

(** All records the successful retrievals of [tag] add to the cohort. *)
Definition contributed_by (tag : string) (trace : list Event) : list Battle :=
  concat (map (fun tn => contribution (snd tn))
              (filter (fun tn => fst tn = tag) (successes trace))).

(** All records the successful retrievals add to the cohort, in order. *)
Definition contributions (trace : list Event) : list Battle :=
  concat (map (fun tn => contribution (snd tn)) (successes trace)).

Definition success_tags (trace : list Event) : list string := map fst (successes trace).

Definition error_note (tag e : string) : string :=
  "fetch_meta_battles: error fetching " +:+ tag +:+ ": " +:+ e.

(** The audit notes of the failed retrievals, in order. *)
Definition error_notes (trace : list Event) : list string :=
  map (fun te => error_note (fst te) (snd te)) (failures trace).

(** The tags of a population that the fetch step would retrieve. *)
Definition usable_tags (top : list Player) : list string :=
  filter (fun tag => tag <> "") (omap player_tag top).

(** The tags of the players at the given indices that the fetch step would
    retrieve. *)
Definition tags_at (top : list Player) (indices : list nat) : list string :=
  usable_tags (players_at top indices).

Definition pairwise_disjoint (calls : list (list nat)) : Prop :=
  forall i j xs ys, i <> j -> calls !! i = Some xs -> calls !! j = Some ys -> xs ## ys.

(** The four nodes of one pass round the cycle, in graph order. *)
Definition iteration : list LoopNode :=
  [in_sample_more_5; in_fetch_meta_battles; in_compute_meta_analytics; in_check_enough_battles].

Section Workflow.

(** The state of the outside world (the game API) and the raw battle log. *)
Context {World RawLog : Type}.

(** [fetch_top_players(limit=...)] *)
Variable fetch_top_players : World -> Z -> list Player * World.
(** [get_player_battlelog(tag)]: the raw log, or [inl (str(e))] when it raises. *)
Variable get_player_battlelog : World -> string -> (string + RawLog) * World.
(** [filter_and_normalize_ranked_1v1(raw_log)], or [inl (str(e))] when it raises. *)
Variable filter_and_normalize_ranked_1v1 : RawLog -> string + list Battle.
(** [compute_user_analytics(battles)] *)
Variable compute_user_analytics : list Battle -> Analytics.

Definition compute_meta_analytics (battles_normalized : list Battle) : Analytics :=
  extend_analytics battles_normalized (compute_user_analytics battles_normalized).

Definition fetch_top_players_node (w : World) (state : MetaState) : MetaState * World :=
  let notes0 := get_notes state in
  let '(top, w') := fetch_top_players w 300 in
  ({| top_players := Some top;
      selected_players := Some [];
      used_player_indices := Some ∅;
      fetched_player_tags := Some ∅;
      meta_raw_battles := Some [];
      normalized_battles := Some [];
      meta_analytics := Some empty_analytics;
      is_balanced := Some false;
      loop_count := Some 0;
      stop_decision := Some "";
      notes := Some (notes0 ++
         ["Fetched " +:+ pretty (len top) +:+ " top players from API"]) |}, w').

(** The local variables of the loop in [fetch_meta_battles_node]. *)
Record FetchLoop := {
  fl_world : World;
  fl_meta_raw : list Battle;
  fl_fetched_tags : gset string;
  fl_notes : list string;
  fl_new_battle_count : Z;
  fl_new_player_count : Z;
  fl_events : list Event
}.

(** The [try] block for one tag: both calls are inside it. *)
Definition retrieve (w : World) (tag : string) : (string + list Battle) * World :=
  let '(r, w') := get_player_battlelog w tag in
  match r with
  | inl e => (inl e, w')
  | inr raw_log => (filter_and_normalize_ranked_1v1 raw_log, w')
  end.

(** One pass of [for player in selected]. *)
Definition fetch_player (acc : FetchLoop) (player : Player) : FetchLoop :=
  match player_tag player with
  | None => acc
  | Some tag =>
      if String.eqb tag "" then acc
      else if bool_decide (tag ∈ fl_fetched_tags acc) then acc
      else
        let '(result, w') := retrieve (fl_world acc) tag in
        match result with
        | inr normalized =>
            let take_n := Nat.min (length normalized) 10 in
            let recent_ranked := take take_n normalized in
            {| fl_world := w';
               fl_meta_raw := fl_meta_raw acc ++ recent_ranked;
               fl_fetched_tags := fl_fetched_tags acc ∪ {[tag]};
               fl_notes := fl_notes acc;
               fl_new_battle_count := fl_new_battle_count acc + len recent_ranked;
               fl_new_player_count := fl_new_player_count acc + 1;
               fl_events := fl_events acc ++ [Retrieved tag (inr normalized)] |}
        | inl e =>
            {| fl_world := w';
               fl_meta_raw := fl_meta_raw acc;
               fl_fetched_tags := fl_fetched_tags acc;
               fl_notes := fl_notes acc ++
                  ["fetch_meta_battles: error fetching " +:+ tag +:+ ": " +:+ e];
               fl_new_battle_count := fl_new_battle_count acc;
               fl_new_player_count := fl_new_player_count acc;
               fl_events := fl_events acc ++ [Retrieved tag (inl e)] |}
        end
  end.

Definition fetch_loop_start (w : World) (state : MetaState) : FetchLoop :=
  {| fl_world := w;
     fl_meta_raw := get_meta_raw_battles state;
     fl_fetched_tags := get_fetched_player_tags state;
     fl_notes := get_notes state;
     fl_new_battle_count := 0;
     fl_new_player_count := 0;
     fl_events := [] |}.

Definition fetch_meta_battles_node (w : World) (state : MetaState)
  : MetaState * World * list Event :=
  let selected := get_selected_players state in
  let start := fetch_loop_start w state in
  match selected with
  | [] =>
      ({| top_players := None; selected_players := None; used_player_indices := None;
          fetched_player_tags := Some (fl_fetched_tags start);
          meta_raw_battles := Some (fl_meta_raw start);
          normalized_battles := Some (fl_meta_raw start);
          meta_analytics := None; is_balanced := None; loop_count := None;
          stop_decision := None;
          notes := Some (fl_notes start ++
             ["fetch_meta_battles: no selected_players; nothing to fetch."]) |}, w, [])
  | _ :: _ =>
      let acc := fold_left fetch_player selected start in
      ({| top_players := None; selected_players := None; used_player_indices := None;
          fetched_player_tags := Some (fl_fetched_tags acc);
          meta_raw_battles := Some (fl_meta_raw acc);
          normalized_battles := Some (fl_meta_raw acc);
          meta_analytics := None; is_balanced := None; loop_count := None;
          stop_decision := None;
          notes := Some (fl_notes acc ++
             ["fetch_meta_battles: fetched " +:+
              pretty (fl_new_battle_count acc) +:+ " normalized ranked 1v1 battles " +:+
              "from " +:+ pretty (fl_new_player_count acc) +:+ " new players. " +:+
              "total_meta_battles=" +:+ pretty (len (fl_meta_raw acc))]) |},
       fl_world acc, fl_events acc)
  end.

Definition compute_meta_analytics_node (state : MetaState) : MetaState :=
  let battles := get_meta_raw_battles state in
  let analytics := compute_meta_analytics battles in
  let notes0 := get_notes state in
  {| top_players := None; selected_players := None; used_player_indices := None;
     fetched_player_tags := None; meta_raw_battles := None; normalized_battles := None;
     meta_analytics := Some analytics;
     is_balanced := None; loop_count := None; stop_decision := None;
     notes := Some (notes0 ++
        ["compute_meta_analytics: games_total=" +:+
         pretty (default (len battles) (games_total analytics)) +:+ ", " +:+
         "deck_types_opp=" +:+ pretty (len (default [] (opp_deck_types analytics)))]) |}.

(** *** The compiled graph *)

Record Config := {
  cfg_state : MetaState;
  cfg_world : World;
  cfg_rng : Rng;
  cfg_trace : list Event
}.

(** One super-step: run the node and merge its result into the state. *)
Definition exec (n : Node) (c : Config) : Config :=
  let s := cfg_state c in
  match n with
  | fetch_top_players_n =>
      let '(upd, w') := fetch_top_players_node (cfg_world c) s in
      {| cfg_state := apply_update s upd; cfg_world := w';
         cfg_rng := cfg_rng c; cfg_trace := cfg_trace c |}
  | sample_initial_50 =>
      let r := sample_initial_50_node (cfg_rng c) s in
      {| cfg_state := apply_update s (sampling_update r); cfg_world := cfg_world c;
         cfg_rng := sampling_rng r;
         cfg_trace := cfg_trace c ++ [Sampled (sampling_indices r)] |}
  | sample_more_5 =>
      let r := sample_more_5_node (cfg_rng c) s in
      {| cfg_state := apply_update s (sampling_update r); cfg_world := cfg_world c;
         cfg_rng := sampling_rng r;
         cfg_trace := cfg_trace c ++ [Sampled (sampling_indices r)] |}
  | fetch_meta_battles =>
      let '(upd, w', evs) := fetch_meta_battles_node (cfg_world c) s in
      {| cfg_state := apply_update s upd; cfg_world := w';
         cfg_rng := cfg_rng c; cfg_trace := cfg_trace c ++ evs |}
  | compute_meta_analytics_n =>
      {| cfg_state := apply_update s (compute_meta_analytics_node s);
         cfg_world := cfg_world c; cfg_rng := cfg_rng c; cfg_trace := cfg_trace c |}
  | check_enough_battles =>
      let upd := check_enough_battles_node s in
      {| cfg_state := apply_update s upd; cfg_world := cfg_world c;
         cfg_rng := cfg_rng c;
         cfg_trace := cfg_trace c ++ [Decided (get_stop_decision upd)] |}
  end.

(** The edges: [None] is [END].  [c] is the configuration after the node ran. *)
Definition next (n : Node) (c : Config) : option Node :=
  match n with
  | fetch_top_players_n => Some sample_initial_50
  | sample_initial_50 => Some fetch_meta_battles
  | sample_more_5 => Some fetch_meta_battles
  | fetch_meta_battles => Some compute_meta_analytics_n
  | compute_meta_analytics_n => Some check_enough_battles
  | check_enough_battles =>
      let edge := route_after_check_enough (cfg_state c) in
      if String.eqb edge "need_more" then Some sample_more_5 else None
  end.

(** Run the graph from node [n] for at most [steps] super-steps;
    [None] when the step budget runs out before [END]. *)
Fixpoint run (steps : nat) (n : Node) (c : Config) : option Config :=
  match steps with
  | O => None
  | S steps' =>
      let c' := exec n c in
      match next n c' with
      | None => Some c'
      | Some n' => run steps' n' c'
      end
  end.

(** [graph.invoke(initial_state)] with the entry point [fetch_top_players]. *)
Definition invoke (steps : nat) (initial_state : MetaState) (w : World) (g : Rng) : option Config :=
  run steps fetch_top_players_n
    {| cfg_state := initial_state; cfg_world := w; cfg_rng := g; cfg_trace := [] |}.

(** Any sequence of nodes of the cycle, run in the order given. *)
Definition exec_all (script : list LoopNode) (c : Config) : Config :=
  fold_left (fun c n => exec (loop_node n) c) script c.

(** *** Vocabulary of the statements about the fetch step and the graph *)

(** What the loop of the fetch step has done between two of its states,
    over the players [players]: [evs] are the retrievals issued. *)
Definition fetched_between (acc acc' : FetchLoop) (players : list Player)
    (evs : list Event) : Prop :=
  fl_events acc' = fl_events acc ++ evs /\
  fl_meta_raw acc' = fl_meta_raw acc ++ contributions evs /\
  fl_fetched_tags acc' = fl_fetched_tags acc ∪ list_to_set (success_tags evs) /\
  fl_notes acc' = fl_notes acc ++ error_notes evs /\
  retrieved_tags evs `sublist_of` usable_tags players /\
  (forall tag, tag ∈ retrieved_tags evs -> tag ∉ fl_fetched_tags acc) /\
  NoDup (success_tags evs) /\
  (forall p tag, p ∈ players -> player_tag p = Some tag -> tag <> "" ->
      tag ∈ fl_fetched_tags acc' \/ exists e, (tag, e) ∈ failures evs) /\
  drawn evs = [] /\ decisions evs = [].

(** What a sequence of nodes of the cycle has done between two
    configurations: [evs] are the calls recorded in between. *)
Definition cycle_effect (c c' : Config) (evs : list Event) : Prop :=
  cfg_trace c' = cfg_trace c ++ evs /\
  get_top_players (cfg_state c') = get_top_players (cfg_state c) /\
  NoDup (concat (drawn evs)) /\
  (forall i, i ∈ concat (drawn evs) -> i ∈ unused_indices (cfg_state c)) /\
  get_used_player_indices (cfg_state c') =
    get_used_player_indices (cfg_state c) ∪ list_to_set (concat (drawn evs)) /\
  get_meta_raw_battles (cfg_state c') =
    get_meta_raw_battles (cfg_state c) ++ contributions evs /\
  get_fetched_player_tags (cfg_state c') =
    get_fetched_player_tags (cfg_state c) ∪ list_to_set (success_tags evs) /\
  NoDup (success_tags evs) /\
  (forall tag, tag ∈ retrieved_tags evs -> tag ∉ get_fetched_player_tags (cfg_state c)).

(** The invariant of a run of the graph over the population [top], at
    the moment node [n] is about to run. *)
Definition run_invariant (top : list Player) (n : Node) (c : Config) : Prop :=
  let s := cfg_state c in
  let t := cfg_trace c in
  let D := concat (drawn t) in
  get_top_players s = top /\
  NoDup D /\
  (forall i, i ∈ D -> (i < length top)%nat) /\
  get_used_player_indices s = list_to_set D /\
  get_meta_raw_battles s = contributions t /\
  get_fetched_player_tags s = list_to_set (success_tags t) /\
  NoDup (success_tags t) /\
  match n with
  | fetch_top_players_n => False
  | sample_initial_50 => t = []
  | fetch_meta_battles =>
      exists before batch,
        D = before ++ batch /\
        get_selected_players s = players_at top batch /\
        retrieved_tags t `sublist_of` tags_at top before
  | _ => retrieved_tags t `sublist_of` tags_at top D
  end.

End Workflow.

(* ------------------------------------------------------------------ *)
(** ** Vocabulary of the statements *)
(* ------------------------------------------------------------------ *)

(** *** The stopping decision *)

(** The state invariant of the used-index set: every used index is an
    index of [top_players]. *)
Definition used_in_range (state : MetaState) : Prop :=
  set_Forall (fun i => (i < length (get_top_players state))%nat) (get_used_player_indices state).

(** The count the decision uses for a deck type: [deck_counts_lower.get(t, 0)]. *)
Definition required_count (state : MetaState) (t : string) : Z :=
  Dict.get (deck_counts_lower state) t 0.

Definition thresholds_met (state : MetaState) : Prop :=
  MIN_TOTAL_BATTLES <= state_games_total state /\
  Forall (fun t => MIN_GAMES_PER_TYPE <= required_count state t) REQUIRED_DECK_TYPES_LOWER.

(** Unused population indices remain and the loop budget is not spent. *)
Definition can_sample_more (state : MetaState) : Prop :=
  (0 < length (unused_indices state))%nat /\ get_loop_count state < MAX_LOOPS.

(** *** The per-category counts *)

(** A category name up to leading/trailing whitespace and letter case. *)
Definition normalize (label : string) : string := PyStr.lower (PyStr.strip label).

(** The count the stopping decision reads for [key], from the rows of the
    [opp_deck_types] table: first [compute_meta_analytics] strips the keys,
    then [check_enough_battles_node] lowercases them. *)
Definition stopping_count (rows : list DeckTypeRow) (key : string) : Z :=
  Dict.get (lower_keys (strip_rows rows)) key 0.


(** The number of records whose opponent-side category is exactly [label]. *)
Definition label_games (battles : list Battle) (label : string) : Z :=
  len (filter (fun b => opp_deck_type b = label) battles).


(** *** Concrete collaborators for the examples *)

Module Sample.

Definition player (tag : string) : Player := {| player_tag := Some tag |}.

Definition battle (opp : string) : Battle :=
  {| my_deck_type := "Cycle"; opp_deck_type := opp |}.

(** A leaderboard in which one tag appears twice. *)
Definition twins : list Player := [player "#A"; player "#A"].

Definition trio : list Player := [player "#A"; player "#B"; player "#C"].

Definition leaderboard (top : list Player) (w : unit) (limit : Z) : list Player * unit :=
  (top, w).

(** Every retrieval times out. *)
Definition always_timeout (w : unit) (tag : string) : (string + list Battle) * unit :=
  (inl "timeout", w).

(** The retrieval of "#B" times out, the others return twelve battles. *)
Definition b_times_out (w : unit) (tag : string) : (string + list Battle) * unit :=
  if String.eqb tag "#B" then (inl "timeout", w)
  else (inr (repeat (battle "Siege") 12), w).

Definition normalizer (raw : list Battle) : string + list Battle := inr raw.

Definition analytics (battles : list Battle) : Analytics :=
  {| summary_games_played := Some (len battles);
     opp_deck_types := Some [{| row_type := Some "Siege"; row_games := Some (len battles) |}];
     games_total := None; deck_type_counts_opp := None; source := None |}.

Definition rng : Rng := fun n => (7 * n + 3)%nat.

(** Fifty players; every retrieval returns ten battles, two against each
    required deck type; the analytics table counts them label by label. *)
Definition fifty : list Player :=
  map (fun i : nat => player ("#" +:+ pretty i)) (seq 0 50).

(** A hundred and fifty players, enough for the initial sample and twenty
    further rounds of five. *)
Definition crowd : list Player :=
  map (fun i : nat => player ("#" +:+ pretty i)) (seq 0 150).

Definition ten_battles : list Battle :=
  map battle ["Siege"; "Bait"; "Cycle"; "Bridge Spam"; "Beatdown";
              "Siege"; "Bait"; "Cycle"; "Bridge Spam"; "Beatdown"].

Definition always_ten (w : unit) (tag : string) : (string + list Battle) * unit :=
  (inr ten_battles, w).

Definition tally (battles : list Battle) : Analytics :=
  {| summary_games_played := Some (len battles);
     opp_deck_types :=
       Some (map (fun label => {| row_type := Some label;
                                  row_games := Some (label_games battles label) |})
                 ["Siege"; "Bait"; "Cycle"; "Bridge Spam"; "Beatdown"]);
     games_total := None; deck_type_counts_opp := None; source := None |}.

(** A batch of three players about to be fetched. *)
Definition state_with_batch : MetaState :=
  {| top_players := Some trio; selected_players := Some trio;
     used_player_indices := Some {[0%nat; 1%nat; 2%nat]};
     fetched_player_tags := Some ∅; meta_raw_battles := Some [];
     normalized_battles := Some [];
     meta_analytics := Some empty_analytics;
     is_balanced := Some false; loop_count := Some 0; stop_decision := Some "";
     notes := Some [] |}.

Definition config (state : MetaState) : @Config unit :=
  {| cfg_state := state; cfg_world := tt; cfg_rng := rng; cfg_trace := [] |}.

(** A state at the loop bound whose thresholds are all met. *)
Definition full_counts : Dict.t Z :=
  [("Siege", 50); ("Bait", 50); ("Cycle", 50); ("Bridge Spam", 50); ("Beatdown", 50)].

Definition state_at_bound : MetaState :=
  {| top_players := Some trio; selected_players := Some [];
     used_player_indices := Some {[0%nat; 1%nat; 2%nat]};
     fetched_player_tags := Some ∅; meta_raw_battles := Some [];
     normalized_battles := Some [];
     meta_analytics :=
       Some {| summary_games_played := None; opp_deck_types := None;
               games_total := Some 500; deck_type_counts_opp := Some full_counts;
               source := Some "meta" |};
     is_balanced := Some false; loop_count := Some 20; stop_decision := Some "need_more";
     notes := Some [] |}.

(** A state in the middle of a run: one of three players used. *)
Definition state_midway : MetaState :=
  {| top_players := Some trio; selected_players := Some [];
     used_player_indices := Some {[1%nat]};
     fetched_player_tags := Some ∅; meta_raw_battles := Some [];
     normalized_battles := Some [];
     meta_analytics := Some empty_analytics;
     is_balanced := Some false; loop_count := Some 3; stop_decision := Some "";
     notes := Some [] |}.



(** A table whose labels are not normalised. *)
Definition one_spelling_rows : list DeckTypeRow :=
  [{| row_type := Some "Bait"; row_games := Some 1 |};
   {| row_type := Some " Siege"; row_games := Some 2 |}].

End Sample.

(* ------------------------------------------------------------------ *)
(** ** Any sequence of nodes, and the budget of a run *)
(* ------------------------------------------------------------------ *)

(** [normalized_battles] holds what [meta_raw_battles] holds. *)
Definition mirrored (s : MetaState) : Prop :=
  normalized_battles s = meta_raw_battles s.

(** The super-steps from a node up to and including the next evaluation;
    a round that starts at [sample_more_5] is counted with the loop counter. *)
Definition steps_to_evaluation (n : Node) : Z :=
  match n with
  | fetch_top_players_n => 5
  | sample_initial_50 => 4
  | fetch_meta_battles => 3
  | compute_meta_analytics_n => 2
  | check_enough_battles => 1
  | sample_more_5 => 0
  end.

(** The nodes of the first pass through the graph, from the entry point
    to the first evaluation, and of one further round of the loop. *)
Definition first_pass : list Node :=
  [fetch_top_players_n; sample_initial_50; fetch_meta_battles; compute_meta_analytics_n;
   check_enough_battles].

Definition loop_round : list Node := map loop_node iteration.

(** The nodes from [n] to the next evaluation; [sample_more_5] opens a
    round of its own. *)
Definition rest_of_pass (n : Node) : list Node :=
  match n with
  | fetch_top_players_n => first_pass
  | sample_initial_50 =>
      [sample_initial_50; fetch_meta_battles; compute_meta_analytics_n; check_enough_battles]
  | fetch_meta_battles => [fetch_meta_battles; compute_meta_analytics_n; check_enough_battles]
  | compute_meta_analytics_n => [compute_meta_analytics_n; check_enough_battles]
  | check_enough_battles => [check_enough_battles]
  | sample_more_5 => []
  end.

(** The first pass followed by [k] rounds of the loop. *)
Definition run_script (k : nat) : list Node := first_pass ++ concat (repeat loop_round k).

Section WorkflowBudget.

Context {World RawLog : Type}.
Variable fetch_top_players : World -> Z -> list Player * World.
Variable get_player_battlelog : World -> string -> (string + RawLog) * World.
Variable filter_and_normalize_ranked_1v1 : RawLog -> string + list Battle.
Variable compute_user_analytics : list Battle -> Analytics.

(** Any sequence of the six nodes, run in the order given. *)
Definition exec_nodes (script : list Node) (c : @Config World) : @Config World :=
  fold_left
    (fun c n => exec fetch_top_players get_player_battlelog filter_and_normalize_ranked_1v1
                     compute_user_analytics n c)
    script c.

(** What a run of the graph keeps true about its loop counter, the number
    of indices drawn, the sampling calls and the decisions taken so far, at
    the moment node [n] is about to run. *)
Definition budget_invariant (n : Node) (c : @Config World) : Prop :=
  let lc := get_loop_count (cfg_state c) in
  let t := cfg_trace c in
  0 <= lc <= 20 /\
  Z.of_nat (length (concat (drawn t))) <= 50 + 5 * lc /\
  match n with
  | fetch_top_players_n => False
  | sample_initial_50 => t = [] /\ lc = 0
  | sample_more_5 =>
      decisions t = repeat "need_more" (S (Z.to_nat lc)) /\
      Z.of_nat (length (drawn t)) = lc + 1 /\
      0 < remaining (cfg_state c) /\ lc < 20
  | _ =>
      decisions t = repeat "need_more" (Z.to_nat lc) /\
      Z.of_nat (length (drawn t)) = lc + 1
  end.

(** What holds when the graph has reached [END]. *)
Definition budget_at_end (final : @Config World) : Prop :=
  let lc := get_loop_count (cfg_state final) in
  let t := cfg_trace final in
  0 <= lc <= 20 /\
  Z.of_nat (length (concat (drawn t))) <= 50 + 5 * lc /\
  Z.of_nat (length (drawn t)) = lc + 1 /\
  exists d,
    (d = "enough" \/ d = "stop") /\
    decisions t = repeat "need_more" (Z.to_nat lc) ++ [d] /\
    stop_decision (cfg_state final) = Some d /\
    is_balanced (cfg_state final) = Some (String.eqb d "enough").

End WorkflowBudget.

(* ------------------------------------------------------------------ *)
(** ** [src/workflows/user_workflow.py]: the Phase 1 user analytics graph *)
(* ------------------------------------------------------------------ *)

Module User.

(** How a node, or the graph, fails: a [ValueError] raised by the node
    itself, or the exception [e] of a collaborator, kept as [str(e)]. *)
Inductive Failure :=
| ValueError (message : string)
| Raised (message : string).

Section UserWorkflow.

(** The state of the outside world (the game API) and a raw battle entry. *)
Context {World Raw : Type}.

(** [get_player_battlelog(tag)]: the raw battles, or [inl (str(e))] when it raises. *)
Variable get_player_battlelog : World -> string -> (string + list Raw) * World.
(** [filter_and_normalize_ranked_1v1(battles_raw)], or [inl (str(e))] when it raises. *)
Variable filter_and_normalize_ranked_1v1 : list Raw -> string + list Battle.
(** [compute_user_analytics(battles)] *)
Variable compute_user_analytics : list Battle -> Analytics.

(** [UserAnalyticsState], a [TypedDict] with [total=False]: every key may
    be missing. *)
Record UserAnalyticsState := {
  player_tag : option string;
  battles_raw : option (list Raw);
  battles_filtered : option (list Battle);
  user_analytics : option Analytics;
  user_plots : option (Dict.t string);
  notes : option (list string)
}.

(** The merge of a node's result into the state, key by key. *)
Definition apply_update (s upd : UserAnalyticsState) : UserAnalyticsState :=
  {| player_tag := overwrite (player_tag upd) (player_tag s);
     battles_raw := overwrite (battles_raw upd) (battles_raw s);
     battles_filtered := overwrite (battles_filtered upd) (battles_filtered s);
     user_analytics := overwrite (user_analytics upd) (user_analytics s);
     user_plots := overwrite (user_plots upd) (user_plots s);
     notes := overwrite (notes upd) (notes s) |}.

(** [state.get("notes", []) or []].  The node appends to this list in
    place and returns it; the value written is the old list with the note
    at the end. *)
Definition get_notes (s : UserAnalyticsState) : list string := default [] (notes s).
(** [state.get("battles_raw", []) or []] *)
Definition get_battles_raw (s : UserAnalyticsState) : list Raw := default [] (battles_raw s).
(** [state.get("battles_filtered", []) or []] *)
Definition get_battles_filtered (s : UserAnalyticsState) : list Battle :=
  default [] (battles_filtered s).

Definition fetch_battlelog_node (w : World) (state : UserAnalyticsState)
  : (Failure + UserAnalyticsState) * World :=
  match player_tag state with
  | None => (inl (ValueError "player_tag is required in state for fetch_battlelog_node"), w)
  | Some tag =>
      if String.eqb tag "" then
        (inl (ValueError "player_tag is required in state for fetch_battlelog_node"), w)
      else
        let '(r, w') := get_player_battlelog w tag in
        match r with
        | inl e => (inl (Raised e), w')
        | inr raw_battles =>
            let note := "Fetched " +:+ pretty (len raw_battles) +:+ " battles for " +:+ tag in
            (inr {| player_tag := None;
                    battles_raw := Some raw_battles;
                    battles_filtered := None; user_analytics := None; user_plots := None;
                    notes := Some (get_notes state ++ [note]) |}, w')
        end
  end.

Definition filter_and_normalize_node (state : UserAnalyticsState)
  : Failure + UserAnalyticsState :=
  match get_battles_raw state with
  | [] => inl (ValueError "battles_raw is required in state for filter_and_normalize_node")
  | raw =>
      match filter_and_normalize_ranked_1v1 raw with
      | inl e => inl (Raised e)
      | inr filtered =>
          let note := "Filtered to " +:+ pretty (len filtered) +:+
                      " ranked/Trophy Road 1v1 battles" in
          inr {| player_tag := None; battles_raw := None;
                 battles_filtered := Some filtered;
                 user_analytics := None; user_plots := None;
                 notes := Some (get_notes state ++ [note]) |}
      end
  end.

Definition compute_user_analytics_node (state : UserAnalyticsState)
  : Failure + UserAnalyticsState :=
  match get_battles_filtered state with
  | [] =>
      inl (ValueError "battles_filtered is required in state for compute_user_analytics_node")
  | filtered =>
      let analytics := compute_user_analytics filtered in
      let note := "Computed analytics on " +:+
                  pretty (default 0 (summary_games_played analytics)) +:+
                  " ranked/Trophy Road 1v1 battles" in
      inr {| player_tag := None; battles_raw := None; battles_filtered := None;
             user_analytics := Some analytics; user_plots := None;
             notes := Some (get_notes state ++ [note]) |}
  end.

(** [build_user_analytics_graph().invoke(state)]:
    fetch_battlelog -> filter_and_normalize -> compute_user_analytics -> END.
    An exception in a node ends the run. *)
Definition invoke (w : World) (state : UserAnalyticsState)
  : (Failure + UserAnalyticsState) * World :=
  let '(r1, w') := fetch_battlelog_node w state in
  match r1 with
  | inl f => (inl f, w')
  | inr upd1 =>
      let s1 := apply_update state upd1 in
      match filter_and_normalize_node s1 with
      | inl f => (inl f, w')
      | inr upd2 =>
          let s2 := apply_update s1 upd2 in
          match compute_user_analytics_node s2 with
          | inl f => (inl f, w')
          | inr upd3 => (inr (apply_update s2 upd3), w')
          end
      end
  end.

(** The three notes of a successful run, in order. *)
Definition success_notes (tag : string) (raw : list Raw) (filtered : list Battle) : list string :=
  ["Fetched " +:+ pretty (len raw) +:+ " battles for " +:+ tag;
   "Filtered to " +:+ pretty (len filtered) +:+ " ranked/Trophy Road 1v1 battles";
   "Computed analytics on " +:+
     pretty (default 0 (summary_games_played (compute_user_analytics filtered))) +:+
     " ranked/Trophy Road 1v1 battles"].

End UserWorkflow.

(** Concrete collaborators for the examples: the raw battles are the
    normalised ones, and friendly battles are filtered out. *)
Definition sample_log (w : unit) (tag : string) : (string + list Battle) * unit :=
  if String.eqb tag "#NOBODY" then (inl "404 not found", w)
  else if String.eqb tag "#IDLE" then (inr [], w)
  else if String.eqb tag "#FRIENDLY" then
    (inr [{| my_deck_type := "Friendly"; opp_deck_type := "Siege" |}], w)
  else (inr [{| my_deck_type := "Cycle"; opp_deck_type := "Siege" |};
             {| my_deck_type := "Friendly"; opp_deck_type := "Bait" |}], w).

Definition sample_filter (raw : list Battle) : string + list Battle :=
  inr (filter (fun b => my_deck_type b <> "Friendly") raw).

Definition sample_analytics (battles : list Battle) : Analytics :=
  {| summary_games_played := Some (len battles); opp_deck_types := None;
     games_total := None; deck_type_counts_opp := None; source := None |}.

Definition request (tag : string) : @UserAnalyticsState Battle :=
  {| player_tag := Some tag; battles_raw := None; battles_filtered := None;
     user_analytics := None; user_plots := None; notes := None |}.

End User.

(* ================================================================== *)
(** * Properties *)
(* ================================================================== *)

(** ** Dictionaries *)

Module DictFacts.

Lemma lookup_set {V} (d : Dict.t V) (k k' : string) (v : V) :
  Dict.lookup (Dict.set d k v) k' =
  if String.eqb k k' then Some v else Dict.lookup d k'.
Proof.
  induction d as [|[k0 v0] d IH]; simpl.
  - reflexivity.
  - destruct (String.eqb_spec k0 k) as [->|Hne]; simpl.
    + destruct (String.eqb k k'); reflexivity.
    + rewrite IH. destruct (String.eqb_spec k0 k') as [->|Hne'].
      * apply String.eqb_neq in Hne. rewrite String.eqb_sym in Hne.
        now rewrite Hne.
      * reflexivity.
Qed.

Lemma set_not_nil {V} (d : Dict.t V) (k : string) (v : V) : Dict.set d k v <> [].
Proof.
  destruct d as [|[k0 v0] d]; simpl; [discriminate|].
  destruct (String.eqb k0 k); discriminate.
Qed.

Lemma keys_set {V} (d : Dict.t V) (k k' : string) (v : V) :
  k' ∈ map fst (Dict.set d k v) <-> k' = k \/ k' ∈ map fst d.
Proof.
  induction d as [|[k0 v0] d IH]; simpl.
  - rewrite list_elem_of_singleton, elem_of_nil. tauto.
  - destruct (String.eqb_spec k0 k) as [->|Hne]; simpl.
    + rewrite !elem_of_cons. tauto.
    + rewrite !elem_of_cons, IH. tauto.
Qed.

Lemma NoDup_keys_set {V} (d : Dict.t V) (k : string) (v : V) :
  NoDup (map fst d) -> NoDup (map fst (Dict.set d k v)).
Proof.
  induction d as [|[k0 v0] d IH]; simpl; intros Hnd.
  - apply NoDup_singleton.
  - apply NoDup_cons in Hnd as [Hnotin Hnd].
    destruct (String.eqb_spec k0 k) as [->|Hne]; simpl.
    + now apply NoDup_cons.
    + apply NoDup_cons. split; [|auto].
      rewrite keys_set. intros [?|?]; congruence.
Qed.

Lemma lookup_Some_elem {V} (d : Dict.t V) (k : string) (v : V) :
  Dict.lookup d k = Some v -> (k, v) ∈ d.
Proof.
  induction d as [|[k0 v0] d IH]; simpl; [discriminate|].
  destruct (String.eqb_spec k0 k) as [->|Hne]; intros H.
  - injection H as ->. left.
  - right. auto.
Qed.

Lemma elem_lookup_Some {V} (d : Dict.t V) (k : string) (v : V) :
  NoDup (map fst d) -> (k, v) ∈ d -> Dict.lookup d k = Some v.
Proof.
  induction d as [|[k0 v0] d IH]; simpl; intros Hnd Hin.
  - inversion Hin.
  - apply NoDup_cons in Hnd as [Hnotin Hnd].
    apply elem_of_cons in Hin as [Heq|Hin].
    + injection Heq as -> ->. now rewrite String.eqb_refl.
    + destruct (String.eqb_spec k0 k) as [->|Hne]; [|auto].
      exfalso. apply Hnotin. apply list_elem_of_fmap. now exists (k, v).
Qed.

Section Comprehension.
Context {A V : Type} (kf : A -> string) (vf : A -> V).

Local Abbreviation build xs d0 :=
  (fold_left (fun d x => Dict.set d (kf x) (vf x)) xs d0).

Lemma build_NoDup_keys xs d0 : NoDup (map fst d0) -> NoDup (map fst (build xs d0)).
Proof.
  revert d0. induction xs as [|x xs IH]; intros d0 Hnd; simpl; [assumption|].
  apply IH. now apply NoDup_keys_set.
Qed.

Lemma build_lookup_Some xs d0 k v :
  Dict.lookup (build xs d0) k = Some v ->
  (exists x, x ∈ xs /\ kf x = k /\ vf x = v) \/ Dict.lookup d0 k = Some v.
Proof.
  revert d0. induction xs as [|x xs IH]; intros d0; simpl; [now right|].
  intros H. apply IH in H as [(y & Hy & Hk & Hv)|H].
  - left. exists y. split; [now right|auto].
  - rewrite lookup_set in H. destruct (String.eqb_spec (kf x) k) as [Hk|Hk].
    + injection H as <-. left. exists x. split; [left|auto].
    + now right.
Qed.

Lemma build_lookup_agree xs d0 k v :
  (forall x, x ∈ xs -> kf x = k -> vf x = v) ->
  Dict.lookup (build xs d0) k =
  if bool_decide (k ∈ map kf xs) then Some v else Dict.lookup d0 k.
Proof.
  revert d0. induction xs as [|x xs IH]; intros d0 Hv; simpl.
  - reflexivity.
  - rewrite IH by (intros y Hy; apply Hv; now right).
    rewrite lookup_set.
    destruct (decide (k ∈ map kf xs)) as [Hin|Hnin].
    + rewrite !bool_decide_eq_true_2; [reflexivity|now right|assumption].
    + rewrite (bool_decide_eq_false_2 _ Hnin).
      destruct (String.eqb_spec (kf x) k) as [Hk|Hk].
      * rewrite bool_decide_eq_true_2 by (rewrite <- Hk; left).
        f_equal. apply Hv; [left|assumption].
      * rewrite bool_decide_eq_false_2; [reflexivity|].
        intros Hin. apply elem_of_cons in Hin as [?|?]; congruence.
Qed.

Lemma comprehension_NoDup_keys xs : NoDup (map fst (Dict.comprehension kf vf xs)).
Proof. apply build_NoDup_keys. apply NoDup_nil_2. Qed.

Lemma comprehension_lookup_Some xs k v :
  Dict.lookup (Dict.comprehension kf vf xs) k = Some v ->
  exists x, x ∈ xs /\ kf x = k /\ vf x = v.
Proof.
  intros H. apply build_lookup_Some in H as [H|H]; [assumption|discriminate].
Qed.

Lemma comprehension_lookup_agree xs k v :
  (forall x, x ∈ xs -> kf x = k -> vf x = v) ->
  k ∈ map kf xs ->
  Dict.lookup (Dict.comprehension kf vf xs) k = Some v.
Proof.
  intros Hv Hin. unfold Dict.comprehension.
  rewrite (build_lookup_agree xs Dict.empty k v Hv).
  now rewrite bool_decide_eq_true_2.
Qed.

Lemma comprehension_lookup_None xs k :
  k ∉ map kf xs -> Dict.lookup (Dict.comprehension kf vf xs) k = None.
Proof.
  intros Hnin.
  destruct (Dict.lookup (Dict.comprehension kf vf xs) k) as [v|] eqn:E; [|reflexivity].
  apply comprehension_lookup_Some in E as (x & Hx & Hk & _).
  exfalso. apply Hnin. apply list_elem_of_fmap. now exists x.
Qed.

End Comprehension.

End DictFacts.

(** ** The stopping decision *)

Lemma collect_from_nil (counts : Dict.t Z) (required : list string) (d0 : Dict.t Z) :
  fold_left
    (fun insufficient t =>
       let count := Dict.get counts t 0 in
       if count <? MIN_GAMES_PER_TYPE then Dict.set insufficient t count else insufficient)
    required d0 = [] <->
  d0 = [] /\ Forall (fun t => MIN_GAMES_PER_TYPE <= Dict.get counts t 0) required.
Proof.
  revert d0. induction required as [|t ts IH]; intros d0; simpl.
  - split; [intros ->; split; [reflexivity|constructor]|now intros [-> _]].
  - rewrite IH, Forall_cons. destruct (Z.ltb_spec (Dict.get counts t 0) MIN_GAMES_PER_TYPE).
    + split.
      * intros [Hnil _]. now apply DictFacts.set_not_nil in Hnil.
      * intros [_ [Hle _]]. lia.
    + tauto.
Qed.

Lemma enough_per_type_spec (state : MetaState) :
  enough_per_type state = true <->
  Forall (fun t => MIN_GAMES_PER_TYPE <= required_count state t) REQUIRED_DECK_TYPES_LOWER.
Proof.
  unfold enough_per_type, insufficient_types, collect_insufficient, required_count, len.
  rewrite Z.eqb_eq.
  assert (Hlen : forall l : Dict.t Z, Z.of_nat (length l) = 0 <-> l = []).
  { intros [|x l]; simpl; split; intros; try reflexivity; try discriminate; lia. }
  rewrite Hlen, collect_from_nil. unfold Dict.empty. tauto.
Qed.

Lemma thresholds_met_spec (state : MetaState) :
  enough_total state && enough_per_type state = true <-> thresholds_met state.
Proof.
  unfold thresholds_met. rewrite andb_true_iff, enough_per_type_spec.
  unfold enough_total. now rewrite Z.leb_le.
Qed.

(** The used indices that lie in range and the unused ones split the index range. *)
Lemma unused_indices_count (state : MetaState) :
  used_in_range state ->
  (size (get_used_player_indices state) + length (unused_indices state)
   = length (get_top_players state))%nat.
Proof.
  intros Hwf. unfold unused_indices.
  set (U := get_used_player_indices state) in *.
  set (n := length (get_top_players state)) in *.
  set (unused := filter (fun i => i ∉ U) (seq 0 n)).
  assert (Hnd : NoDup unused) by (apply NoDup_filter, NoDup_seq).
  assert (Hsplit : (list_to_set (seq 0 n) : gset nat) = U ∪ list_to_set unused).
  { apply set_eq. intros i.
    rewrite elem_of_union, !elem_of_list_to_set. unfold unused.
    rewrite list_elem_of_filter, elem_of_seq. split.
    - intros Hi. destruct (decide (i ∈ U)); [now left|right; split; [assumption|lia]].
    - intros [Hi|[_ Hi]]; [|lia]. specialize (Hwf i Hi). simpl in Hwf. lia. }
  assert (Hdisj : U ## (list_to_set unused : gset nat)).
  { intros i Hi Hi'. apply elem_of_list_to_set in Hi'.
    apply list_elem_of_filter in Hi' as [Hni _]. contradiction. }
  apply (f_equal size) in Hsplit.
  rewrite size_union in Hsplit by assumption.
  rewrite !size_list_to_set in Hsplit by (assumption || apply NoDup_seq).
  rewrite length_seq in Hsplit. lia.
Qed.

(** Without the invariant one direction remains: more players than used
    indices means that some index is unused. *)
Lemma remaining_unused (state : MetaState) :
  0 < remaining state -> unused_indices state <> [].
Proof.
  unfold remaining, len, unused_indices. intros Hpos Hnil.
  set (U := get_used_player_indices state) in *.
  set (n := length (get_top_players state)) in *.
  assert (Hsub : (list_to_set (seq 0 n) : gset nat) ⊆ U).
  { intros i Hi. apply elem_of_list_to_set in Hi.
    destruct (decide (i ∈ U)) as [|Hni]; [assumption|].
    exfalso. eapply filter_nil_not_elem_of; [exact Hnil|exact Hni|exact Hi]. }
  apply subseteq_size in Hsub.
  rewrite size_list_to_set in Hsub by apply NoDup_seq.
  rewrite length_seq in Hsub. lia.
Qed.

Lemma remaining_spec (state : MetaState) :
  used_in_range state ->
  remaining state = Z.of_nat (length (unused_indices state)).
Proof.
  intros Hwf. pose proof (unused_indices_count state Hwf) as H.
  unfold remaining, len. lia.
Qed.

(** The three outcomes of [check_enough_battles_node], by the tests of the code. *)
Lemma check_enough_cases (state : MetaState) :
  let upd := check_enough_battles_node state in
  (enough_total state && enough_per_type state = true /\
   stop_decision upd = Some "enough" /\ is_balanced upd = Some true) \/
  (enough_total state && enough_per_type state = false /\
   (remaining state <= 0 \/ 20 <= get_loop_count state) /\
   stop_decision upd = Some "stop" /\ is_balanced upd = Some false) \/
  (enough_total state && enough_per_type state = false /\
   0 < remaining state /\ get_loop_count state < 20 /\
   stop_decision upd = Some "need_more" /\ is_balanced upd = Some false).
Proof.
  unfold check_enough_battles_node.
  destruct (enough_total state && enough_per_type state) eqn:He.
  - left. auto.
  - right.
    destruct (Z.leb_spec (remaining state) 0) as [Hr|Hr]; simpl.
    + left. auto.
    + destruct (Z.leb_spec 20 (get_loop_count state)) as [Hl|Hl]; simpl.
      * left. auto.
      * right. auto.
Qed.

Lemma check_enough_writes (state : MetaState) :
  let upd := check_enough_battles_node state in
  top_players upd = None /\ selected_players upd = None /\
  used_player_indices upd = None /\ fetched_player_tags upd = None /\
  meta_raw_battles upd = None /\ normalized_battles upd = None /\
  meta_analytics upd = None /\ loop_count upd = None.
Proof.
  unfold check_enough_battles_node.
  destruct (enough_total state && enough_per_type state);
    [|destruct ((remaining state <=? 0) || (20 <=? get_loop_count state))];
    simpl; repeat split.
Qed.

(** C1. On every state whose used indices are indices of the population,
    [check_enough_battles_node] decides "enough" exactly when
    [games_total >= MIN_TOTAL_BATTLES] and every required deck type has at
    least [MIN_GAMES_PER_TYPE] games (a type absent from the lowercased
    counts reads as 0); failing that, it decides "need_more" exactly when
    some population index is unused and [loop_count < 20]; failing both it
    decides "stop"; and [is_balanced] is set, to true exactly when the
    decision is "enough". *)
Theorem check_enough_decision (state : MetaState) :
  used_in_range state ->
  let upd := check_enough_battles_node state in
  (stop_decision upd = Some "enough" <-> thresholds_met state) /\
  (stop_decision upd = Some "need_more" <->
     ~ thresholds_met state /\ can_sample_more state) /\
  (stop_decision upd = Some "stop" <->
     ~ thresholds_met state /\ ~ can_sample_more state) /\
  (exists b, is_balanced upd = Some b /\
     (b = true <-> stop_decision upd = Some "enough")).
Proof.
  intros Hwf upd.
  pose proof (check_enough_cases state) as Hcases.
  pose proof (thresholds_met_spec state) as Hmet.
  pose proof (remaining_spec state Hwf) as Hrem.
  fold upd in Hcases. unfold can_sample_more, MAX_LOOPS.
  destruct Hcases as [(He & Hd & Hb)|[(He & Hc & Hd & Hb)|(He & Hr & Hl & Hd & Hb)]];
    rewrite Hd, Hb.
  - assert (thresholds_met state) by now apply Hmet.
    split; [tauto|]. split; [split; [discriminate|tauto]|].
    split; [split; [discriminate|tauto]|].
    exists true. tauto.
  - assert (~ thresholds_met state) by (rewrite <- Hmet, He; discriminate).
    split; [split; [discriminate|tauto]|].
    split; [split; [discriminate|intros [_ [? ?]]; lia]|].
    split; [split; [intros _; split; [assumption|intros [? ?]; lia]|reflexivity]|].
    exists false. split; [reflexivity|]. split; discriminate.
  - assert (~ thresholds_met state) by (rewrite <- Hmet, He; discriminate).
    split; [split; [discriminate|tauto]|].
    split; [split; [intros _; split; [assumption|split; lia]|reflexivity]|].
    split; [split; [discriminate|intros [_ Hn]; exfalso; apply Hn; split; lia]|].
    exists false. split; [reflexivity|]. split; discriminate.
Qed.

Lemma check_enough_decision_witness :
  used_in_range Sample.state_midway /\
  stop_decision (check_enough_battles_node Sample.state_midway) = Some "need_more" /\
  ~ thresholds_met Sample.state_midway /\ can_sample_more Sample.state_midway.
Proof.
  assert (Hwf : used_in_range Sample.state_midway).
  { intros i Hi. change (i ∈ ({[1%nat]} : gset nat)) in Hi.
    apply elem_of_singleton in Hi. subst i. simpl. lia. }
  split; [exact Hwf|]. split; [reflexivity|].
  apply (check_enough_decision Sample.state_midway Hwf). reflexivity.
Defined.

(** ** Routing *)

Lemma is_known_decision_spec (d : string) :
  is_known_decision d = true <-> d = "enough" \/ d = "need_more" \/ d = "stop".
Proof.
  unfold is_known_decision. rewrite !orb_true_iff, !String.eqb_eq. tauto.
Qed.

(** C10. [route_after_check_enough] always returns one of "enough",
    "need_more" and "stop": a recognised [stop_decision] is returned as it
    is, and a missing, empty or unrecognised one is routed to "stop". *)
Theorem route_is_total (state : MetaState) :
  (route_after_check_enough state = "enough" \/
   route_after_check_enough state = "need_more" \/
   route_after_check_enough state = "stop") /\
  (is_known_decision (get_stop_decision state) = true ->
   route_after_check_enough state = get_stop_decision state) /\
  (stop_decision state = None -> route_after_check_enough state = "stop") /\
  (stop_decision state = Some "" -> route_after_check_enough state = "stop") /\
  (forall d, stop_decision state = Some d ->
     d <> "enough" -> d <> "need_more" -> d <> "stop" ->
     route_after_check_enough state = "stop").
Proof.
  unfold route_after_check_enough, get_stop_decision.
  repeat split.
  - destruct (is_known_decision (default "" (stop_decision state))) eqn:Hk.
    + apply is_known_decision_spec in Hk. exact Hk.
    + right. right. reflexivity.
  - intros ->. reflexivity.
  - intros ->. reflexivity.
  - intros ->. reflexivity.
  - intros d -> H1 H2 H3. simpl.
    destruct (is_known_decision d) eqn:Hk; [|reflexivity].
    apply is_known_decision_spec in Hk. tauto.
Qed.

Lemma route_is_total_witness :
  route_after_check_enough no_update = "stop" /\
  route_after_check_enough Sample.state_at_bound = "need_more".
Proof.
  split.
  - destruct (route_is_total no_update) as (_ & _ & Hmissing & _).
    apply Hmissing. reflexivity.
  - destruct (route_is_total Sample.state_at_bound) as (_ & Hknown & _).
    apply Hknown. reflexivity.
Defined.

(** ** The per-category counts *)


(** Whatever the table, a count found under [key] comes from a row whose
    label is [key] up to whitespace and case. *)
Lemma stopping_lookup_row (rows : list DeckTypeRow) (key : string) (n : Z) :
  Dict.lookup (lower_keys (strip_rows rows)) key = Some n ->
  exists row, row ∈ rows /\ normalize (default "" (row_type row)) = key /\
              default 0 (row_games row) = n.
Proof.
  unfold lower_keys, Dict.items. intros H.
  apply DictFacts.comprehension_lookup_Some in H as ([k1 v] & Hin & Hk & Hv).
  simpl in Hk, Hv. subst v.
  apply DictFacts.elem_lookup_Some in Hin; [|apply DictFacts.comprehension_NoDup_keys].
  apply DictFacts.comprehension_lookup_Some in Hin as (row & Hrow & Hk1 & Hn).
  exists row. unfold normalize. rewrite Hk1. auto.
Qed.

(** When every row that normalises to [key] carries the count [n], and
    there is such a row, the decision reads [n]. *)
Lemma stopping_lookup_agree (rows : list DeckTypeRow) (key : string) (n : Z) :
  (forall row, row ∈ rows -> normalize (default "" (row_type row)) = key ->
               default 0 (row_games row) = n) ->
  (exists row, row ∈ rows /\ normalize (default "" (row_type row)) = key) ->
  Dict.lookup (lower_keys (strip_rows rows)) key = Some n.
Proof.
  intros Hall (row0 & Hrow0 & Hkey0).
  unfold lower_keys, Dict.items.
  apply DictFacts.comprehension_lookup_agree.
  - intros [k1 v] Hin Hk. simpl in *.
    apply DictFacts.elem_lookup_Some in Hin; [|apply DictFacts.comprehension_NoDup_keys].
    apply DictFacts.comprehension_lookup_Some in Hin as (row & Hrow & Hk1 & Hn).
    rewrite <- Hn. apply Hall; [assumption|]. unfold normalize. now rewrite Hk1.
  - apply list_elem_of_fmap.
    exists (PyStr.strip (default "" (row_type row0)), n). split; [symmetry; exact Hkey0|].
    apply DictFacts.lookup_Some_elem.
    apply DictFacts.comprehension_lookup_agree.
    + intros row Hrow Hk. apply Hall; [assumption|].
      unfold normalize in *. now rewrite Hk.
    + apply list_elem_of_fmap. now exists row0.
Qed.



(** ** Random sampling *)

Lemma random_sample_submseteq {A} (g : Rng) (population : list A) (k : nat) :
  (random_sample g population k).1 ⊆+ population.
Proof.
  revert g population. induction k as [|k IH]; intros g population; simpl.
  - apply submseteq_nil_l.
  - destruct (population !! (g 0%nat mod length population)%nat) as [x|] eqn:E.
    + specialize (IH (rng_tail g) (delete (g 0%nat mod length population)%nat population)).
      destruct (random_sample (rng_tail g) _ k) as [rest g'] eqn:Er. simpl in *.
      rewrite (delete_Permutation _ _ _ E). now apply submseteq_skip.
    + apply submseteq_nil_l.
Qed.

Lemma random_sample_length {A} (g : Rng) (population : list A) (k : nat) :
  length (random_sample g population k).1 = Nat.min k (length population).
Proof.
  revert g population. induction k as [|k IH]; intros g population; simpl.
  - reflexivity.
  - destruct (population !! (g 0%nat mod length population)%nat) as [x|] eqn:E.
    + specialize (IH (rng_tail g) (delete (g 0%nat mod length population)%nat population)).
      destruct (random_sample (rng_tail g) _ k) as [rest g'] eqn:Er.
      cbn [fst length] in *.
      rewrite IH. rewrite length_delete by (exists x; exact E).
      apply lookup_lt_Some in E. destruct (length population); lia.
    + apply lookup_ge_None in E. destruct population as [|y population]; simpl in *.
      * lia.
      * pose proof (Nat.mod_upper_bound (g 0%nat) (S (length population))). lia.
Qed.

Lemma random_sample_NoDup {A} (g : Rng) (population : list A) (k : nat) :
  NoDup population -> NoDup (random_sample g population k).1.
Proof.
  intros Hnd.
  destruct (proj1 (submseteq_sublist_r _ _) (random_sample_submseteq g population k))
    as (l & Hperm & Hsub).
  rewrite Hperm. eapply sublist_NoDup; eassumption.
Qed.

Lemma random_sample_elem {A} (g : Rng) (population : list A) (k : nat) (x : A) :
  x ∈ (random_sample g population k).1 -> x ∈ population.
Proof. intros Hx. eapply elem_of_submseteq; [exact Hx|apply random_sample_submseteq]. Qed.

(** The model of [random.sample] leaves no outcome out: every selection of
    distinct elements, in every order, is drawn by some random source. *)
Lemma random_sample_complete {A} (population xs : list A) :
  NoDup population -> NoDup xs -> (forall x, x ∈ xs -> x ∈ population) ->
  exists g, (random_sample g population (length xs)).1 = xs.
Proof.
  revert population. induction xs as [|x xs IH]; intros population Hpop Hxs Hsub.
  - exists (fun _ => O). reflexivity.
  - apply NoDup_cons in Hxs as [Hx Hxs].
    destruct (proj1 (list_elem_of_lookup population x) (Hsub x ltac:(left))) as [j Hj].
    pose proof (delete_Permutation population j x Hj) as Hperm.
    assert (Hpop' : NoDup (delete j population)).
    { rewrite Hperm in Hpop. now apply NoDup_cons in Hpop as [_ Hpop]. }
    destruct (IH (delete j population) Hpop' Hxs) as [g' Hg'].
    { intros y Hy. assert (Hin : y ∈ population) by (apply Hsub; now right).
      rewrite Hperm in Hin. apply elem_of_cons in Hin as [->|Hin]; [contradiction|exact Hin]. }
    exists (fun n => match n with O => j | S m => g' m end).
    cbn [random_sample length].
    rewrite Nat.mod_small by (eapply lookup_lt_Some; exact Hj).
    rewrite Hj.
    change (rng_tail (fun n => match n with O => j | S m => g' m end)) with g'.
    destruct (random_sample g' (delete j population) (length xs)) as [rest g''].
    simpl in Hg'. now rewrite Hg'.
Qed.

Lemma players_at_length (top : list Player) (indices : list nat) :
  (forall i, i ∈ indices -> (i < length top)%nat) ->
  length (players_at top indices) = length indices.
Proof.
  unfold players_at. induction indices as [|i indices IH]; intros Hin; [reflexivity|].
  simpl. destruct (lookup_lt_is_Some_2 top i (Hin i ltac:(left))) as [p Hp].
  rewrite Hp. simpl. f_equal. apply IH. intros j Hj. apply Hin. now right.
Qed.

Lemma unused_indices_elem (state : MetaState) (i : nat) :
  i ∈ unused_indices state <->
  (i < length (get_top_players state))%nat /\ i ∉ get_used_player_indices state.
Proof.
  unfold unused_indices. rewrite list_elem_of_filter, elem_of_seq. intuition lia.
Qed.

Lemma unused_indices_NoDup (state : MetaState) : NoDup (unused_indices state).
Proof. apply NoDup_filter, NoDup_seq. Qed.

Lemma unused_indices_no_players (state : MetaState) :
  get_top_players state = [] -> unused_indices state = [].
Proof. unfold unused_indices. now intros ->. Qed.

(** What [sample_more_5_node] draws and writes, in one statement. *)
Lemma sample_more_5_sound (g : Rng) (state : MetaState) :
  let r := sample_more_5_node g state in
  let upd := sampling_update r in
  NoDup (sampling_indices r) /\
  (forall i, i ∈ sampling_indices r -> i ∈ unused_indices state) /\
  length (sampling_indices r) = Nat.min 5 (length (unused_indices state)) /\
  selected_players upd = Some (players_at (get_top_players state) (sampling_indices r)) /\
  get_used_player_indices (apply_update state upd) =
    get_used_player_indices state ∪ list_to_set (sampling_indices r) /\
  top_players upd = None /\ meta_raw_battles upd = None /\ fetched_player_tags upd = None /\
  loop_count upd =
    match unused_indices state with
    | [] => None
    | _ :: _ => Some (get_loop_count state + 1)
    end /\
  exists note, notes upd = Some (get_notes state ++ [note]).
Proof.
  unfold sample_more_5_node.
  destruct (get_top_players state) as [|p top] eqn:Etop.
  - rewrite (unused_indices_no_players state Etop). simpl.
    repeat split; try apply NoDup_nil_2; try (intros i Hi; inversion Hi).
    + unfold get_used_player_indices, apply_update. simpl.
      destruct (used_player_indices state); simpl; now rewrite union_empty_r_L.
    + eexists. reflexivity.
  - destruct (unused_indices state) as [|u unused] eqn:Eunused.
    + simpl. repeat split; try apply NoDup_nil_2; try (intros i Hi; inversion Hi).
      * unfold get_used_player_indices, apply_update. simpl. now rewrite union_empty_r_L.
      * eexists. reflexivity.
    + pose proof (random_sample_NoDup g (u :: unused) (Nat.min 5 (length (u :: unused)))) as Hnd.
      pose proof (random_sample_elem g (u :: unused) (Nat.min 5 (length (u :: unused)))) as Hel.
      pose proof (random_sample_length g (u :: unused) (Nat.min 5 (length (u :: unused)))) as Hlen.
      destruct (random_sample g (u :: unused) (Nat.min 5 (length (u :: unused))))
        as [new_indices g'] eqn:Er.
      cbn [fst] in Hnd, Hel, Hlen. cbn -[Nat.min length].
      repeat split.
      * apply Hnd. rewrite <- Eunused. apply unused_indices_NoDup.
      * exact Hel.
      * rewrite Hlen. lia.
      * eexists. reflexivity.
Qed.

Lemma sample_initial_50_sound (g : Rng) (state : MetaState) :
  let r := sample_initial_50_node g state in
  let upd := sampling_update r in
  NoDup (sampling_indices r) /\
  (forall i, i ∈ sampling_indices r -> (i < length (get_top_players state))%nat) /\
  length (sampling_indices r) = Nat.min 50 (length (get_top_players state)) /\
  selected_players upd = Some (players_at (get_top_players state) (sampling_indices r)) /\
  get_used_player_indices (apply_update state upd) =
    get_used_player_indices state ∪ list_to_set (sampling_indices r) /\
  top_players upd = None /\ meta_raw_battles upd = None /\ fetched_player_tags upd = None /\
  loop_count upd = None.
Proof.
  unfold sample_initial_50_node.
  destruct (get_top_players state) as [|p top] eqn:Etop.
  - simpl. repeat split; try apply NoDup_nil_2; try (intros i Hi; inversion Hi).
    unfold get_used_player_indices, apply_update. simpl.
    destruct (used_player_indices state); simpl; now rewrite union_empty_r_L.
  - set (all := seq 0 (length (p :: top))).
    pose proof (random_sample_NoDup g all (Nat.min 50 (length all))) as Hnd.
    pose proof (random_sample_elem g all (Nat.min 50 (length all))) as Hel.
    pose proof (random_sample_length g all (Nat.min 50 (length all))) as Hlen.
    destruct (random_sample g all (Nat.min 50 (length all))) as [sampled g'] eqn:Er.
    cbn [fst] in Hnd, Hel, Hlen. cbn -[Nat.min length].
    repeat split.
    + apply Hnd, NoDup_seq.
    + intros i Hi. apply Hel in Hi. unfold all in Hi. apply elem_of_seq in Hi. lia.
    + rewrite Hlen. unfold all. rewrite length_seq. lia.
Qed.

(** C8. When no unused index remains, [sample_more_5_node] returns an empty
    selection and one more audit note, draws nothing and leaves the used
    set and the loop counter as they were.  When unused indices remain, it
    returns the players at [min(5, number of unused indices)] distinct
    indices, every one of them an unused index of the population. *)
Theorem sample_more_5_exhaustion (g : Rng) (state : MetaState) :
  let r := sample_more_5_node g state in
  let upd := sampling_update r in
  match unused_indices state with
  | [] =>
      selected_players upd = Some [] /\
      sampling_indices r = [] /\
      (exists note, notes upd = Some (get_notes state ++ [note])) /\
      get_used_player_indices (apply_update state upd) = get_used_player_indices state /\
      loop_count upd = None
  | _ :: _ =>
      selected_players upd = Some (players_at (get_top_players state) (sampling_indices r)) /\
      length (players_at (get_top_players state) (sampling_indices r))
        = Nat.min 5 (length (unused_indices state)) /\
      NoDup (sampling_indices r) /\
      (forall i, i ∈ sampling_indices r ->
         (i < length (get_top_players state))%nat /\ i ∉ get_used_player_indices state) /\
      get_used_player_indices (apply_update state upd) =
        get_used_player_indices state ∪ list_to_set (sampling_indices r)
  end.
Proof.
  intros r upd.
  destruct (sample_more_5_sound g state)
    as (Hnd & Hel & Hlen & Hsel & Hused & _ & _ & _ & Hloop & Hnote).
  fold r in Hnd, Hel, Hlen, Hsel, Hused. fold upd in Hsel, Hused, Hloop, Hnote.
  destruct (unused_indices state) as [|u unused] eqn:E.
  - simpl in Hlen. apply length_zero_iff_nil in Hlen.
    rewrite Hlen in *. simpl in *.
    repeat split; try assumption.
    rewrite Hused. simpl. now rewrite union_empty_r_L.
  - assert (Hin : forall i, i ∈ sampling_indices r ->
              (i < length (get_top_players state))%nat /\ i ∉ get_used_player_indices state).
    { intros i Hi. apply unused_indices_elem. rewrite E. now apply Hel. }
    repeat split; try assumption; try (now apply Hin).
    rewrite players_at_length; [assumption|]. intros i Hi. now apply Hin.
Qed.

(** ** State bookkeeping *)

Lemma get_top_players_update (s upd : MetaState) :
  get_top_players (apply_update s upd) = default (get_top_players s) (top_players upd).
Proof. unfold get_top_players, apply_update. simpl. now destruct (top_players upd). Qed.

Lemma get_selected_players_update (s upd : MetaState) :
  get_selected_players (apply_update s upd)
  = default (get_selected_players s) (selected_players upd).
Proof. unfold get_selected_players, apply_update. simpl. now destruct (selected_players upd). Qed.

Lemma get_used_update (s upd : MetaState) :
  get_used_player_indices (apply_update s upd)
  = default (get_used_player_indices s) (used_player_indices upd).
Proof.
  unfold get_used_player_indices, apply_update. simpl. now destruct (used_player_indices upd).
Qed.

Lemma get_fetched_update (s upd : MetaState) :
  get_fetched_player_tags (apply_update s upd)
  = default (get_fetched_player_tags s) (fetched_player_tags upd).
Proof.
  unfold get_fetched_player_tags, apply_update. simpl. now destruct (fetched_player_tags upd).
Qed.

Lemma get_meta_raw_update (s upd : MetaState) :
  get_meta_raw_battles (apply_update s upd)
  = default (get_meta_raw_battles s) (meta_raw_battles upd).
Proof.
  unfold get_meta_raw_battles, apply_update. simpl. now destruct (meta_raw_battles upd).
Qed.

Lemma get_loop_count_update (s upd : MetaState) :
  get_loop_count (apply_update s upd) = default (get_loop_count s) (loop_count upd).
Proof. unfold get_loop_count, apply_update. simpl. now destruct (loop_count upd). Qed.

Lemma get_stop_decision_update (s upd : MetaState) :
  get_stop_decision (apply_update s upd) = default (get_stop_decision s) (stop_decision upd).
Proof. unfold get_stop_decision, apply_update. simpl. now destruct (stop_decision upd). Qed.

Lemma get_notes_update (s upd : MetaState) :
  get_notes (apply_update s upd) = default (get_notes s) (notes upd).
Proof. unfold get_notes, apply_update. simpl. now destruct (notes upd). Qed.

(** ** Reading the call record *)

Lemma drawn_app (t1 t2 : list Event) : drawn (t1 ++ t2) = drawn t1 ++ drawn t2.
Proof. apply omap_app. Qed.

Lemma retrieved_tags_app (t1 t2 : list Event) :
  retrieved_tags (t1 ++ t2) = retrieved_tags t1 ++ retrieved_tags t2.
Proof. apply omap_app. Qed.

Lemma successes_app (t1 t2 : list Event) : successes (t1 ++ t2) = successes t1 ++ successes t2.
Proof. apply omap_app. Qed.

Lemma failures_app (t1 t2 : list Event) : failures (t1 ++ t2) = failures t1 ++ failures t2.
Proof. apply omap_app. Qed.

Lemma decisions_app (t1 t2 : list Event) : decisions (t1 ++ t2) = decisions t1 ++ decisions t2.
Proof. apply omap_app. Qed.

Lemma contributions_app (t1 t2 : list Event) :
  contributions (t1 ++ t2) = contributions t1 ++ contributions t2.
Proof. unfold contributions. now rewrite successes_app, map_app, concat_app. Qed.

Lemma success_tags_app (t1 t2 : list Event) :
  success_tags (t1 ++ t2) = success_tags t1 ++ success_tags t2.
Proof. unfold success_tags. now rewrite successes_app, map_app. Qed.

Lemma error_notes_app (t1 t2 : list Event) :
  error_notes (t1 ++ t2) = error_notes t1 ++ error_notes t2.
Proof. unfold error_notes. now rewrite failures_app, map_app. Qed.

Lemma success_tags_retrieved (trace : list Event) (tag : string) :
  tag ∈ success_tags trace -> tag ∈ retrieved_tags trace.
Proof.
  unfold success_tags, successes, retrieved_tags. intros H.
  apply list_elem_of_fmap in H as ([t n] & -> & H).
  apply list_elem_of_omap in H as (ev & Hev & Hs).
  apply list_elem_of_omap. exists ev. split; [assumption|].
  destruct ev as [|t' [e|n']|]; try discriminate. now injection Hs as -> _.
Qed.

Lemma failures_retrieved (trace : list Event) (tag e : string) :
  (tag, e) ∈ failures trace -> tag ∈ retrieved_tags trace.
Proof.
  unfold failures, retrieved_tags. intros H.
  apply list_elem_of_omap in H as (ev & Hev & Hs).
  apply list_elem_of_omap. exists ev. split; [assumption|].
  destruct ev as [|t' [e'|n']|]; try discriminate. now injection Hs as -> _.
Qed.

Lemma contribution_take (normalized : list Battle) :
  contribution normalized = take 10 normalized /\
  length (contribution normalized) = Nat.min (length normalized) 10.
Proof.
  unfold contribution. split.
  - destruct (Nat.le_ge_cases (length normalized) 10) as [Hle|Hge].
    + rewrite Nat.min_l by assumption. now rewrite !take_ge by lia.
    + now rewrite Nat.min_r by assumption.
  - rewrite length_take. lia.
Qed.

Lemma usable_tags_app (l1 l2 : list Player) :
  usable_tags (l1 ++ l2) = usable_tags l1 ++ usable_tags l2.
Proof. unfold usable_tags. now rewrite omap_app, filter_app. Qed.

Lemma tags_at_app (top : list Player) (d1 d2 : list nat) :
  tags_at top (d1 ++ d2) = tags_at top d1 ++ tags_at top d2.
Proof. unfold tags_at, players_at. now rewrite omap_app, usable_tags_app. Qed.

Lemma elem_of_concat {A} (x : A) (ls : list (list A)) :
  x ∈ concat ls <-> exists l, x ∈ l /\ l ∈ ls.
Proof.
  induction ls as [|l0 ls IH]; simpl.
  - split; [intros H; inversion H|intros (l & _ & H); inversion H].
  - rewrite elem_of_app, IH. split.
    + intros [H|(l & Hx & Hl)]; [exists l0; split; [assumption|left]|].
      exists l. split; [assumption|now right].
    + intros (l & Hx & Hl). apply elem_of_cons in Hl as [->|Hl]; [now left|].
      right. now exists l.
Qed.

Lemma trace_of_Sampled (indices : list nat) :
  drawn [Sampled indices] = [indices] /\ retrieved_tags [Sampled indices] = [] /\
  successes [Sampled indices] = [] /\ failures [Sampled indices] = [] /\
  decisions [Sampled indices] = [].
Proof. repeat split. Qed.

Lemma trace_of_Decided (d : string) :
  drawn [Decided d] = [] /\ retrieved_tags [Decided d] = [] /\
  successes [Decided d] = [] /\ failures [Decided d] = [] /\
  decisions [Decided d] = [d].
Proof. repeat split. Qed.

Lemma trace_of_nil :
  drawn [] = [] /\ retrieved_tags [] = [] /\ successes [] = [] /\ failures [] = [] /\
  decisions [] = [].
Proof. repeat split. Qed.

(** Normalise the readings of a one-event or empty call record. *)
Ltac simpl_trace :=
  unfold contributions, success_tags, error_notes;
  repeat match goal with
    | |- context [drawn [Sampled ?i]] => change (drawn [Sampled i]) with [i]
    | |- context [retrieved_tags [Sampled ?i]] =>
        change (retrieved_tags [Sampled i]) with (@nil string)
    | |- context [successes [Sampled ?i]] =>
        change (successes [Sampled i]) with (@nil (string * list Battle))
    | |- context [drawn [Decided ?d]] => change (drawn [Decided d]) with (@nil (list nat))
    | |- context [retrieved_tags [Decided ?d]] =>
        change (retrieved_tags [Decided d]) with (@nil string)
    | |- context [successes [Decided ?d]] =>
        change (successes [Decided d]) with (@nil (string * list Battle))
    | |- context [drawn []] => change (drawn []) with (@nil (list nat))
    | |- context [retrieved_tags []] => change (retrieved_tags []) with (@nil string)
    | |- context [successes []] =>
        change (successes []) with (@nil (string * list Battle))
    end;
  cbn [concat map list_to_set];
  rewrite ?app_nil_r, ?union_empty_r_L.

(** ** The fetch step *)

Section WorkflowFacts.

Context {World RawLog : Type}.
Variable fetch_top_players : World -> Z -> list Player * World.
Variable get_player_battlelog : World -> string -> (string + RawLog) * World.
Variable filter_and_normalize_ranked_1v1 : RawLog -> string + list Battle.
Variable compute_user_analytics : list Battle -> Analytics.

Local Abbreviation FetchLoop_ := (@FetchLoop World).
Local Abbreviation Config_ := (@Config World).
Local Abbreviation retrieve_ :=
  (retrieve get_player_battlelog filter_and_normalize_ranked_1v1).
Local Abbreviation fetch_player_ :=
  (fetch_player get_player_battlelog filter_and_normalize_ranked_1v1).
Local Abbreviation fetch_node_ :=
  (fetch_meta_battles_node get_player_battlelog filter_and_normalize_ranked_1v1).
Local Abbreviation compute_node_ := (compute_meta_analytics_node compute_user_analytics).
Local Abbreviation exec_ :=
  (exec fetch_top_players get_player_battlelog filter_and_normalize_ranked_1v1
        compute_user_analytics).
Local Abbreviation exec_all_ :=
  (exec_all fetch_top_players get_player_battlelog filter_and_normalize_ranked_1v1
            compute_user_analytics).
Local Abbreviation run_ :=
  (run fetch_top_players get_player_battlelog filter_and_normalize_ranked_1v1
       compute_user_analytics).
Local Abbreviation invoke_ :=
  (invoke fetch_top_players get_player_battlelog filter_and_normalize_ranked_1v1
          compute_user_analytics).

Lemma fetched_between_refl (acc : FetchLoop_) : fetched_between acc acc [] [].
Proof.
  unfold fetched_between. simpl.
  rewrite !app_nil_r, union_empty_r_L.
  repeat split; try reflexivity; try apply NoDup_nil_2.
  - intros tag Hin. inversion Hin.
  - intros p tag Hp. inversion Hp.
Qed.

(** One pass of the loop, by the four ways it can go. *)
Lemma fetch_player_cases (acc : FetchLoop_) (player : Player) :
  let acc' := fetch_player_ acc player in
  (* no usable tag, or already fetched: nothing happens *)
  ((player_tag player = None \/ player_tag player = Some "" \/
    (exists tag, player_tag player = Some tag /\ tag ∈ fl_fetched_tags acc)) /\
   acc' = acc) \/
  (exists tag, player_tag player = Some tag /\ tag <> "" /\ (tag ∉ fl_fetched_tags acc) /\
     ((exists e, (retrieve_ (fl_world acc) tag).1 = inl e /\
         fl_events acc' = fl_events acc ++ [Retrieved tag (inl e)] /\
         fl_meta_raw acc' = fl_meta_raw acc /\
         fl_fetched_tags acc' = fl_fetched_tags acc /\
         fl_notes acc' = fl_notes acc ++ [error_note tag e]) \/
      (exists normalized, (retrieve_ (fl_world acc) tag).1 = inr normalized /\
         fl_events acc' = fl_events acc ++ [Retrieved tag (inr normalized)] /\
         fl_meta_raw acc' = fl_meta_raw acc ++ contribution normalized /\
         fl_fetched_tags acc' = fl_fetched_tags acc ∪ {[tag]} /\
         fl_notes acc' = fl_notes acc))).
Proof.
  unfold fetch_player. destruct (player_tag player) as [tag|]; [|left; auto].
  destruct (String.eqb_spec tag "") as [->|Hne]; [left; auto|].
  destruct (decide (tag ∈ fl_fetched_tags acc)) as [Hin|Hnin].
  - rewrite bool_decide_eq_true_2 by assumption. left. split; [|reflexivity].
    right. right. now exists tag.
  - rewrite bool_decide_eq_false_2 by assumption. right.
    exists tag. repeat split; try assumption.
    destruct (retrieve_ (fl_world acc) tag) as [[e|normalized] w'] eqn:Er; simpl.
    + left. exists e. repeat split.
    + right. exists normalized. repeat split.
Qed.

Lemma fetch_player_between (acc : FetchLoop_) (player : Player) :
  exists evs, fetched_between acc (fetch_player_ acc player) [player] evs.
Proof.
  destruct (fetch_player_cases acc player)
    as [[Hskip ->]|(tag & Htag & Hne & Hnin &
          [(e & _ & Hev & Hraw & Hfet & Hnotes)|(n & _ & Hev & Hraw & Hfet & Hnotes)])].
  - exists []. unfold fetched_between. simpl.
    rewrite !app_nil_r, union_empty_r_L.
    repeat split; try reflexivity; try apply NoDup_nil_2.
    + apply sublist_nil_l.
    + intros tag Hin. inversion Hin.
    + intros p tag Hp Htag Hne. apply list_elem_of_singleton in Hp. subst p.
      destruct Hskip as [H|[H|(tag' & H & Hin)]]; rewrite H in Htag; try discriminate.
      * injection Htag as <-. contradiction.
      * injection Htag as <-. now left.
  - exists [Retrieved tag (inl e)]. unfold fetched_between.
    rewrite Hev, Hraw, Hfet, Hnotes. simpl.
    rewrite app_nil_r, union_empty_r_L.
    repeat split; try reflexivity; try apply NoDup_nil_2.
    + unfold usable_tags. simpl. rewrite Htag. simpl.
      rewrite filter_cons_True by assumption. reflexivity.
    + intros tag' Hin. apply list_elem_of_singleton in Hin. now subst tag'.
    + intros p tag' Hp Htag' _. apply list_elem_of_singleton in Hp. subst p.
      rewrite Htag in Htag'. injection Htag' as <-.
      right. exists e. left.
  - exists [Retrieved tag (inr n)]. unfold fetched_between.
    rewrite Hev, Hraw, Hfet, Hnotes. unfold contributions, success_tags. simpl.
    rewrite !app_nil_r, union_empty_r_L.
    repeat split; try reflexivity.
    + unfold usable_tags. simpl. rewrite Htag. simpl.
      rewrite filter_cons_True by assumption. reflexivity.
    + intros tag' Hin. apply list_elem_of_singleton in Hin. now subst tag'.
    + apply NoDup_singleton.
    + intros p tag' Hp Htag' _. apply list_elem_of_singleton in Hp. subst p.
      rewrite Htag in Htag'. injection Htag' as <-.
      left. apply elem_of_union_r, elem_of_singleton. reflexivity.
Qed.

Lemma fetched_between_trans (a b c : FetchLoop_) (ps qs : list Player) (e1 e2 : list Event) :
  fetched_between a b ps e1 -> fetched_between b c qs e2 ->
  fetched_between a c (ps ++ qs) (e1 ++ e2).
Proof.
  intros (Hev1 & Hraw1 & Hfet1 & Hn1 & Hsub1 & Hfresh1 & Hnd1 & Hall1 & Hdr1 & Hde1)
         (Hev2 & Hraw2 & Hfet2 & Hn2 & Hsub2 & Hfresh2 & Hnd2 & Hall2 & Hdr2 & Hde2).
  unfold fetched_between. rewrite drawn_app, decisions_app, Hdr1, Hdr2, Hde1, Hde2.
  rewrite Hev2, Hev1, Hraw2, Hraw1, Hfet2, Hfet1, Hn2, Hn1.
  rewrite contributions_app, success_tags_app, error_notes_app, retrieved_tags_app,
          usable_tags_app, list_to_set_app_L, !app_assoc, union_assoc_L.
  repeat split; try reflexivity.
  - now apply sublist_app.
  - intros tag Hin. apply elem_of_app in Hin as [Hin|Hin]; [now apply Hfresh1|].
    apply Hfresh2 in Hin. rewrite Hfet1 in Hin.
    rewrite ?elem_of_union in *. tauto.
  - apply NoDup_app. repeat split; try assumption.
    intros tag Hin1 Hin2. apply success_tags_retrieved, Hfresh2 in Hin2.
    apply Hin2. rewrite Hfet1. apply elem_of_union_r, elem_of_list_to_set, Hin1.
  - intros p tag Hp Htag Hne. apply elem_of_app in Hp as [Hp|Hp].
    + destruct (Hall1 p tag Hp Htag Hne) as [Hin|(e & He)].
      * left. rewrite Hfet1 in Hin.
        rewrite ?elem_of_union, ?elem_of_list_to_set, ?elem_of_app in *. tauto.
      * right. exists e. rewrite failures_app. apply elem_of_app. now left.
    + destruct (Hall2 p tag Hp Htag Hne) as [Hin|(e & He)].
      * left. rewrite Hfet2, Hfet1 in Hin.
        rewrite ?elem_of_union, ?elem_of_list_to_set, ?elem_of_app in *. tauto.
      * right. exists e. rewrite failures_app. apply elem_of_app. now right.
Qed.

Lemma fetch_loop_between (players : list Player) (acc : FetchLoop_) :
  exists evs, fetched_between acc (fold_left fetch_player_ players acc) players evs.
Proof.
  revert acc. induction players as [|p players IH]; intros acc; simpl.
  - exists []. apply fetched_between_refl.
  - destruct (fetch_player_between acc p) as (e1 & H1).
    destruct (IH (fetch_player_ acc p)) as (e2 & H2).
    exists (e1 ++ e2). exact (fetched_between_trans _ _ _ [p] players _ _ H1 H2).
Qed.

(** The fetch node: its events and what it writes. *)
Lemma fetch_node_spec (w : World) (state : MetaState) :
  let r := fetch_node_ w state in
  let upd := r.1.1 in
  let evs := r.2 in
  fetched_player_tags upd =
    Some (get_fetched_player_tags state ∪ list_to_set (success_tags evs)) /\
  meta_raw_battles upd = Some (get_meta_raw_battles state ++ contributions evs) /\
  normalized_battles upd = meta_raw_battles upd /\
  (exists summary, notes upd = Some (get_notes state ++ error_notes evs ++ [summary])) /\
  retrieved_tags evs `sublist_of` usable_tags (get_selected_players state) /\
  (forall tag, tag ∈ retrieved_tags evs -> tag ∉ get_fetched_player_tags state) /\
  NoDup (success_tags evs) /\
  (forall p tag, p ∈ get_selected_players state -> player_tag p = Some tag -> tag <> "" ->
      tag ∈ get_fetched_player_tags state ∪ list_to_set (success_tags evs)
      \/ exists e, (tag, e) ∈ failures evs) /\
  drawn evs = [] /\ decisions evs = [] /\
  top_players upd = None /\ selected_players upd = None /\
  used_player_indices upd = None /\ loop_count upd = None /\
  meta_analytics upd = None /\ stop_decision upd = None.
Proof.
  unfold fetch_meta_battles_node.
  destruct (get_selected_players state) as [|p players] eqn:Esel.
  - simpl. unfold contributions, success_tags, error_notes. simpl.
    rewrite !app_nil_r, union_empty_r_L.
    repeat split; try reflexivity; try apply NoDup_nil_2.
    + eexists. reflexivity.
    + intros tag Hin. inversion Hin.
    + intros q tag Hq. inversion Hq.
  - destruct (fetch_loop_between (p :: players) (fetch_loop_start w state))
      as (evs & Hev & Hraw & Hfet & Hnotes & Hsub & Hfresh & Hnd & Hall & Hdr & Hde).
    set (acc' := fold_left fetch_player_ (p :: players) (fetch_loop_start w state)) in *.
    change (fl_events (fetch_loop_start w state)) with (@nil Event) in Hev.
    change (fl_meta_raw (fetch_loop_start w state)) with (get_meta_raw_battles state) in Hraw.
    change (fl_fetched_tags (fetch_loop_start w state))
      with (get_fetched_player_tags state) in Hfet, Hfresh.
    change (fl_notes (fetch_loop_start w state)) with (get_notes state) in Hnotes.
    rewrite app_nil_l in Hev.
    cbv zeta.
    cbn [fst snd fetched_player_tags meta_raw_battles normalized_battles notes top_players
         selected_players used_player_indices loop_count meta_analytics stop_decision].
    rewrite Hev, Hraw, Hfet, Hnotes.
    repeat split; try reflexivity; try assumption.
    + eexists. rewrite <- app_assoc. reflexivity.
    + intros q tag Hq Htag Hne. rewrite <- Hfet. now apply (Hall q).
Qed.

(** ** Nodes of the cycle *)

Lemma cycle_effect_refl (c : Config_) : cycle_effect c c [].
Proof.
  unfold cycle_effect. simpl_trace.
  repeat split; try reflexivity; try apply NoDup_nil_2; intros x Hx; inversion Hx.
Qed.

Lemma exec_loop_node_effect (n : LoopNode) (c : Config_) :
  exists evs, cycle_effect c (exec_ (loop_node n) c) evs.
Proof.
  destruct n; unfold cycle_effect, exec; cbn [loop_node].
  - (* sample_more_5 *)
    destruct (sample_more_5_sound (cfg_rng c) (cfg_state c))
      as (Hnd & Hel & _ & _ & Hused & Htop & Hraw & Hfet & _).
    exists [Sampled (sampling_indices (sample_more_5_node (cfg_rng c) (cfg_state c)))].
    cbn [cfg_trace cfg_state]. simpl_trace.
    rewrite get_top_players_update, get_meta_raw_update, get_fetched_update.
    rewrite Htop, Hraw, Hfet. cbn [default].
    repeat split; try reflexivity; try assumption; try apply NoDup_nil_2.
    intros tag Hin. inversion Hin.
  - (* fetch_meta_battles *)
    pose proof (fetch_node_spec (cfg_world c) (cfg_state c)) as Hspec.
    destruct (fetch_node_ (cfg_world c) (cfg_state c)) as [[upd w'] evs].
    cbn [fst snd] in Hspec.
    destruct Hspec as (Hfet & Hraw & _ & _ & _ & Hfresh & Hnd & _ & Hdr & _ &
                       Htop & _ & Hused & _).
    exists evs. cbn [cfg_trace cfg_state].
    rewrite get_top_players_update, get_meta_raw_update, get_fetched_update, get_used_update.
    rewrite Htop, Hraw, Hfet, Hused, Hdr. cbn [default concat list_to_set].
    rewrite union_empty_r_L.
    repeat split; try reflexivity; try assumption; try apply NoDup_nil_2.
    intros i Hi. inversion Hi.
  - (* compute_meta_analytics *)
    exists []. cbn [cfg_trace cfg_state]. simpl_trace.
    repeat split; try reflexivity; try apply NoDup_nil_2; intros x Hx; inversion Hx.
  - (* check_enough_battles *)
    destruct (check_enough_writes (cfg_state c))
      as (Htop & _ & Hused & Hfet & Hraw & _).
    exists [Decided (get_stop_decision (check_enough_battles_node (cfg_state c)))].
    cbn [cfg_trace cfg_state]. simpl_trace.
    rewrite get_top_players_update, get_meta_raw_update, get_fetched_update, get_used_update.
    rewrite Htop, Hraw, Hfet, Hused. cbn [default].
    repeat split; try reflexivity; try apply NoDup_nil_2; intros x Hx; inversion Hx.
Qed.

Lemma cycle_effect_trans (a b c : Config_) (e1 e2 : list Event) :
  cycle_effect a b e1 -> cycle_effect b c e2 -> cycle_effect a c (e1 ++ e2).
Proof.
  intros (Htr1 & Htop1 & Hnd1 & Hun1 & Hused1 & Hraw1 & Hfet1 & Hs1 & Hfresh1)
         (Htr2 & Htop2 & Hnd2 & Hun2 & Hused2 & Hraw2 & Hfet2 & Hs2 & Hfresh2).
  unfold cycle_effect.
  rewrite Htr2, Htr1, Htop2, Htop1, Hused2, Hused1, Hraw2, Hraw1, Hfet2, Hfet1.
  rewrite drawn_app, concat_app, contributions_app, success_tags_app, retrieved_tags_app,
          !list_to_set_app_L, !app_assoc, !union_assoc_L.
  assert (Hun2' : forall i, i ∈ concat (drawn e2) ->
             i ∈ unused_indices (cfg_state a) /\ i ∉ concat (drawn e1)).
  { intros i Hi. apply Hun2 in Hi. apply unused_indices_elem in Hi as [Hlt Hni].
    rewrite Htop1 in Hlt. rewrite Hused1 in Hni.
    rewrite unused_indices_elem, not_elem_of_union, not_elem_of_list_to_set in *. tauto. }
  repeat split; try reflexivity.
  - apply NoDup_app. repeat split; try assumption.
    intros i Hi1 Hi2. now apply Hun2' in Hi2.
  - intros i Hi. apply elem_of_app in Hi as [Hi|Hi]; [now apply Hun1|now apply Hun2'].
  - apply NoDup_app. repeat split; try assumption.
    intros tag Hin1 Hin2. apply success_tags_retrieved, Hfresh2 in Hin2.
    apply Hin2. rewrite Hfet1. apply elem_of_union_r, elem_of_list_to_set, Hin1.
  - intros tag Hin. apply elem_of_app in Hin as [Hin|Hin]; [now apply Hfresh1|].
    apply Hfresh2 in Hin. rewrite Hfet1, not_elem_of_union in Hin. tauto.
Qed.

Lemma exec_all_effect (script : list LoopNode) (c : Config_) :
  exists evs, cycle_effect c (exec_all_ script c) evs.
Proof.
  unfold exec_all. revert c. induction script as [|n script IH]; intros c; simpl.
  - exists []. apply cycle_effect_refl.
  - destruct (exec_loop_node_effect n c) as (e1 & H1).
    destruct (IH (exec_ (loop_node n) c)) as (e2 & H2).
    exists (e1 ++ e2). exact (cycle_effect_trans _ _ _ _ _ H1 H2).
Qed.

Lemma exec_loop_node_calls (n : LoopNode) (c : Config_) (evs : list Event) :
  cfg_trace (exec_ (loop_node n) c) = cfg_trace c ++ evs ->
  length (drawn evs) = if decide (n = in_sample_more_5) then 1%nat else 0%nat.
Proof.
  destruct n; unfold exec; cbn [loop_node cfg_trace]; intros H.
  - apply app_inv_head in H. now subst evs.
  - pose proof (fetch_node_spec (cfg_world c) (cfg_state c)) as Hspec.
    destruct (fetch_node_ (cfg_world c) (cfg_state c)) as [[upd w'] evs'].
    cbn [fst snd cfg_trace] in *.
    apply app_inv_head in H. subst evs.
    destruct Hspec as (_ & _ & _ & _ & _ & _ & _ & _ & Hdr & _). now rewrite Hdr.
  - rewrite <- (app_nil_r (cfg_trace c)) in H at 1.
    apply app_inv_head in H. now subst evs.
  - apply app_inv_head in H. now subst evs.
Qed.

Lemma exec_all_calls (script : list LoopNode) (c : Config_) (evs : list Event) :
  cfg_trace (exec_all_ script c) = cfg_trace c ++ evs ->
  length (drawn evs) = length (filter (fun n => n = in_sample_more_5) script).
Proof.
  unfold exec_all. revert c evs. induction script as [|n script IH]; intros c evs; simpl.
  - intros H. rewrite <- (app_nil_r (cfg_trace c)) in H at 1.
    apply app_inv_head in H. now subst evs.
  - intros H.
    destruct (exec_loop_node_effect n c) as (e1 & H1 & _).
    destruct (exec_all_effect script (exec_ (loop_node n) c)) as (e2 & H2 & _).
    unfold exec_all in H2. rewrite H2, H1, <- app_assoc in H.
    apply app_inv_head in H. subst evs.
    rewrite drawn_app, length_app, (IH _ _ H2), (exec_loop_node_calls _ _ _ H1).
    rewrite filter_cons. destruct (decide (n = in_sample_more_5)); reflexivity.
Qed.

Lemma NoDup_concat_pairwise (calls : list (list nat)) :
  NoDup (concat calls) -> pairwise_disjoint calls.
Proof.
  unfold pairwise_disjoint.
  induction calls as [|l calls IH]; intros Hnd i j xs ys Hij Hi Hj x Hx Hy.
  - inversion Hi.
  - simpl in Hnd. apply NoDup_app in Hnd as (Hl & Hdisj & Hrest).
    assert (Hmem : forall k zs, calls !! k = Some zs -> x ∈ zs -> x ∈ concat calls).
    { intros k zs Hk Hz. apply elem_of_concat. exists zs. split; [assumption|].
      eapply list_elem_of_lookup_2; eassumption. }
    destruct i as [|i], j as [|j]; simpl in Hi, Hj.
    + contradiction.
    + injection Hi as <-. eapply Hdisj; [exact Hx|]. eapply Hmem; eassumption.
    + injection Hj as <-. eapply Hdisj; [exact Hy|]. eapply Hmem; eassumption.
    + eapply (IH Hrest i j xs ys); try eassumption. congruence.
Qed.

(** C3. Run [sample_initial_50] and then any sequence of nodes of the
    cycle, with any number of [sample_more_5] calls among them.  The index
    lists the sampling calls return are pairwise disjoint (and taken
    together hold no index twice), every returned index is below
    [len(top_players)], and the used-index set afterwards is the set
    before united with exactly the indices returned. *)
Theorem sampling_never_repeats (script : list LoopNode) (c : Config_) :
  let c' := exec_all_ script (exec_ sample_initial_50 c) in
  exists evs,
    cfg_trace c' = cfg_trace c ++ evs /\
    length (drawn evs) = S (length (filter (fun n => n = in_sample_more_5) script)) /\
    pairwise_disjoint (drawn evs) /\
    NoDup (concat (drawn evs)) /\
    (forall i, i ∈ concat (drawn evs) ->
       (i < length (get_top_players (cfg_state c)))%nat) /\
    get_used_player_indices (cfg_state c') =
      get_used_player_indices (cfg_state c) ∪ list_to_set (concat (drawn evs)).
Proof.
  intros c'.
  set (c1 := exec_ sample_initial_50 c) in *.
  destruct (sample_initial_50_sound (cfg_rng c) (cfg_state c))
    as (Hnd0 & Hlt0 & _ & _ & Hused0 & Htop0 & _).
  set (idx := sampling_indices (sample_initial_50_node (cfg_rng c) (cfg_state c))) in *.
  assert (Htr1 : cfg_trace c1 = cfg_trace c ++ [Sampled idx]) by reflexivity.
  assert (Htop1 : get_top_players (cfg_state c1) = get_top_players (cfg_state c)).
  { unfold c1, exec. cbn [cfg_state]. now rewrite get_top_players_update, Htop0. }
  assert (Hused1 : get_used_player_indices (cfg_state c1)
                   = get_used_player_indices (cfg_state c) ∪ list_to_set idx)
    by exact Hused0.
  destruct (exec_all_effect script c1)
    as (evs & Htr & Htop & Hnd & Hun & Hused & _).
  fold c' in Htr, Htop, Hused.
  exists ([Sampled idx] ++ evs).
  assert (Hdrawn : drawn ([Sampled idx] ++ evs) = idx :: drawn evs) by reflexivity.
  assert (Hfresh : forall i, i ∈ concat (drawn evs) ->
            (i < length (get_top_players (cfg_state c)))%nat /\ i ∉ idx).
  { intros i Hi. apply Hun, unused_indices_elem in Hi as [Hlt Hni].
    rewrite Htop1 in Hlt. rewrite Hused1, not_elem_of_union, not_elem_of_list_to_set in Hni.
    tauto. }
  assert (Hall : NoDup (concat (drawn ([Sampled idx] ++ evs)))).
  { rewrite Hdrawn. simpl. apply NoDup_app. repeat split; try assumption.
    intros i Hi Hi'. now apply Hfresh in Hi'. }
  repeat split.
  - rewrite Htr, Htr1. now rewrite app_assoc.
  - rewrite Hdrawn. simpl. f_equal. exact (exec_all_calls script c1 evs Htr).
  - now apply NoDup_concat_pairwise.
  - exact Hall.
  - rewrite Hdrawn. simpl. intros i Hi. apply elem_of_app in Hi as [Hi|Hi].
    + now apply Hlt0.
    + now apply Hfresh.
  - rewrite Hused, Hused1, Hdrawn. simpl.
    now rewrite list_to_set_app_L, union_assoc_L.
Qed.

Lemma concat_elem_split {A} (l : list A) (ls : list (list A)) :
  l ∈ ls -> exists before after, concat ls = before ++ l ++ after.
Proof.
  intros Hin. apply list_elem_of_split in Hin as (l1 & l2 & ->).
  exists (concat l1), (concat l2). now rewrite concat_app.
Qed.

(** C5. In [fetch_meta_battles_node] a retrieval that fails is caught.
    The pass of the loop for that player appends the error note naming
    the tag and changes neither the fetched tags nor the cohort.  The
    node returns its result all the same: the notes it returns hold the
    error note; the fetched tags grow by the tags retrieved successfully
    and by nothing else, so a tag whose retrievals all failed is not
    among them; the records of every retrieval that succeeds are appended
    to the cohort; and every selected player with a usable tag ends up
    either fetched or with a failure on record, so the loop went on past
    each failure. *)
Theorem fetch_failure_is_skipped (w : World) (state : MetaState) :
  let r := fetch_node_ w state in
  let upd := r.1.1 in
  let evs := r.2 in
  (forall (acc : FetchLoop_) player tag e,
     player_tag player = Some tag -> tag <> "" -> tag ∉ fl_fetched_tags acc ->
     (retrieve_ (fl_world acc) tag).1 = inl e ->
     fl_notes (fetch_player_ acc player) = fl_notes acc ++ [error_note tag e] /\
     fl_fetched_tags (fetch_player_ acc player) = fl_fetched_tags acc /\
     fl_meta_raw (fetch_player_ acc player) = fl_meta_raw acc) /\
  (forall tag e, (tag, e) ∈ failures evs -> error_note tag e ∈ default [] (notes upd)) /\
  fetched_player_tags upd =
    Some (get_fetched_player_tags state ∪ list_to_set (success_tags evs)) /\
  (forall tag e, (tag, e) ∈ failures evs -> tag ∉ success_tags evs ->
     tag ∉ default ∅ (fetched_player_tags upd)) /\
  meta_raw_battles upd = Some (get_meta_raw_battles state ++ contributions evs) /\
  (forall tag normalized, (tag, normalized) ∈ successes evs ->
     exists before after,
       meta_raw_battles upd = Some (before ++ contribution normalized ++ after)) /\
  (forall p tag, p ∈ get_selected_players state -> player_tag p = Some tag -> tag <> "" ->
     tag ∈ default ∅ (fetched_player_tags upd) \/ exists e, (tag, e) ∈ failures evs) /\
  retrieved_tags evs `sublist_of` usable_tags (get_selected_players state).
Proof.
  intros r upd evs.
  destruct (fetch_node_spec w state)
    as (Hfet & Hraw & _ & (summary & Hnotes) & Hsub & Hfresh & _ & Hall & _).
  fold r in Hfet, Hraw, Hnotes, Hsub, Hfresh, Hall.
  fold upd in Hfet, Hraw, Hnotes. fold evs in Hfet, Hraw, Hnotes, Hsub, Hfresh, Hall.
  rewrite Hfet, Hraw, Hnotes. cbn [from_option id].
  split.
  { intros acc player tag e Htag Hne Hnin Hfail.
    destruct (fetch_player_cases acc player)
      as [[[H|[H|(t & H & Hin)]] _]|(t & Ht & _ & _ &
            [(e' & He' & _ & Hr & Hf & Hn)|(n & Hn & _)])];
      rewrite Htag in *; try discriminate.
    - injection H as ->. contradiction.
    - injection H as ->. contradiction.
    - injection Ht as <-. rewrite Hfail in He'. injection He' as <-. auto.
    - injection Ht as <-. rewrite Hfail in Hn. discriminate. }
  repeat split; try assumption.
  - intros tag e Hin. rewrite !elem_of_app. right. left.
    unfold error_notes. apply list_elem_of_fmap. now exists (tag, e).
  - intros tag e Hin Hns. rewrite not_elem_of_union, not_elem_of_list_to_set.
    split; [|assumption]. eapply Hfresh, failures_retrieved, Hin.
  - intros tag normalized Hin.
    destruct (concat_elem_split (contribution normalized)
                (map (fun tn => contribution tn.2) (successes evs)))
      as (before & after & Hsplit).
    { apply list_elem_of_fmap. now exists (tag, normalized). }
    exists (get_meta_raw_battles state ++ before), after.
    unfold contributions. now rewrite Hsplit, <- app_assoc.
Qed.

Lemma filter_key_NoDup {A} (l : list (string * A)) (k : string) :
  NoDup (map fst l) -> (length (filter (fun kv => kv.1 = k) l) <= 1)%nat.
Proof.
  induction l as [|[k0 v0] l IH]; intros Hnd; simpl; [lia|].
  apply NoDup_cons in Hnd as [Hnotin Hnd]. rewrite filter_cons. simpl.
  destruct (decide (k0 = k)) as [->|Hne]; [|auto].
  assert (Hnil : filter (fun kv : string * A => kv.1 = k) l = []).
  { destruct (filter (fun kv : string * A => kv.1 = k) l) as [|[k1 v1] rest] eqn:E;
      [reflexivity|].
    exfalso. apply Hnotin.
    assert (Hin : (k1, v1) ∈ filter (fun kv : string * A => kv.1 = k) l)
      by (rewrite E; left).
    apply list_elem_of_filter in Hin as [Hk Hin]. simpl in Hk. subst k1.
    apply list_elem_of_fmap. now exists (k, v1). }
  rewrite Hnil. simpl. lia.
Qed.

Lemma contributed_by_capped (tag : string) (evs : list Event) :
  NoDup (success_tags evs) -> (length (contributed_by tag evs) <= 10)%nat.
Proof.
  intros Hnd. unfold contributed_by.
  pose proof (filter_key_NoDup (successes evs) tag Hnd) as Hlen.
  destruct (filter (fun tn => tn.1 = tag) (successes evs)) as [|[t n] [|x rest]];
    simpl in *; try lia.
  rewrite app_nil_r. destruct (contribution_take n) as [_ ->]. lia.
Qed.

Lemma contributed_by_fresh (tag : string) (evs : list Event) :
  tag ∉ success_tags evs -> contributed_by tag evs = [].
Proof.
  intros Hnin. unfold contributed_by.
  destruct (filter (fun tn => tn.1 = tag) (successes evs)) as [|[t n] rest] eqn:E;
    [reflexivity|].
  exfalso. apply Hnin.
  assert (Hin : (t, n) ∈ filter (fun tn => tn.1 = tag) (successes evs))
    by (rewrite E; left).
  apply list_elem_of_filter in Hin as [Hk Hin]. simpl in Hk. subst t.
  apply list_elem_of_fmap. now exists (tag, n).
Qed.

(** C7. The pass of the fetch loop for a player whose retrieval succeeds
    appends the first [min(len(normalized), 10)] records of the normalised
    history and marks the tag as fetched.  Over any sequence of nodes of
    the cycle, the cohort grows by the
    contributions of the successful retrievals and by nothing else; the
    contribution of a retrieval is the first [min(len(normalized), 10)]
    records of the normalised history, that is its first 10 records; and
    no tag contributes more than 10 records: a tag fetched before
    contributes none, and a tag is retrieved successfully at most once. *)
Theorem contribution_is_capped (script : list LoopNode) (c : Config_) :
  let c' := exec_all_ script c in
  (forall (acc : FetchLoop_) player tag normalized,
     player_tag player = Some tag -> tag <> "" -> tag ∉ fl_fetched_tags acc ->
     (retrieve_ (fl_world acc) tag).1 = inr normalized ->
     fl_meta_raw (fetch_player_ acc player) =
       fl_meta_raw acc ++ take (Nat.min (length normalized) 10) normalized /\
     fl_fetched_tags (fetch_player_ acc player) = fl_fetched_tags acc ∪ {[tag]}) /\
  exists evs,
    cfg_trace c' = cfg_trace c ++ evs /\
    get_meta_raw_battles (cfg_state c') =
      get_meta_raw_battles (cfg_state c) ++ contributions evs /\
    (forall normalized,
       contribution normalized = take 10 normalized /\
       length (contribution normalized) = Nat.min (length normalized) 10) /\
    NoDup (success_tags evs) /\
    (forall tag, (length (contributed_by tag evs) <= 10)%nat) /\
    (forall tag, tag ∈ get_fetched_player_tags (cfg_state c) -> contributed_by tag evs = []).
Proof.
  intros c'. split.
  { intros acc player tag normalized Htag Hne Hnin Hok.
    destruct (fetch_player_cases acc player)
      as [[[H|[H|(t & H & Hin)]] _]|(t & Ht & _ & _ &
            [(e & He & _)|(n & Hn & _ & Hr & Hf & _)])];
      rewrite Htag in *; try discriminate.
    - injection H as ->. contradiction.
    - injection H as ->. contradiction.
    - injection Ht as <-. rewrite Hok in He. discriminate.
    - injection Ht as <-. rewrite Hok in Hn. injection Hn as <-. auto. }
  destruct (exec_all_effect script c)
    as (evs & Htr & _ & _ & _ & _ & Hraw & _ & Hnd & Hfresh).
  exists evs. repeat split; try assumption.
  - apply contribution_take.
  - apply contribution_take.
  - intros tag. now apply contributed_by_capped.
  - intros tag Hin. apply contributed_by_fresh.
    intros Hs. apply success_tags_retrieved, Hfresh in Hs. contradiction.
Qed.

(** C9. Over any sequence of nodes of the cycle, and so from one loop
    iteration to the next, the cohort before is a prefix of the cohort
    after: records are only appended, and the length never decreases. *)
Theorem cohort_only_grows (script : list LoopNode) (c : Config_) :
  let before := get_meta_raw_battles (cfg_state c) in
  let after := get_meta_raw_battles (cfg_state (exec_all_ script c)) in
  let next_iteration := get_meta_raw_battles (cfg_state (exec_all_ iteration c)) in
  before `prefix_of` after /\
  (length before <= length after)%nat /\
  (length before <= length next_iteration)%nat.
Proof.
  intros before after next_iteration.
  assert (Hgrow : forall s, get_meta_raw_battles (cfg_state c)
                    `prefix_of` get_meta_raw_battles (cfg_state (exec_all_ s c))).
  { intros s. destruct (exec_all_effect s c) as (evs & _ & _ & _ & _ & _ & Hraw & _).
    rewrite Hraw. now apply prefix_app_r. }
  repeat split.
  - apply Hgrow.
  - apply prefix_length, Hgrow.
  - apply prefix_length, Hgrow.
Qed.

(** ** Termination of the graph *)

Lemma run_S (steps : nat) (n : Node) (c : Config_) :
  run_ (S steps) n c =
  match next n (exec_ n c) with
  | None => Some (exec_ n c)
  | Some n' => run_ steps n' (exec_ n c)
  end.
Proof. reflexivity. Qed.

Lemma check_keeps_sampling_state (s : MetaState) :
  let s' := apply_update s (check_enough_battles_node s) in
  get_top_players s' = get_top_players s /\
  get_used_player_indices s' = get_used_player_indices s /\
  get_loop_count s' = get_loop_count s /\
  unused_indices s' = unused_indices s /\
  get_stop_decision s' = get_stop_decision (check_enough_battles_node s).
Proof.
  intros s'. destruct (check_enough_writes s) as (Htop & _ & Hused & _ & _ & _ & _ & Hloop).
  assert (H1 : get_top_players s' = get_top_players s)
    by (unfold s'; now rewrite get_top_players_update, Htop).
  assert (H2 : get_used_player_indices s' = get_used_player_indices s)
    by (unfold s'; now rewrite get_used_update, Hused).
  repeat split; try assumption.
  - unfold s'. now rewrite get_loop_count_update, Hloop.
  - unfold unused_indices. now rewrite H1, H2.
  - unfold s'. rewrite get_stop_decision_update. unfold get_stop_decision.
    destruct (check_enough_cases s) as [(_ & -> & _)|[(_ & _ & -> & _)|(_ & _ & _ & -> & _)]];
      reflexivity.
Qed.

(** A "need_more" decision is followed by a sampling call that draws
    at least one index and adds one to [loop_count]. *)
Lemma need_more_increments (g : Rng) (s : MetaState) :
  stop_decision (check_enough_battles_node s) = Some "need_more" ->
  let s' := apply_update s (check_enough_battles_node s) in
  loop_count (sampling_update (sample_more_5_node g s')) = Some (get_loop_count s + 1) /\
  sampling_indices (sample_more_5_node g s') <> [].
Proof.
  intros Hd s'.
  destruct (check_keeps_sampling_state s) as (_ & _ & Hloop & Hunused & _).
  fold s' in Hloop, Hunused.
  assert (Hrem : 0 < remaining s).
  { destruct (check_enough_cases s)
      as [(_ & Hd' & _)|[(_ & _ & Hd' & _)|(_ & Hrem & _)]];
      [rewrite Hd' in Hd; discriminate|rewrite Hd' in Hd; discriminate|exact Hrem]. }
  apply remaining_unused in Hrem.
  destruct (sample_more_5_sound g s') as (_ & _ & Hlen & _ & _ & _ & _ & _ & Hl & _).
  rewrite Hunused in Hl, Hlen. rewrite Hloop in Hl.
  destruct (unused_indices s) as [|u unused]; [contradiction|].
  split; [exact Hl|].
  intros Hnil. rewrite Hnil in Hlen. simpl in Hlen. lia.
Qed.

Lemma exec_fetch_control (c : Config_) :
  let c' := exec_ fetch_meta_battles c in
  get_loop_count (cfg_state c') = get_loop_count (cfg_state c) /\
  decisions (cfg_trace c') = decisions (cfg_trace c).
Proof.
  unfold exec.
  pose proof (fetch_node_spec (cfg_world c) (cfg_state c)) as Hspec.
  destruct (fetch_node_ (cfg_world c) (cfg_state c)) as [[upd w'] evs].
  cbn [fst snd] in Hspec.
  destruct Hspec as (_ & _ & _ & _ & _ & _ & _ & _ & _ & Hde & _ & _ & _ & Hloop & _).
  cbn [cfg_state cfg_trace].
  rewrite get_loop_count_update, Hloop, decisions_app, Hde, app_nil_r. auto.
Qed.

Lemma exec_compute_control (c : Config_) :
  let c' := exec_ compute_meta_analytics_n c in
  get_loop_count (cfg_state c') = get_loop_count (cfg_state c) /\
  decisions (cfg_trace c') = decisions (cfg_trace c).
Proof. split; reflexivity. Qed.

Lemma exec_check_control (c : Config_) :
  let c' := exec_ check_enough_battles c in
  cfg_state c' = apply_update (cfg_state c) (check_enough_battles_node (cfg_state c)) /\
  decisions (cfg_trace c') =
    decisions (cfg_trace c) ++ [get_stop_decision (check_enough_battles_node (cfg_state c))].
Proof. split; [reflexivity|]. unfold exec. cbn [cfg_trace]. now rewrite decisions_app. Qed.

Lemma next_after_check (c : Config_) (d : string) :
  stop_decision (check_enough_battles_node (cfg_state c)) = Some d ->
  next check_enough_battles (exec_ check_enough_battles c) =
    if String.eqb d "need_more" then Some sample_more_5 else None.
Proof.
  intros Hd. cbn [next].
  destruct (exec_check_control c) as [Hst _].
  destruct (check_keeps_sampling_state (cfg_state c)) as (_ & _ & _ & _ & Hdec).
  unfold route_after_check_enough. rewrite Hst, Hdec.
  unfold get_stop_decision. rewrite Hd. cbn [from_option id].
  destruct (check_enough_cases (cfg_state c))
    as [(_ & Hd' & _)|[(_ & _ & Hd' & _)|(_ & _ & _ & Hd' & _)]];
    rewrite Hd' in Hd; injection Hd as <-; reflexivity.
Qed.

Lemma final_after_check (c : Config_) (d : string) :
  stop_decision (check_enough_battles_node (cfg_state c)) = Some d ->
  stop_decision (cfg_state (exec_ check_enough_battles c)) = Some d /\
  length (decisions (cfg_trace (exec_ check_enough_battles c)))
    = S (length (decisions (cfg_trace c))).
Proof.
  intros Hd. destruct (exec_check_control c) as [Hst Hde]. split.
  - rewrite Hst. unfold apply_update. cbn [stop_decision]. now rewrite Hd.
  - rewrite Hde, length_app. simpl. lia.
Qed.

(** From a configuration about to be evaluated with at most [k] rounds
    of the loop budget left, the graph reaches [END] within [1 + 4k]
    super-steps and [k + 1] evaluations. *)
Lemma loop_terminates (k : nat) (c : Config_) :
  20 - Z.of_nat k <= get_loop_count (cfg_state c) ->
  exists final,
    run_ (1 + 4 * k) check_enough_battles c = Some final /\
    (length (decisions (cfg_trace final))
       <= length (decisions (cfg_trace c)) + k + 1)%nat /\
    (length (decisions (cfg_trace c)) < length (decisions (cfg_trace final)))%nat /\
    (stop_decision (cfg_state final) = Some "enough" \/
     stop_decision (cfg_state final) = Some "stop").
Proof.
  revert c. induction k as [|k IH]; intros c Hk;
    set (c1 := exec_ check_enough_battles c);
    destruct (check_enough_cases (cfg_state c))
      as [(_ & Hd & _)|[(_ & _ & Hd & _)|(_ & _ & Hlt & Hd & _)]];
    pose proof (next_after_check c _ Hd) as Hnext;
    destruct (final_after_check c _ Hd) as [Hfin Hlen];
    fold c1 in Hnext, Hfin, Hlen; simpl (String.eqb _ _) in Hnext.
  1, 2, 4, 5:
    exists c1; split;
      [match goal with |- run_ ?n _ _ = _ => destruct n eqn:E; [lia|] end;
       rewrite run_S; fold c1; now rewrite Hnext
      |split; [lia|split; [lia|auto]]].
  - simpl in Hk. lia.
  - (* need_more: one round of the cycle, then the induction hypothesis *)
    set (c2 := exec_ sample_more_5 c1).
    set (c3 := exec_ fetch_meta_battles c2).
    set (c4 := exec_ compute_meta_analytics_n c3).
    destruct (need_more_increments (cfg_rng c1) (cfg_state c) Hd) as [Hinc _].
    destruct (exec_check_control c) as [Hst _]. fold c1 in Hst.
    assert (Hl2 : get_loop_count (cfg_state c2) = get_loop_count (cfg_state c) + 1).
    { unfold c2, exec. cbn [cfg_state]. rewrite get_loop_count_update, Hst, Hinc.
      reflexivity. }
    assert (Hd2 : decisions (cfg_trace c2) = decisions (cfg_trace c1)).
    { unfold c2, exec. cbn [cfg_trace]. rewrite decisions_app.
      change (decisions [Sampled ?i]) with (@nil string). now rewrite app_nil_r. }
    destruct (exec_fetch_control c2) as [Hl3 Hd3]. fold c3 in Hl3, Hd3.
    destruct (exec_compute_control c3) as [Hl4 Hd4]. fold c4 in Hl4, Hd4.
    destruct (IH c4) as (final & Hrun & Hle & Hlt' & Hend).
    { rewrite Hl4, Hl3, Hl2. lia. }
    exists final. rewrite Hd4, Hd3, Hd2 in Hle, Hlt'.
    split; [|split; [lia|split; [lia|assumption]]].
    replace (1 + 4 * S k)%nat with (S (S (S (S (1 + 4 * k))))) by lia.
    rewrite run_S. fold c1. rewrite Hnext.
    rewrite run_S. cbn [next]. fold c2.
    rewrite run_S. cbn [next]. fold c3.
    rewrite run_S. cbn [next]. fold c4.
    exact Hrun.
Qed.

Lemma invoke_terminates (s0 : MetaState) (w : World) (g : Rng) :
  exists final,
    invoke_ 85 s0 w g = Some final /\
    (0 < length (decisions (cfg_trace final)) <= 21)%nat /\
    (stop_decision (cfg_state final) = Some "enough" \/
     stop_decision (cfg_state final) = Some "stop").
Proof.
  set (c0 := {| cfg_state := s0; cfg_world := w; cfg_rng := g; cfg_trace := [] |}).
  set (c1 := exec_ fetch_top_players_n c0).
  set (c2 := exec_ sample_initial_50 c1).
  set (c3 := exec_ fetch_meta_battles c2).
  set (c4 := exec_ compute_meta_analytics_n c3).
  assert (H1 : get_loop_count (cfg_state c1) = 0 /\ decisions (cfg_trace c1) = []).
  { unfold c1, exec, fetch_top_players_node. cbn [cfg_state cfg_world c0].
    destruct (fetch_top_players w 300) as [top w']. split; reflexivity. }
  assert (H2 : get_loop_count (cfg_state c2) = 0 /\ decisions (cfg_trace c2) = []).
  { destruct H1 as [Hl Hd]. unfold c2, exec. cbn [cfg_state cfg_trace].
    destruct (sample_initial_50_sound (cfg_rng c1) (cfg_state c1))
      as (_ & _ & _ & _ & _ & _ & _ & _ & Hloop).
    rewrite get_loop_count_update, Hloop, decisions_app, Hd. split; [exact Hl|reflexivity]. }
  destruct (exec_fetch_control c2) as [Hl3 Hd3]. fold c3 in Hl3, Hd3.
  destruct (exec_compute_control c3) as [Hl4 Hd4]. fold c4 in Hl4, Hd4.
  destruct H2 as [Hl2 Hd2].
  destruct (loop_terminates 20 c4) as (final & Hrun & Hle & Hlt & Hfin).
  { rewrite Hl4, Hl3, Hl2. simpl. lia. }
  exists final. rewrite Hd4, Hd3, Hd2 in Hle, Hlt. simpl in Hle, Hlt.
  split; [|split; [lia|assumption]].
  unfold invoke. fold c0.
  replace 85%nat with (S (S (S (S (1 + 4 * 20))))) by reflexivity.
  rewrite run_S. cbn [next]. fold c1.
  rewrite run_S. cbn [next]. fold c2.
  rewrite run_S. cbn [next]. fold c3.
  rewrite run_S. cbn [next]. fold c4.
  exact Hrun.
Qed.

(** More super-steps than a run needs change nothing. *)
Lemma run_mono (a b : nat) (n : Node) (c final : Config_) :
  (a <= b)%nat -> run_ a n c = Some final -> run_ b n c = Some final.
Proof.
  revert b n c. induction a as [|a IH]; intros b n c Hab Hrun; [discriminate|].
  destruct b as [|b]; [lia|]. rewrite run_S in *.
  destruct (next n (exec_ n c)); [|exact Hrun]. apply IH; [lia|exact Hrun].
Qed.

(** C4, as the code has it.  From any initial state, for every
    population, every analytics table and every random source, the graph
    reaches [END] when it is let run (85 super-steps of the model are
    always enough), and every run that reaches [END], whatever number of
    super-steps it was allowed, has evaluated the stopping condition
    between 1 and 21 times and ends with a decision of "enough" or "stop".
    A "need_more" decision is followed by a sampling call that adds
    exactly one to [loop_count].  Once [loop_count >= 20] or no unused
    index is left, the evaluation ends the run: it returns "stop" when the
    thresholds are not met and "enough" when they are, never "need_more". *)
Theorem run_is_bounded :
  (forall (s0 : MetaState) (w : World) (g : Rng),
     exists final,
       invoke_ 85 s0 w g = Some final /\
       (0 < length (decisions (cfg_trace final)) <= 21)%nat /\
       (stop_decision (cfg_state final) = Some "enough" \/
        stop_decision (cfg_state final) = Some "stop")) /\
  (forall (steps : nat) (s0 : MetaState) (w : World) (g : Rng) (final : Config_),
     invoke_ steps s0 w g = Some final ->
     (0 < length (decisions (cfg_trace final)) <= 21)%nat /\
     (stop_decision (cfg_state final) = Some "enough" \/
      stop_decision (cfg_state final) = Some "stop")) /\
  (forall (g : Rng) (s : MetaState),
     stop_decision (check_enough_battles_node s) = Some "need_more" ->
     loop_count (sampling_update
                   (sample_more_5_node g (apply_update s (check_enough_battles_node s))))
     = Some (get_loop_count s + 1)) /\
  (forall s : MetaState,
     MAX_LOOPS <= get_loop_count s \/ unused_indices s = [] ->
     (thresholds_met s /\ stop_decision (check_enough_battles_node s) = Some "enough") \/
     (~ thresholds_met s /\ stop_decision (check_enough_battles_node s) = Some "stop")).
Proof.
  split; [exact invoke_terminates|]. split; [|split].
  - intros steps s0 w g final Hrun.
    destruct (invoke_terminates s0 w g) as (final' & Hrun' & Hbound).
    assert (Hsame : final = final'); [|now subst final'].
    unfold invoke in *.
    apply (run_mono steps (Nat.max steps 85)) in Hrun; [|lia].
    apply (run_mono 85 (Nat.max steps 85)) in Hrun'; [|lia].
    rewrite Hrun in Hrun'. now injection Hrun'.
  - intros g s Hd. now apply need_more_increments.
  - intros s Hend. pose proof (thresholds_met_spec s) as Hmet.
    destruct (check_enough_cases s)
      as [(He & Hd & _)|[(He & _ & Hd & _)|(He & Hrem & Hlt & _)]].
    + left. split; [now apply Hmet|exact Hd].
    + right. split; [rewrite <- Hmet, He; discriminate|exact Hd].
    + exfalso. destruct Hend as [Hl|Hnil].
      * unfold MAX_LOOPS in Hl. lia.
      * now apply remaining_unused in Hrem.
Qed.

(** ** The invariant of a run *)

Lemma usable_tags_unique (top : list Player) (i j : nat) (p q : Player) (tag : string) :
  NoDup (usable_tags top) ->
  top !! i = Some p -> top !! j = Some q ->
  player_tag p = Some tag -> player_tag q = Some tag -> tag <> "" ->
  i = j.
Proof.
  revert i j. induction top as [|p0 top IH]; intros i j Hnd Hi Hj Hp Hq Hne.
  - inversion Hi.
  - assert (Hmem : forall k r, top !! k = Some r -> player_tag r = Some tag ->
              tag ∈ usable_tags top).
    { intros k r Hk Hr. unfold usable_tags. apply list_elem_of_filter. split; [assumption|].
      apply list_elem_of_omap. exists r. split; [|assumption].
      eapply list_elem_of_lookup_2; eassumption. }
    assert (Hhead : forall k r, player_tag p0 = Some tag -> top !! k = Some r ->
              player_tag r = Some tag -> False).
    { intros k r Hp0 Hk Hr. unfold usable_tags in Hnd. simpl in Hnd. rewrite Hp0 in Hnd.
      rewrite filter_cons_True in Hnd by assumption.
      apply NoDup_cons in Hnd as [Hnotin _]. apply Hnotin. eapply Hmem; eassumption. }
    assert (Hnd' : NoDup (usable_tags top)).
    { unfold usable_tags in *. simpl in Hnd. destruct (player_tag p0) as [t0|]; [|assumption].
      rewrite filter_cons in Hnd. destruct (decide (t0 <> "")); [|assumption].
      now apply NoDup_cons in Hnd as [_ Hnd]. }
    destruct i as [|i], j as [|j]; simpl in Hi, Hj.
    + reflexivity.
    + injection Hi as ->. exfalso. eapply Hhead; eassumption.
    + injection Hj as ->. exfalso. eapply Hhead; eassumption.
    + f_equal. eapply IH; eassumption.
Qed.

Lemma tags_at_elem (top : list Player) (indices : list nat) (tag : string) :
  tag ∈ tags_at top indices ->
  exists i p, i ∈ indices /\ top !! i = Some p /\ player_tag p = Some tag /\ tag <> "".
Proof.
  unfold tags_at, usable_tags, players_at. intros H.
  apply list_elem_of_filter in H as [Hne H].
  apply list_elem_of_omap in H as (p & Hp & Htag).
  apply list_elem_of_omap in Hp as (i & Hi & Hlook).
  now exists i, p.
Qed.

Lemma tags_at_NoDup (top : list Player) (indices : list nat) :
  NoDup (usable_tags top) -> NoDup indices -> NoDup (tags_at top indices).
Proof.
  intros Htop. induction indices as [|i indices IH]; intros Hnd.
  - apply NoDup_nil_2.
  - apply NoDup_cons in Hnd as [Hnotin Hnd].
    change (i :: indices) with ([i] ++ indices). rewrite tags_at_app.
    apply NoDup_app. split; [|split; [|now apply IH]].
    + unfold tags_at, usable_tags, players_at. simpl.
      destruct (top !! i) as [p|]; simpl; [|apply NoDup_nil_2].
      destruct (player_tag p) as [t|]; [|apply NoDup_nil_2].
      rewrite filter_cons. destruct (decide (t <> "")); [apply NoDup_singleton|apply NoDup_nil_2].
    + intros tag H1 H2.
      apply tags_at_elem in H1 as (i1 & p1 & Hi1 & Hl1 & Ht1 & Hne).
      apply tags_at_elem in H2 as (i2 & p2 & Hi2 & Hl2 & Ht2 & _).
      apply list_elem_of_singleton in Hi1. subst i1.
      assert (i = i2) by (eapply usable_tags_unique; eassumption).
      subst i2. contradiction.
Qed.

(** The node that runs after [n] when the graph goes on. *)
Lemma next_successor (n n' : Node) (c : Config_) :
  next n c = Some n' ->
  n' = match n with
       | fetch_top_players_n => sample_initial_50
       | sample_initial_50 => fetch_meta_battles
       | sample_more_5 => fetch_meta_battles
       | fetch_meta_battles => compute_meta_analytics_n
       | compute_meta_analytics_n => check_enough_battles
       | check_enough_battles => sample_more_5
       end.
Proof.
  destruct n; cbn [next]; intros H; try (now injection H).
  destruct (String.eqb _ _); [now injection H|discriminate].
Qed.

Lemma next_END (n : Node) (c : Config_) : next n c = None -> n = check_enough_battles.
Proof. destruct n; cbn [next]; intros H; try discriminate. reflexivity. Qed.

Lemma exec_keeps_invariant (top : list Player) (n : Node) (c : Config_) :
  run_invariant top n c ->
  run_invariant top
    match n with
    | fetch_top_players_n => sample_initial_50
    | sample_initial_50 => fetch_meta_battles
    | sample_more_5 => fetch_meta_battles
    | fetch_meta_battles => compute_meta_analytics_n
    | compute_meta_analytics_n => check_enough_battles
    | check_enough_battles => sample_more_5
    end
    (exec_ n c).
Proof.
  unfold run_invariant. cbv zeta.
  intros (Htop & Hnd & Hlt & Hused & Hraw & Hfet & Hsucc & Hn).
  destruct n.
  - contradiction.
  - (* sample_initial_50 *)
    destruct (sample_initial_50_sound (cfg_rng c) (cfg_state c))
      as (Hnd0 & Hlt0 & _ & Hsel0 & Hused0 & Htop0 & Hraw0 & Hfet0 & _).
    unfold exec. cbn [cfg_state cfg_trace]. rewrite Hn in *.
    set (idx := sampling_indices (sample_initial_50_node (cfg_rng c) (cfg_state c))) in *.
    change (concat (drawn ([] ++ [Sampled idx]))) with (idx ++ []).
    change (contributions ([] ++ [Sampled idx])) with (@nil Battle).
    change (success_tags ([] ++ [Sampled idx])) with (@nil string).
    change (retrieved_tags ([] ++ [Sampled idx])) with (@nil string).
    rewrite app_nil_r.
    rewrite get_top_players_update, get_meta_raw_update, get_fetched_update,
            get_selected_players_update, Htop0, Hraw0, Hfet0, Hsel0, Hused0.
    cbn [from_option id]. rewrite Hused, Htop in *.
    repeat split; try assumption.
    + simpl. now rewrite union_empty_l_L.
    + exists [], idx. repeat split. apply sublist_nil_l.
  - (* fetch_meta_battles *)
    destruct Hn as (before & batch & HD & Hsel & Hsub).
    pose proof (fetch_node_spec (cfg_world c) (cfg_state c)) as Hspec.
    unfold exec.
    destruct (fetch_node_ (cfg_world c) (cfg_state c)) as [[upd w'] evs].
    cbn [fst snd] in Hspec.
    destruct Hspec as (Hfet' & Hraw' & _ & _ & Hsub' & Hfresh & Hnd' & _ & Hdr & _ &
                       Htop' & _ & Hused' & _).
    cbn [cfg_state cfg_trace].
    rewrite get_top_players_update, get_meta_raw_update, get_fetched_update, get_used_update,
            Htop', Hraw', Hfet', Hused'.
    cbn [from_option id].
    rewrite drawn_app, Hdr, app_nil_r, contributions_app, success_tags_app,
            retrieved_tags_app, list_to_set_app_L, Hraw, Hfet.
    repeat split; try assumption; try reflexivity.
    + apply NoDup_app. repeat split; try assumption.
      intros tag H1 H2. apply success_tags_retrieved, Hfresh in H2.
      apply H2. rewrite Hfet. now apply elem_of_list_to_set.
    + rewrite HD, tags_at_app. apply sublist_app; [assumption|].
      unfold tags_at. now rewrite <- Hsel.
  - (* compute_meta_analytics *)
    unfold exec. cbn [cfg_state cfg_trace].
    repeat split; assumption.
  - (* check_enough_battles *)
    destruct (check_enough_writes (cfg_state c))
      as (Htop' & _ & Hused' & Hfet' & Hraw' & _).
    unfold exec. cbn [cfg_state cfg_trace].
    rewrite get_top_players_update, get_meta_raw_update, get_fetched_update, get_used_update,
            Htop', Hraw', Hfet', Hused'.
    cbn [from_option id].
    rewrite drawn_app, contributions_app, success_tags_app, retrieved_tags_app.
    simpl_trace.
    change (retrieved_tags [Decided ?d]) with (@nil string).
    rewrite ?app_nil_r.
    repeat split; assumption.
  - (* sample_more_5 *)
    destruct (sample_more_5_sound (cfg_rng c) (cfg_state c))
      as (Hnd0 & Hel0 & _ & Hsel0 & Hused0 & Htop0 & Hraw0 & Hfet0 & _).
    unfold exec. cbn [cfg_state cfg_trace].
    set (idx := sampling_indices (sample_more_5_node (cfg_rng c) (cfg_state c))) in *.
    rewrite get_top_players_update, get_meta_raw_update, get_fetched_update,
            get_selected_players_update, Htop0, Hraw0, Hfet0, Hsel0, Hused0.
    cbn [from_option id].
    rewrite drawn_app, contributions_app, success_tags_app, retrieved_tags_app, concat_app.
    simpl_trace.
    change (retrieved_tags [Sampled idx]) with (@nil string).
    rewrite ?app_nil_r.
    assert (Hfresh : forall i, i ∈ idx ->
              (i < length top)%nat /\ i ∉ concat (drawn (cfg_trace c))).
    { intros i Hi. apply Hel0, unused_indices_elem in Hi as [Hi Hni].
      rewrite Htop in Hi. rewrite Hused, not_elem_of_list_to_set in Hni. auto. }
    rewrite Hused, Htop.
    repeat split; try assumption.
    + apply NoDup_app. repeat split; try assumption.
      intros i Hi Hi'. now apply Hfresh in Hi'.
    + intros i Hi. apply elem_of_app in Hi as [Hi|Hi]; [now apply Hlt|now apply Hfresh].
    + now rewrite list_to_set_app_L.
    + exists (concat (drawn (cfg_trace c))), idx. repeat split. assumption.
Qed.

Lemma run_keeps_invariant (top : list Player) (steps : nat) (n : Node) (c final : Config_) :
  run_invariant top n c ->
  run_ steps n c = Some final ->
  run_invariant top sample_more_5 final.
Proof.
  revert n c. induction steps as [|steps IH]; intros n c Hinv Hrun; [discriminate|].
  rewrite run_S in Hrun. apply exec_keeps_invariant in Hinv.
  destruct (next n (exec_ n c)) as [n'|] eqn:Hnext.
  - apply next_successor in Hnext. subst n'. eapply IH; eassumption.
  - apply next_END in Hnext. subst n. now injection Hrun as <-.
Qed.

Lemma invoke_invariant (steps : nat) (s0 : MetaState) (w : World) (g : Rng)
    (final : Config_) :
  invoke_ steps s0 w g = Some final ->
  run_invariant (fetch_top_players w 300).1 sample_more_5 final.
Proof.
  unfold invoke. destruct steps as [|steps]; [discriminate|].
  rewrite run_S. cbn [next]. apply run_keeps_invariant.
  unfold run_invariant, exec, fetch_top_players_node. cbn [cfg_state cfg_world cfg_trace].
  destruct (fetch_top_players w 300) as [top w']. cbn [fst cfg_state cfg_trace].
  repeat split; try apply NoDup_nil_2.
  intros i Hi. inversion Hi.
Qed.

(** C6, as the code has it.  In the fetch step no retrieval is issued
    for a tag that is already in the fetched-tag set, and a tag is in the
    set afterwards exactly when it was there before or its retrieval and
    normalisation succeeded in this step.  Hence in every run each tag is
    retrieved successfully at most once; and when the usable tags of the
    population are pairwise different, each tag is retrieved at most once. *)
Theorem retrieval_at_most_once :
  (forall (w : World) (state : MetaState),
     let r := fetch_node_ w state in
     (forall tag, tag ∈ get_fetched_player_tags state -> tag ∉ retrieved_tags r.2) /\
     (forall tag, tag ∈ default ∅ (fetched_player_tags r.1.1) <->
                  tag ∈ get_fetched_player_tags state \/ tag ∈ success_tags r.2)) /\
  (forall (steps : nat) (s0 : MetaState) (w : World) (g : Rng) (final : Config_),
     invoke_ steps s0 w g = Some final ->
     NoDup (success_tags (cfg_trace final)) /\
     (NoDup (usable_tags (fetch_top_players w 300).1) ->
      NoDup (retrieved_tags (cfg_trace final)))).
Proof.
  split.
  - intros w state r.
    destruct (fetch_node_spec w state) as (Hfet & _ & _ & _ & _ & Hfresh & _).
    fold r in Hfet, Hfresh. split.
    + intros tag Hin Hret. now apply Hfresh in Hret.
    + intros tag. rewrite Hfet. cbn [from_option id].
      now rewrite elem_of_union, elem_of_list_to_set.
  - intros steps s0 w g final Hrun.
    apply invoke_invariant in Hrun.
    destruct Hrun as (_ & Hnd & _ & _ & _ & _ & Hsucc & Hsub).
    split; [exact Hsucc|]. intros Htags.
    eapply sublist_NoDup; [|exact Hsub]. now apply tags_at_NoDup.
Qed.

End WorkflowFacts.

(* ================================================================== *)
(** * Examples on concrete inputs *)
(* ================================================================== *)

Example strip_and_lower :
  PyStr.strip "  Bridge Spam " = "Bridge Spam" /\
  PyStr.lower "Bridge Spam" = "bridge spam" /\
  normalize "  BEATDOWN  " = "beatdown".
Proof. repeat split. Qed.

(** The bound is reached: when every retrieval fails, a population of 150
    is evaluated 21 times, the last time with [loop_count = 20], and the
    graph needs all of its 85 super-steps. *)
Example full_budget_run :
  option_map
    (fun final => (length (decisions (cfg_trace final)),
                   get_loop_count (cfg_state final),
                   stop_decision (cfg_state final)))
    (invoke (Sample.leaderboard Sample.crowd) Sample.always_timeout Sample.normalizer
            Sample.analytics 85 no_update tt Sample.rng)
  = Some (21%nat, 20, Some "stop") /\
  invoke (Sample.leaderboard Sample.crowd) Sample.always_timeout Sample.normalizer
         Sample.analytics 84 no_update tt Sample.rng = None.
Proof. split; vm_compute; reflexivity. Qed.

Lemma run_is_bounded_witness :
  (exists final,
     invoke (Sample.leaderboard Sample.trio) Sample.b_times_out Sample.normalizer
            Sample.analytics 85 no_update tt Sample.rng = Some final /\
     (0 < length (decisions (cfg_trace final)) <= 21)%nat /\
     (stop_decision (cfg_state final) = Some "enough" \/
      stop_decision (cfg_state final) = Some "stop")) /\
  loop_count (sampling_update
                (sample_more_5_node Sample.rng
                   (apply_update Sample.state_midway
                      (check_enough_battles_node Sample.state_midway))))
  = Some (3 + 1).
Proof.
  pose proof (run_is_bounded (Sample.leaderboard Sample.trio) Sample.b_times_out
                Sample.normalizer Sample.analytics) as (Hrun & _ & Hinc & _).
  split.
  - apply Hrun.
  - apply (Hinc Sample.rng Sample.state_midway). reflexivity.
Defined.

(** C4, as stated, fails where it lets the evaluation return "stop" as
    soon as no unused index is left.  Fifty players, all drawn by the
    initial sample, give ten battles each: 500 battles, 100 against every
    required deck type.  At the first and only evaluation no unused index
    is left, and the decision is "enough", not "stop". *)
Lemma enough_when_population_is_exhausted :
  option_map
    (fun final => (decisions (cfg_trace final),
                   unused_indices (cfg_state final),
                   get_loop_count (cfg_state final),
                   stop_decision (cfg_state final)))
    (invoke (Sample.leaderboard Sample.fifty) Sample.always_ten Sample.normalizer
            Sample.tally 85 no_update tt Sample.rng)
  = Some (["enough"], [], 0, Some "enough").
Proof. vm_compute. reflexivity. Qed.

Lemma retrieval_at_most_once_witness :
  exists final,
    invoke (Sample.leaderboard Sample.trio) Sample.b_times_out Sample.normalizer
           Sample.analytics 85 no_update tt Sample.rng = Some final /\
    NoDup (usable_tags (Sample.leaderboard Sample.trio tt 300).1) /\
    NoDup (retrieved_tags (cfg_trace final)).
Proof.
  destruct (invoke (Sample.leaderboard Sample.trio) Sample.b_times_out Sample.normalizer
                   Sample.analytics 85 no_update tt Sample.rng) as [final|] eqn:Hrun;
    [|vm_compute in Hrun; discriminate].
  assert (Htags : NoDup (usable_tags (Sample.leaderboard Sample.trio tt 300).1))
    by (apply (bool_decide_unpack _); vm_compute; exact I).
  exists final. split; [reflexivity|]. split; [exact Htags|].
  pose proof (retrieval_at_most_once (Sample.leaderboard Sample.trio) Sample.b_times_out
                Sample.normalizer Sample.analytics) as [_ Hruns].
  destruct (Hruns 85%nat no_update tt Sample.rng final Hrun) as [_ Honce].
  exact (Honce Htags).
Defined.

(** C6, as stated, fails on a population that lists one tag twice when
    the retrieval of that tag fails: the failed tag is not marked as
    fetched, so the second entry is retrieved again in the same run. *)
Lemma failed_tag_retrieved_twice :
  option_map (fun final => retrieved_tags (cfg_trace final))
    (invoke (Sample.leaderboard Sample.twins) Sample.always_timeout Sample.normalizer
            Sample.analytics 85 no_update tt Sample.rng)
  = Some ["#A"; "#A"] /\
  ~ NoDup ["#A"; "#A"].
Proof.
  split; [vm_compute; reflexivity|].
  intros Hnd. apply NoDup_cons in Hnd as [Hnotin _]. apply Hnotin. left.
Qed.

Lemma sampling_never_repeats_witness :
  let c' := exec_all (Sample.leaderboard Sample.trio) Sample.b_times_out Sample.normalizer
              Sample.analytics (iteration ++ iteration)
              (exec (Sample.leaderboard Sample.trio) Sample.b_times_out Sample.normalizer
                    Sample.analytics sample_initial_50 (Sample.config Sample.state_midway)) in
  length (drawn (cfg_trace c')) = 3%nat /\
  pairwise_disjoint (drawn (cfg_trace c')) /\
  NoDup (concat (drawn (cfg_trace c'))).
Proof.
  intros c'.
  destruct (sampling_never_repeats (Sample.leaderboard Sample.trio) Sample.b_times_out
              Sample.normalizer Sample.analytics (iteration ++ iteration)
              (Sample.config Sample.state_midway))
    as (evs & Htr & Hlen & Hdisj & Hnd & _).
  fold c' in Htr. change (cfg_trace (Sample.config Sample.state_midway)) with (@nil Event) in Htr.
  rewrite app_nil_l in Htr. rewrite Htr.
  split; [exact Hlen|]. split; assumption.
Defined.

Lemma fetch_failure_is_skipped_witness :
  let r := fetch_meta_battles_node Sample.b_times_out Sample.normalizer tt
             Sample.state_with_batch in
  ("#B", "timeout") ∈ failures r.2 /\
  error_note "#B" "timeout" ∈ default [] (notes r.1.1) /\
  ("#B" ∉ default ∅ (fetched_player_tags r.1.1)) /\
  "#C" ∈ default ∅ (fetched_player_tags r.1.1).
Proof.
  intros r.
  destruct (fetch_failure_is_skipped Sample.b_times_out Sample.normalizer tt
              Sample.state_with_batch)
    as (_ & Hnote & _ & Hnot & _ & _ & Hall & _).
  fold r in Hnote, Hnot, Hall.
  assert (Hfail : ("#B", "timeout") ∈ failures r.2) by (vm_compute; left).
  assert (Hnosucc : "#B" ∉ success_tags r.2).
  { vm_compute. intros H. repeat (apply elem_of_cons in H as [H|H]; [discriminate|]).
    inversion H. }
  split; [exact Hfail|]. split; [exact (Hnote _ _ Hfail)|].
  split; [exact (Hnot _ _ Hfail Hnosucc)|].
  destruct (Hall (Sample.player "#C") "#C") as [Hin|(e & He)].
  - vm_compute. right. right. left.
  - reflexivity.
  - discriminate.
  - exact Hin.
  - exfalso. vm_compute in He.
    repeat (apply elem_of_cons in He as [He|He]; [discriminate|]). inversion He.
Defined.

Lemma contribution_is_capped_witness :
  let c' := exec_all (Sample.leaderboard Sample.trio) Sample.b_times_out Sample.normalizer
              Sample.analytics [in_fetch_meta_battles]
              (Sample.config Sample.state_with_batch) in
  get_meta_raw_battles (cfg_state c') = contributions (cfg_trace c') /\
  (length (contributed_by "#A" (cfg_trace c')) <= 10)%nat.
Proof.
  intros c'.
  destruct (contribution_is_capped (Sample.leaderboard Sample.trio) Sample.b_times_out
              Sample.normalizer Sample.analytics [in_fetch_meta_battles]
              (Sample.config Sample.state_with_batch))
    as (_ & evs & Htr & Hraw & _ & _ & Hcap & _).
  fold c' in Htr, Hraw.
  change (cfg_trace (Sample.config Sample.state_with_batch)) with (@nil Event) in Htr.
  change (get_meta_raw_battles (cfg_state (Sample.config Sample.state_with_batch)))
    with (@nil Battle) in Hraw.
  rewrite app_nil_l in Htr, Hraw. rewrite Htr, Hraw.
  split; [reflexivity|apply Hcap].
Defined.

Lemma sample_more_5_exhaustion_witness :
  selected_players (sampling_update (sample_more_5_node Sample.rng Sample.state_at_bound))
    = Some [] /\
  length (players_at (get_top_players Sample.state_midway)
            (sampling_indices (sample_more_5_node Sample.rng Sample.state_midway))) = 2%nat.
Proof.
  pose proof (sample_more_5_exhaustion Sample.rng Sample.state_at_bound) as Hnone.
  pose proof (sample_more_5_exhaustion Sample.rng Sample.state_midway) as Hsome.
  cbv zeta in Hnone, Hsome.
  assert (E0 : unused_indices Sample.state_at_bound = []) by (vm_compute; reflexivity).
  assert (E2 : unused_indices Sample.state_midway = [0%nat; 2%nat])
    by (vm_compute; reflexivity).
  rewrite E0 in Hnone. rewrite E2 in Hsome.
  destruct Hnone as (Hsel & _). destruct Hsome as (_ & Hlen & _).
  split; [exact Hsel|exact Hlen].
Defined.

Lemma cohort_only_grows_witness :
  (length (get_meta_raw_battles (cfg_state (Sample.config Sample.state_with_batch)))
   <= length (get_meta_raw_battles
                (cfg_state
                   (exec_all (Sample.leaderboard Sample.trio) Sample.b_times_out
                      Sample.normalizer Sample.analytics iteration
                      (Sample.config Sample.state_with_batch)))))%nat.
Proof.
  apply (cohort_only_grows (Sample.leaderboard Sample.trio) Sample.b_times_out
           Sample.normalizer Sample.analytics iteration
           (Sample.config Sample.state_with_batch)).
Defined.

(* ================================================================== *)
(** * Further properties of the meta workflow *)
(* ================================================================== *)

(** ** The diagnostic table of insufficient deck types *)

Lemma dict_set_fresh {V} (d : Dict.t V) (k : string) (v : V) :
  k ∉ map fst d -> Dict.set d k v = d ++ [(k, v)].
Proof.
  induction d as [|[k0 v0] d IH]; simpl; intros Hk; [reflexivity|].
  rewrite not_elem_of_cons in Hk. destruct Hk as [Hne Hk].
  destruct (String.eqb_spec k0 k) as [->|_]; [contradiction|].
  now rewrite IH.
Qed.

Lemma collect_insufficient_from (counts : Dict.t Z) (required : list string) (d0 : Dict.t Z) :
  NoDup (map fst d0 ++ required) ->
  fold_left
    (fun insufficient t =>
       let count := Dict.get counts t 0 in
       if count <? MIN_GAMES_PER_TYPE then Dict.set insufficient t count else insufficient)
    required d0
  = d0 ++ map (fun t => (t, Dict.get counts t 0))
            (filter (fun t => Dict.get counts t 0 < MIN_GAMES_PER_TYPE) required).
Proof.
  revert d0. induction required as [|t ts IH]; intros d0 Hnd; simpl.
  - now rewrite app_nil_r.
  - rewrite filter_cons.
    assert (Ht : t ∉ map fst d0).
    { apply NoDup_app in Hnd as (_ & Hdisj & _). intros Hin. apply (Hdisj t Hin). left. }
    destruct (Z.ltb_spec (Dict.get counts t 0) MIN_GAMES_PER_TYPE) as [Hlt|Hge].
    + rewrite decide_True by assumption.
      rewrite IH.
      * rewrite (dict_set_fresh d0 t _ Ht). now rewrite <- app_assoc.
      * rewrite (dict_set_fresh d0 t _ Ht), map_app. simpl.
        rewrite <- app_assoc. exact Hnd.
    + rewrite decide_False by lia.
      apply IH. apply NoDup_app in Hnd as (Hd & Hdisj & Hts).
      apply NoDup_cons in Hts as [_ Hts].
      apply NoDup_app. repeat split; try assumption.
      intros x Hx Hx'. apply (Hdisj x Hx). now right.
Qed.

(** X1. The [insufficient_types] table that the "stop" and "need_more"
    notes print lists exactly the required deck types whose count is below
    [MIN_GAMES_PER_TYPE], in the order of [REQUIRED_DECK_TYPES_LOWER], each
    with the count read for it (0 when the type is absent). *)
Theorem insufficient_types_report (state : MetaState) :
  insufficient_types state =
  map (fun t => (t, required_count state t))
      (filter (fun t => required_count state t < MIN_GAMES_PER_TYPE)
              REQUIRED_DECK_TYPES_LOWER).
Proof.
  unfold insufficient_types, collect_insufficient, required_count.
  rewrite collect_insufficient_from; [reflexivity|].
  apply (bool_decide_unpack _). vm_compute. exact I.
Qed.

(** ** The key tables *)

Lemma lower_char_idempotent (c : ascii) :
  PyStr.lower_char (PyStr.lower_char c) = PyStr.lower_char c.
Proof. destruct c as [[] [] [] [] [] [] [] []]; reflexivity. Qed.

Lemma isspace_lower_char (c : ascii) : PyStr.isspace (PyStr.lower_char c) = PyStr.isspace c.
Proof. destruct c as [[] [] [] [] [] [] [] []]; reflexivity. Qed.

Lemma lower_idempotent (s : string) : PyStr.lower (PyStr.lower s) = PyStr.lower s.
Proof. induction s as [|c s IH]; simpl; [reflexivity|]. now rewrite lower_char_idempotent, IH. Qed.

Lemma lstrip_idempotent (s : string) : PyStr.lstrip (PyStr.lstrip s) = PyStr.lstrip s.
Proof.
  induction s as [|c s IH]; simpl; [reflexivity|].
  destruct (PyStr.isspace c) eqn:E; [assumption|]. simpl. now rewrite E.
Qed.

Lemma rstrip_cons (c : ascii) (s : string) :
  PyStr.rstrip (String c s) =
  match PyStr.rstrip s with
  | EmptyString => if PyStr.isspace c then EmptyString else String c EmptyString
  | r' => String c r'
  end.
Proof. reflexivity. Qed.

Lemma rstrip_idempotent (s : string) : PyStr.rstrip (PyStr.rstrip s) = PyStr.rstrip s.
Proof.
  induction s as [|c s IH]; [reflexivity|].
  rewrite rstrip_cons.
  destruct (PyStr.rstrip s) as [|d r'] eqn:E.
  - destruct (PyStr.isspace c) eqn:Ec; [reflexivity|].
    rewrite rstrip_cons. simpl. now rewrite Ec.
  - rewrite rstrip_cons, IH. reflexivity.
Qed.

Lemma rstrip_lstrip (s : string) :
  PyStr.rstrip s = s -> PyStr.rstrip (PyStr.lstrip s) = PyStr.lstrip s.
Proof.
  induction s as [|c s IH]; [reflexivity|].
  rewrite rstrip_cons. cbn [PyStr.lstrip].
  destruct (PyStr.isspace c) eqn:Ec.
  - destruct (PyStr.rstrip s) as [|d r'] eqn:E; [discriminate|].
    intros H. injection H as H. apply IH. exact H.
  - intros H. rewrite rstrip_cons, Ec. exact H.
Qed.

Lemma strip_idempotent (s : string) : PyStr.strip (PyStr.strip s) = PyStr.strip s.
Proof.
  unfold PyStr.strip.
  rewrite (rstrip_lstrip (PyStr.rstrip s)) by apply rstrip_idempotent.
  apply lstrip_idempotent.
Qed.

Lemma lstrip_lower (s : string) : PyStr.lstrip (PyStr.lower s) = PyStr.lower (PyStr.lstrip s).
Proof.
  induction s as [|c s IH]; simpl; [reflexivity|].
  rewrite isspace_lower_char. destruct (PyStr.isspace c); [assumption|reflexivity].
Qed.

Lemma rstrip_lower (s : string) : PyStr.rstrip (PyStr.lower s) = PyStr.lower (PyStr.rstrip s).
Proof.
  induction s as [|c s IH]; [reflexivity|].
  cbn [PyStr.lower]. rewrite !rstrip_cons, IH, isspace_lower_char.
  destruct (PyStr.rstrip s) as [|d r']; simpl.
  - destruct (PyStr.isspace c); reflexivity.
  - reflexivity.
Qed.

Lemma strip_lower (s : string) : PyStr.strip (PyStr.lower s) = PyStr.lower (PyStr.strip s).
Proof. unfold PyStr.strip. now rewrite rstrip_lower, lstrip_lower. Qed.

Lemma normalize_idempotent (label : string) : normalize (normalize label) = normalize label.
Proof.
  unfold normalize. now rewrite strip_lower, lower_idempotent, strip_idempotent.
Qed.

Lemma comprehension_keys {A V} (kf : A -> string) (vf : A -> V) (xs : list A) (k : string) :
  k ∈ map fst (Dict.comprehension kf vf xs) -> k ∈ map kf xs.
Proof.
  intros Hk. apply list_elem_of_fmap in Hk as ([k' v] & -> & Hin). simpl.
  apply DictFacts.elem_lookup_Some in Hin; [|apply DictFacts.comprehension_NoDup_keys].
  apply DictFacts.comprehension_lookup_Some in Hin as (x & Hx & <- & _).
  apply list_elem_of_fmap. now exists x.
Qed.

(** X2. The keys of the two count tables are in normal form and unique:
    every key of [deck_type_counts_opp] as [compute_meta_analytics] builds
    it is stripped, every key of the lowercased table of
    [check_enough_battles_node] is lowercase, and a key of the lowercased
    table built from the rows of [opp_deck_types] is unchanged by stripping
    and lowercasing again. *)
Theorem count_table_keys (rows : list DeckTypeRow) (raw : Dict.t Z) :
  NoDup (map fst (strip_rows rows)) /\
  (forall k, k ∈ map fst (strip_rows rows) -> PyStr.strip k = k) /\
  NoDup (map fst (lower_keys raw)) /\
  (forall k, k ∈ map fst (lower_keys raw) -> PyStr.lower k = k) /\
  (forall k, k ∈ map fst (lower_keys (strip_rows rows)) -> normalize k = k).
Proof.
  split; [apply DictFacts.comprehension_NoDup_keys|].
  split.
  { intros k Hk. apply comprehension_keys in Hk.
    apply list_elem_of_fmap in Hk as (row & -> & _). apply strip_idempotent. }
  split; [apply DictFacts.comprehension_NoDup_keys|].
  split.
  { intros k Hk. apply comprehension_keys in Hk.
    apply list_elem_of_fmap in Hk as (kv & -> & _). apply lower_idempotent. }
  intros k Hk. apply comprehension_keys in Hk.
  apply list_elem_of_fmap in Hk as ([k1 v] & -> & Hin). simpl.
  assert (Hk1 : k1 ∈ map fst (strip_rows rows)).
  { apply list_elem_of_fmap. now exists (k1, v). }
  apply comprehension_keys in Hk1. apply list_elem_of_fmap in Hk1 as (row & -> & _).
  apply (normalize_idempotent (default "" (row_type row))).
Qed.

(** X3. What the stopping decision reads for a key depends on the rows
    whose label is that key up to whitespace and case: with no such row it
    reads 0, and when all such rows carry the same number of games it
    reads that number. *)
Theorem stopping_count_by_rows (rows : list DeckTypeRow) (key : string) :
  ((forall row, row ∈ rows -> normalize (default "" (row_type row)) <> key) ->
   stopping_count rows key = 0) /\
  (forall n,
     (exists row, row ∈ rows /\ normalize (default "" (row_type row)) = key) ->
     (forall row, row ∈ rows -> normalize (default "" (row_type row)) = key ->
                  default 0 (row_games row) = n) ->
     stopping_count rows key = n).
Proof.
  unfold stopping_count, Dict.get. split.
  - intros Hnone.
    destruct (Dict.lookup (lower_keys (strip_rows rows)) key) as [n|] eqn:E; [|reflexivity].
    apply stopping_lookup_row in E as (row & Hrow & Hkey & _).
    exfalso. exact (Hnone row Hrow Hkey).
  - intros n Hex Hall. now rewrite (stopping_lookup_agree rows key n Hall Hex).
Qed.

Lemma stopping_count_by_rows_witness :
  stopping_count Sample.one_spelling_rows "cycle" = 0 /\
  stopping_count Sample.one_spelling_rows "siege" = 2.
Proof.
  split.
  - destruct (stopping_count_by_rows Sample.one_spelling_rows "cycle") as [Hnone _].
    apply Hnone. intros row Hrow.
    repeat (apply elem_of_cons in Hrow as [->|Hrow]; [vm_compute; discriminate|]).
    inversion Hrow.
  - destruct (stopping_count_by_rows Sample.one_spelling_rows "siege") as [_ Hsome].
    apply Hsome.
    + exists {| row_type := Some " Siege"; row_games := Some 2 |}.
      split; [right; left|reflexivity].
    + intros row Hrow Hkey.
      apply elem_of_cons in Hrow as [->|Hrow]; [vm_compute in Hkey; discriminate|].
      apply elem_of_cons in Hrow as [->|Hrow]; [reflexivity|inversion Hrow].
Defined.

(** ** Every node of the graph *)

Lemma sampling_nodes_write_no_battles (g : Rng) (state : MetaState) :
  normalized_battles (sampling_update (sample_initial_50_node g state)) = None /\
  meta_raw_battles (sampling_update (sample_initial_50_node g state)) = None /\
  normalized_battles (sampling_update (sample_more_5_node g state)) = None /\
  meta_raw_battles (sampling_update (sample_more_5_node g state)) = None /\
  (exists note, notes (sampling_update (sample_initial_50_node g state))
                = Some (get_notes state ++ [note])).
Proof.
  unfold sample_initial_50_node, sample_more_5_node.
  destruct (get_top_players state) as [|p top].
  - repeat split. eexists. reflexivity.
  - destruct (random_sample g (seq 0 (length (p :: top))) _) as [sampled g1].
    destruct (unused_indices state) as [|u unused].
    + repeat split. eexists. reflexivity.
    + destruct (random_sample g (u :: unused) _) as [new_indices g2].
      repeat split. eexists. reflexivity.
Qed.

Lemma check_enough_note (state : MetaState) :
  exists note, notes (check_enough_battles_node state) = Some (get_notes state ++ [note]).
Proof.
  unfold check_enough_battles_node.
  destruct (enough_total state && enough_per_type state);
    [|destruct ((remaining state <=? 0) || (20 <=? get_loop_count state))];
    eexists; reflexivity.
Qed.

Section WorkflowMoreFacts.

Context {World RawLog : Type}.
Variable fetch_top_players : World -> Z -> list Player * World.
Variable get_player_battlelog : World -> string -> (string + RawLog) * World.
Variable filter_and_normalize_ranked_1v1 : RawLog -> string + list Battle.
Variable compute_user_analytics : list Battle -> Analytics.

Local Abbreviation Config_ := (@Config World).
Local Abbreviation FetchLoop_ := (@FetchLoop World).
Local Abbreviation retrieve_ :=
  (retrieve get_player_battlelog filter_and_normalize_ranked_1v1).
Local Abbreviation fetch_player_ :=
  (fetch_player get_player_battlelog filter_and_normalize_ranked_1v1).
Local Abbreviation compute_node_ := (compute_meta_analytics_node compute_user_analytics).
Local Abbreviation fetch_node_ :=
  (fetch_meta_battles_node get_player_battlelog filter_and_normalize_ranked_1v1).
Local Abbreviation exec_ :=
  (exec fetch_top_players get_player_battlelog filter_and_normalize_ranked_1v1
        compute_user_analytics).
Local Abbreviation exec_nodes_ :=
  (exec_nodes fetch_top_players get_player_battlelog filter_and_normalize_ranked_1v1
              compute_user_analytics).
Local Abbreviation run_ :=
  (run fetch_top_players get_player_battlelog filter_and_normalize_ranked_1v1
       compute_user_analytics).
Local Abbreviation invoke_ :=
  (invoke fetch_top_players get_player_battlelog filter_and_normalize_ranked_1v1
          compute_user_analytics).

Lemma exec_nodes_cons (n : Node) (script : list Node) (c : Config_) :
  exec_nodes_ (n :: script) c = exec_nodes_ script (exec_ n c).
Proof. reflexivity. Qed.

Lemma exec_loop_node (n : Node) :
  n = fetch_top_players_n \/ n = sample_initial_50 \/ exists ln, n = loop_node ln.
Proof.
  destruct n; auto; right; right.
  - now exists in_fetch_meta_battles.
  - now exists in_compute_meta_analytics.
  - now exists in_check_enough_battles.
  - now exists in_sample_more_5.
Qed.

Lemma exec_keeps_used_in_range (n : Node) (c : Config_) :
  n = fetch_top_players_n \/ used_in_range (cfg_state c) ->
  used_in_range (cfg_state (exec_ n c)).
Proof.
  intros Hpre. destruct (exec_loop_node n) as [->|[->|[ln ->]]].
  - unfold exec, fetch_top_players_node. cbn [cfg_state cfg_world].
    destruct (fetch_top_players (cfg_world c) 300) as [top w'].
    cbn [cfg_state]. unfold used_in_range. rewrite get_used_update. cbn.
    intros i Hi. now apply not_elem_of_empty in Hi.
  - destruct Hpre as [Hn|Hwf]; [discriminate|].
    destruct (sample_initial_50_sound (cfg_rng c) (cfg_state c))
      as (_ & Hlt & _ & _ & Hused & Htop & _).
    unfold exec. cbn [cfg_state]. unfold used_in_range.
    rewrite Hused, get_top_players_update, Htop. cbn [from_option id].
    intros i Hi. apply elem_of_union in Hi as [Hi|Hi].
    + now apply Hwf.
    + apply elem_of_list_to_set in Hi. now apply Hlt.
  - destruct Hpre as [Hn|Hwf]; [destruct ln; discriminate|].
    destruct (exec_loop_node_effect fetch_top_players get_player_battlelog
                filter_and_normalize_ranked_1v1 compute_user_analytics ln c)
      as (evs & _ & Htop & _ & Hun & Hused & _).
    unfold used_in_range. rewrite Hused, Htop.
    intros i Hi. apply elem_of_union in Hi as [Hi|Hi].
    + now apply Hwf.
    + apply elem_of_list_to_set, Hun, unused_indices_elem in Hi. tauto.
Qed.

(** X4. The used-index set stays inside the index range of the population
    through every sequence of nodes that starts with [fetch_top_players]:
    every used index is an index of [top_players], and the remaining count
    that the stopping decision computes is the number of unused indices. *)
Theorem used_indices_stay_in_range (script : list Node) (c : Config_) :
  let s := cfg_state (exec_nodes_ (fetch_top_players_n :: script) c) in
  used_in_range s /\
  (size (get_used_player_indices s) <= length (get_top_players s))%nat /\
  remaining s = Z.of_nat (length (unused_indices s)).
Proof.
  assert (Hwf : used_in_range
                  (cfg_state (exec_nodes_ (fetch_top_players_n :: script) c))).
  { rewrite exec_nodes_cons.
    assert (H0 : used_in_range (cfg_state (exec_ fetch_top_players_n c)))
      by (apply exec_keeps_used_in_range; now left).
    revert H0. generalize (exec_ fetch_top_players_n c).
    induction script as [|n script IH]; intros c0 H0; [exact H0|].
    rewrite exec_nodes_cons. apply IH. apply exec_keeps_used_in_range. now right. }
  intros s. fold s in Hwf. split; [exact Hwf|].
  pose proof (unused_indices_count s Hwf) as Hcount.
  split; [lia|]. now apply remaining_spec.
Qed.

Lemma exec_keeps_mirrored (n : Node) (c : Config_) :
  n = fetch_top_players_n \/ mirrored (cfg_state c) ->
  mirrored (cfg_state (exec_ n c)).
Proof.
  intros Hpre. unfold mirrored.
  assert (Hkeep : forall upd, normalized_battles upd = None -> meta_raw_battles upd = None ->
            mirrored (cfg_state c) -> mirrored (apply_update (cfg_state c) upd)).
  { intros upd H1 H2 Hm. unfold mirrored, apply_update. cbn. now rewrite H1, H2. }
  destruct n.
  - unfold exec, fetch_top_players_node. cbn [cfg_state cfg_world].
    destruct (fetch_top_players (cfg_world c) 300) as [top w']. reflexivity.
  - destruct Hpre as [Hn|Hm]; [discriminate|].
    destruct (sampling_nodes_write_no_battles (cfg_rng c) (cfg_state c)) as (H1 & H2 & _).
    now apply Hkeep.
  - pose proof (fetch_node_spec get_player_battlelog filter_and_normalize_ranked_1v1
                  (cfg_world c) (cfg_state c)) as Hspec.
    unfold exec. destruct (fetch_node_ (cfg_world c) (cfg_state c)) as [[upd w'] evs].
    cbn [fst snd] in Hspec. destruct Hspec as (_ & Hraw & Hnorm & _).
    cbn [cfg_state]. unfold apply_update. cbn. now rewrite Hnorm, Hraw.
  - destruct Hpre as [Hn|Hm]; [discriminate|]. now apply Hkeep.
  - destruct Hpre as [Hn|Hm]; [discriminate|].
    destruct (check_enough_writes (cfg_state c)) as (_ & _ & _ & _ & H2 & H1 & _).
    now apply Hkeep.
  - destruct Hpre as [Hn|Hm]; [discriminate|].
    destruct (sampling_nodes_write_no_battles (cfg_rng c) (cfg_state c))
      as (_ & _ & H1 & H2 & _).
    now apply Hkeep.
Qed.

(** X5. [normalized_battles] mirrors [meta_raw_battles]: after
    [fetch_top_players] and any sequence of nodes, the two keys hold the
    same list. *)
Theorem normalized_battles_mirror (script : list Node) (c : Config_) :
  let s := cfg_state (exec_nodes_ (fetch_top_players_n :: script) c) in
  mirrored s /\
  exists battles, normalized_battles s = Some battles /\ meta_raw_battles s = Some battles.
Proof.
  assert (Hm : mirrored (cfg_state (exec_nodes_ (fetch_top_players_n :: script) c)) /\
               is_Some (meta_raw_battles
                          (cfg_state (exec_nodes_ (fetch_top_players_n :: script) c)))).
  { rewrite exec_nodes_cons.
    assert (H0 : mirrored (cfg_state (exec_ fetch_top_players_n c)) /\
                 is_Some (meta_raw_battles (cfg_state (exec_ fetch_top_players_n c)))).
    { split; [apply exec_keeps_mirrored; now left|].
      unfold exec, fetch_top_players_node. cbn [cfg_state cfg_world].
      destruct (fetch_top_players (cfg_world c) 300) as [top w']. now eexists. }
    revert H0. generalize (exec_ fetch_top_players_n c).
    induction script as [|n script IH]; intros c0 H0; [exact H0|].
    rewrite exec_nodes_cons. apply IH. destruct H0 as [H0 [b Hb]]. split.
    - apply exec_keeps_mirrored. now right.
    - assert (Hsome : forall upd, is_Some (meta_raw_battles (apply_update (cfg_state c0) upd))).
      { intros upd. unfold apply_update. cbn. rewrite Hb.
        destruct (meta_raw_battles upd); now eexists. }
      destruct n; unfold exec; cbn [cfg_state]; try apply Hsome.
      + unfold fetch_top_players_node.
        destruct (fetch_top_players (cfg_world c0) 300) as [top w']. apply Hsome.
      + destruct (fetch_node_ (cfg_world c0) (cfg_state c0)) as [[upd w'] evs]. apply Hsome. }
  intros s. fold s in Hm. destruct Hm as [Hm [b Hb]].
  split; [exact Hm|]. exists b. split; [|exact Hb]. unfold mirrored in Hm. now rewrite Hm.
Qed.

Lemma exec_notes (n : Node) (c : Config_) :
  exists evs note,
    cfg_trace (exec_ n c) = cfg_trace c ++ evs /\
    get_notes (cfg_state (exec_ n c)) = get_notes (cfg_state c) ++ error_notes evs ++ [note].
Proof.
  destruct n; unfold exec.
  - unfold fetch_top_players_node. destruct (fetch_top_players (cfg_world c) 300) as [top w'].
    exists [], ("Fetched " +:+ pretty (len top) +:+ " top players from API").
    cbn [cfg_state cfg_trace]. rewrite app_nil_r, get_notes_update. split; reflexivity.
  - destruct (sampling_nodes_write_no_battles (cfg_rng c) (cfg_state c))
      as (_ & _ & _ & _ & note & Hnote).
    exists [Sampled (sampling_indices (sample_initial_50_node (cfg_rng c) (cfg_state c)))], note.
    cbn [cfg_state cfg_trace]. rewrite get_notes_update, Hnote. split; reflexivity.
  - pose proof (fetch_node_spec get_player_battlelog filter_and_normalize_ranked_1v1
                  (cfg_world c) (cfg_state c)) as Hspec.
    destruct (fetch_node_ (cfg_world c) (cfg_state c)) as [[upd w'] evs].
    cbn [fst snd] in Hspec. destruct Hspec as (_ & _ & _ & (summary & Hnotes) & _).
    exists evs, summary. cbn [cfg_state cfg_trace]. rewrite get_notes_update, Hnotes.
    split; reflexivity.
  - exists [].
    eexists. cbn [cfg_state cfg_trace]. rewrite app_nil_r, get_notes_update.
    split; reflexivity.
  - destruct (check_enough_note (cfg_state c)) as (note & Hnote).
    exists [Decided (get_stop_decision (check_enough_battles_node (cfg_state c)))], note.
    cbn [cfg_state cfg_trace]. rewrite get_notes_update, Hnote. split; reflexivity.
  - destruct (sample_more_5_sound (cfg_rng c) (cfg_state c))
      as (_ & _ & _ & _ & _ & _ & _ & _ & _ & note & Hnote).
    exists [Sampled (sampling_indices (sample_more_5_node (cfg_rng c) (cfg_state c)))], note.
    cbn [cfg_state cfg_trace]. rewrite get_notes_update, Hnote. split; reflexivity.
Qed.

(** X6. The audit trail is append-only and every super-step leaves its
    mark: over any sequence of nodes the notes before are a prefix of the
    notes after, and the number of notes grows by one per node run plus one
    per failed retrieval. *)
Theorem notes_are_append_only (script : list Node) (c : Config_) :
  let c' := exec_nodes_ script c in
  exists evs,
    cfg_trace c' = cfg_trace c ++ evs /\
    get_notes (cfg_state c) `prefix_of` get_notes (cfg_state c') /\
    length (get_notes (cfg_state c')) =
      (length (get_notes (cfg_state c)) + length script + length (failures evs))%nat /\
    (forall tag e, (tag, e) ∈ failures evs -> error_note tag e ∈ get_notes (cfg_state c')).
Proof.
  revert c. induction script as [|n script IH]; intros c c'.
  - exists []. unfold c'. cbn. rewrite app_nil_r. repeat split; try reflexivity; try lia.
    intros tag e H. inversion H.
  - destruct (exec_notes n c) as (e1 & note & Htr1 & Hn1).
    destruct (IH (exec_ n c)) as (e2 & Htr2 & Hpre2 & Hlen2 & Hin2).
    unfold c'. rewrite exec_nodes_cons.
    exists (e1 ++ e2). split; [|split; [|split]].
    + rewrite Htr2, Htr1. now rewrite app_assoc.
    + etransitivity; [|exact Hpre2]. rewrite Hn1. now apply prefix_app_r.
    + rewrite Hlen2, Hn1, failures_app, !length_app. unfold error_notes.
      rewrite length_map. simpl. lia.
    + intros tag e Hin. rewrite failures_app in Hin. apply elem_of_app in Hin as [Hin|Hin].
      * eapply elem_of_prefix; [|exact Hpre2].
        rewrite Hn1, !elem_of_app. right. left.
        unfold error_notes. apply list_elem_of_fmap. now exists (tag, e).
      * now apply Hin2.
Qed.

(** X7. [fetch_top_players_node] resets every key but the notes, so a run
    of the graph does not depend on what the caller's initial state holds
    beyond its notes. *)
Theorem run_ignores_initial_state (steps : nat) (s0 s0' : MetaState) (w : World) (g : Rng) :
  get_notes s0 = get_notes s0' ->
  invoke_ steps s0 w g = invoke_ steps s0' w g.
Proof.
  intros Hnotes. unfold invoke. destruct steps as [|steps]; [reflexivity|].
  rewrite !run_S.
  assert (Hexec :
    exec_ fetch_top_players_n
      {| cfg_state := s0; cfg_world := w; cfg_rng := g; cfg_trace := [] |} =
    exec_ fetch_top_players_n
      {| cfg_state := s0'; cfg_world := w; cfg_rng := g; cfg_trace := [] |}).
  { unfold exec, fetch_top_players_node. cbn [cfg_state cfg_world cfg_rng cfg_trace].
    rewrite Hnotes. destruct (fetch_top_players w 300) as [top w']. reflexivity. }
  now rewrite Hexec.
Qed.

(** ** The initial sample and small populations *)

Lemma sample_covers_population (idx : list nat) (n : nat) :
  NoDup idx -> (forall i, i ∈ idx -> (i < n)%nat) -> length idx = n ->
  forall i, (i < n)%nat -> i ∈ idx.
Proof.
  intros Hnd Hlt Hlen i Hi.
  assert (Hsub : idx ⊆+ seq 0 n).
  { apply NoDup_submseteq; [assumption|]. intros x Hx. apply elem_of_seq.
    specialize (Hlt x Hx). lia. }
  apply submseteq_length_Permutation in Hsub; [|rewrite length_seq; lia].
  rewrite Hsub. apply elem_of_seq. lia.
Qed.

(** X8. [sample_initial_50_node] on an empty population returns an empty
    selection and a warning and writes no used-index set.  Otherwise it
    returns the players at [min(50, len(top_players))] distinct indices of
    the population and adds exactly these to the used set; a population of
    at most 50 is drawn whole. *)
Theorem sample_initial_50_size (g : Rng) (state : MetaState) :
  let r := sample_initial_50_node g state in
  let upd := sampling_update r in
  match get_top_players state with
  | [] =>
      selected_players upd = Some [] /\ sampling_indices r = [] /\
      used_player_indices upd = None /\ loop_count upd = None /\
      exists note, notes upd = Some (get_notes state ++ [note])
  | _ :: _ =>
      selected_players upd
        = Some (players_at (get_top_players state) (sampling_indices r)) /\
      length (players_at (get_top_players state) (sampling_indices r))
        = Nat.min 50 (length (get_top_players state)) /\
      NoDup (sampling_indices r) /\
      (forall i, i ∈ sampling_indices r -> (i < length (get_top_players state))%nat) /\
      used_player_indices upd
        = Some (get_used_player_indices state ∪ list_to_set (sampling_indices r)) /\
      ((length (get_top_players state) <= 50)%nat ->
       forall i, (i < length (get_top_players state))%nat -> i ∈ sampling_indices r)
  end.
Proof.
  intros r upd.
  destruct (sample_initial_50_sound g state) as (Hnd & Hlt & Hlen & Hsel & _ & _ & _ & _ & Hloop).
  destruct (sampling_nodes_write_no_battles g state) as (_ & _ & _ & _ & Hnote).
  fold r in Hnd, Hlt, Hlen, Hsel. fold upd in Hsel, Hloop, Hnote.
  assert (Hused : match get_top_players state with
                  | [] => used_player_indices upd = None /\ sampling_indices r = []
                  | _ :: _ => used_player_indices upd
                      = Some (get_used_player_indices state ∪ list_to_set (sampling_indices r))
                  end).
  { unfold upd, r, sample_initial_50_node.
    destruct (get_top_players state) as [|p top]; [split; reflexivity|].
    destruct (random_sample g (seq 0 (length (p :: top))) _) as [sampled g']. reflexivity. }
  destruct (get_top_players state) as [|p top] eqn:Etop.
  - destruct Hused as [Hused Hidx]. rewrite Hidx in Hsel. repeat split; assumption.
  - repeat split; try assumption.
    + rewrite players_at_length; assumption.
    + intros Hsmall. apply sample_covers_population; try assumption.
      rewrite Hlen. lia.
Qed.


Lemma unused_nil_iff (state : MetaState) :
  unused_indices state = [] <->
  forall i, (i < length (get_top_players state))%nat -> i ∈ get_used_player_indices state.
Proof.
  split.
  - intros Hnil i Hi. destruct (decide (i ∈ get_used_player_indices state)) as [|Hni];
      [assumption|].
    assert (Hin : i ∈ unused_indices state) by (apply unused_indices_elem; auto).
    rewrite Hnil in Hin. inversion Hin.
  - intros Hall. destruct (unused_indices state) as [|i rest] eqn:E; [reflexivity|].
    assert (Hin : i ∈ unused_indices state) by (rewrite E; left).
    apply unused_indices_elem in Hin as [Hi Hni]. destruct Hni. auto.
Qed.

Lemma unused_stays_empty (c c' : Config_) (evs : list Event) :
  cycle_effect c c' evs ->
  unused_indices (cfg_state c) = [] -> unused_indices (cfg_state c') = [].
Proof.
  intros (_ & Htop & _ & _ & Hused & _). rewrite !unused_nil_iff.
  intros Hall i Hi. rewrite Hused. apply elem_of_union_l, Hall. now rewrite <- Htop.
Qed.

(** X9. A population of at most 50 players (the empty one included) is
    drawn whole by the initial sample, so the graph reaches [END] after
    five super-steps and a single evaluation: no incremental sampling takes
    place, [loop_count] stays 0, and the decision is "enough" or "stop". *)
Theorem small_population_single_pass (s0 : MetaState) (w : World) (g : Rng) :
  (length (fetch_top_players w 300).1 <= 50)%nat ->
  exists final d,
    invoke_ 5 s0 w g = Some final /\
    decisions (cfg_trace final) = [d] /\ (d = "enough" \/ d = "stop") /\
    stop_decision (cfg_state final) = Some d /\
    length (drawn (cfg_trace final)) = 1%nat /\
    get_loop_count (cfg_state final) = 0 /\
    unused_indices (cfg_state final) = [].
Proof.
  intros Hsmall.
  set (c0 := {| cfg_state := s0; cfg_world := w; cfg_rng := g; cfg_trace := [] |} : Config_).
  set (c1 := exec_ fetch_top_players_n c0).
  set (c2 := exec_ sample_initial_50 c1).
  set (c3 := exec_ fetch_meta_battles c2).
  set (c4 := exec_ compute_meta_analytics_n c3).
  set (c5 := exec_ check_enough_battles c4).
  assert (H1 : get_top_players (cfg_state c1) = (fetch_top_players w 300).1 /\
               get_loop_count (cfg_state c1) = 0 /\ cfg_trace c1 = []).
  { unfold c1, exec, fetch_top_players_node. cbn [cfg_state cfg_world c0].
    destruct (fetch_top_players w 300) as [top w']. repeat split. }
  destruct H1 as (Htop1 & Hl1 & Htr1).
  (* the initial sample uses every index *)
  assert (Hun2 : unused_indices (cfg_state c2) = []).
  { pose proof (sample_initial_50_sound (cfg_rng c1) (cfg_state c1))
      as (Hnd & Hlt & Hlen & _ & Hused & Htop & _).
    apply unused_nil_iff. unfold c2, exec. cbn [cfg_state].
    rewrite Hused, get_top_players_update, Htop. cbn [from_option id].
    intros i Hi. apply elem_of_union_r, elem_of_list_to_set.
    apply (sample_covers_population _ (length (get_top_players (cfg_state c1))));
      try assumption.
    rewrite Hlen, Htop1. lia. }
  assert (Hl2 : get_loop_count (cfg_state c2) = 0 /\
                cfg_trace c2 = [Sampled (sampling_indices
                                  (sample_initial_50_node (cfg_rng c1) (cfg_state c1)))]).
  { pose proof (sample_initial_50_sound (cfg_rng c1) (cfg_state c1))
      as (_ & _ & _ & _ & _ & _ & _ & _ & Hloop).
    unfold c2, exec. cbn [cfg_state cfg_trace].
    rewrite get_loop_count_update, Hloop, Htr1. split; [exact Hl1|reflexivity]. }
  destruct Hl2 as [Hl2 Htr2].
  destruct (exec_loop_node_effect fetch_top_players get_player_battlelog
              filter_and_normalize_ranked_1v1 compute_user_analytics
              in_fetch_meta_battles c2) as (e3 & Heff3).
  destruct (exec_loop_node_effect fetch_top_players get_player_battlelog
              filter_and_normalize_ranked_1v1 compute_user_analytics
              in_compute_meta_analytics c3) as (e4 & Heff4).
  cbn [loop_node] in Heff3, Heff4. fold c3 in Heff3. fold c4 in Heff4.
  pose proof (unused_stays_empty _ _ _ Heff3 Hun2) as Hun3.
  pose proof (unused_stays_empty _ _ _ Heff4 Hun3) as Hun4.
  destruct (exec_fetch_control fetch_top_players get_player_battlelog
              filter_and_normalize_ranked_1v1 compute_user_analytics c2) as [Hl3 Hd3].
  destruct (exec_compute_control fetch_top_players get_player_battlelog
              filter_and_normalize_ranked_1v1 compute_user_analytics c3) as [Hl4 Hd4].
  fold c3 in Hl3, Hd3. fold c4 in Hl4, Hd4.
  assert (Hdr4 : drawn (cfg_trace c4) = drawn (cfg_trace c2)).
  { pose proof (fetch_node_spec get_player_battlelog filter_and_normalize_ranked_1v1
                  (cfg_world c2) (cfg_state c2)) as Hspec.
    unfold c4, c3, exec. cbn [cfg_trace].
    destruct (fetch_meta_battles_node _ _ (cfg_world c2) (cfg_state c2)) as [[upd w'] evs].
    cbn [fst snd cfg_trace] in *.
    destruct Hspec as (_ & _ & _ & _ & _ & _ & _ & _ & Hdr & _).
    now rewrite drawn_app, Hdr, app_nil_r. }
  (* the evaluation cannot ask for more *)
  destruct (check_enough_cases (cfg_state c4))
    as [(_ & Hd & _)|[(_ & _ & Hd & _)|(_ & Hrem & _)]];
    [| |apply remaining_unused in Hrem; contradiction].
  all: pose proof (next_after_check fetch_top_players get_player_battlelog
                     filter_and_normalize_ranked_1v1 compute_user_analytics c4 _ Hd) as Hnext;
    destruct (final_after_check fetch_top_players get_player_battlelog
                filter_and_normalize_ranked_1v1 compute_user_analytics c4 _ Hd) as [Hfin _];
    destruct (exec_check_control fetch_top_players get_player_battlelog
                filter_and_normalize_ranked_1v1 compute_user_analytics c4) as [Hst Hde];
    destruct (check_keeps_sampling_state (cfg_state c4)) as (_ & _ & Hl5 & Hun5 & _);
    fold c5 in Hnext, Hfin, Hst, Hde; simpl (String.eqb _ _) in Hnext;
    rewrite <- Hst in Hl5, Hun5.
  1: exists c5, "enough".
  2: exists c5, "stop".
  all: repeat split; auto;
    [ unfold invoke; fold c0;
      rewrite run_S; cbn [next]; fold c1;
      rewrite run_S; cbn [next]; fold c2;
      rewrite run_S; cbn [next]; fold c3;
      rewrite run_S; cbn [next]; fold c4;
      rewrite run_S; fold c5; now rewrite Hnext
    | rewrite Hde, Hd4, Hd3, Htr2; unfold get_stop_decision; now rewrite Hd
    | unfold c5, exec; cbn [cfg_trace]; rewrite drawn_app, Hdr4, Htr2; reflexivity
    | rewrite Hl5, Hl4, Hl3; exact Hl2
    | rewrite Hun5; exact Hun4 ].
Qed.


(** ** The budget of a run: rounds, indices drawn, super-steps *)

Lemma exec_fetch_drawn (c : Config_) :
  drawn (cfg_trace (exec_ fetch_meta_battles c)) = drawn (cfg_trace c).
Proof.
  pose proof (fetch_node_spec get_player_battlelog filter_and_normalize_ranked_1v1
                (cfg_world c) (cfg_state c)) as Hspec.
  unfold exec. cbn [cfg_trace].
  destruct (fetch_meta_battles_node _ _ (cfg_world c) (cfg_state c)) as [[upd w'] evs].
  cbn [fst snd cfg_trace] in *.
  destruct Hspec as (_ & _ & _ & _ & _ & _ & _ & _ & Hdr & _).
  now rewrite drawn_app, Hdr, app_nil_r.
Qed.

Lemma exec_check_drawn (c : Config_) :
  drawn (cfg_trace (exec_ check_enough_battles c)) = drawn (cfg_trace c).
Proof. unfold exec. cbn [cfg_trace]. rewrite drawn_app. now simpl_trace. Qed.

Lemma concat_snoc_length {A} (ls : list (list A)) (l : list A) :
  length (concat (ls ++ [l])) = (length (concat ls) + length l)%nat.
Proof. rewrite concat_app, length_app. simpl. now rewrite app_nil_r. Qed.

Lemma check_keeps_remaining (s : MetaState) :
  remaining (apply_update s (check_enough_battles_node s)) = remaining s.
Proof.
  destruct (check_keeps_sampling_state s) as (Htop & Hused & _).
  unfold remaining. now rewrite Htop, Hused.
Qed.

Lemma budget_after_entry (c : Config_) :
  cfg_trace c = [] -> budget_invariant sample_initial_50 (exec_ fetch_top_players_n c).
Proof.
  intros Ht. unfold budget_invariant, exec, fetch_top_players_node.
  destruct (fetch_top_players (cfg_world c) 300) as [top w'].
  cbn [cfg_state cfg_trace]. rewrite Ht.
  change (get_loop_count (apply_update (cfg_state c) _)) with 0.
  simpl. repeat split; lia.
Qed.

Lemma budget_step (n : Node) (c : Config_) :
  budget_invariant n c ->
  match next n (exec_ n c) with
  | Some n' =>
      budget_invariant n' (exec_ n c) /\
      steps_to_evaluation n' - 4 * get_loop_count (cfg_state (exec_ n c))
        = steps_to_evaluation n - 4 * get_loop_count (cfg_state c) - 1
  | None =>
      budget_at_end (exec_ n c) /\ n = check_enough_battles /\
      get_loop_count (cfg_state (exec_ n c)) = get_loop_count (cfg_state c)
  end.
Proof.
  intros (Hlc & Hdr & Hn). destruct n.
  - contradiction.
  - (* sample_initial_50 *)
    destruct Hn as [Ht Hl0]. cbn [next].
    destruct (sample_initial_50_sound (cfg_rng c) (cfg_state c))
      as (_ & _ & Hlen & _ & _ & _ & _ & _ & Hloop).
    assert (Hl : get_loop_count (cfg_state (exec_ sample_initial_50 c))
                 = get_loop_count (cfg_state c)).
    { unfold exec. cbn [cfg_state]. now rewrite get_loop_count_update, Hloop. }
    unfold budget_invariant. rewrite Hl.
    unfold exec at 1 2 3. cbn [cfg_trace]. rewrite Ht, Hl0. cbn [app].
    simpl_trace. rewrite Hlen.
    cbn [steps_to_evaluation]. repeat split; cbn [length decisions omap]; try lia.
  - (* fetch_meta_battles *)
    destruct Hn as [Hde Hnum]. cbn [next].
    destruct (exec_fetch_control fetch_top_players get_player_battlelog
                filter_and_normalize_ranked_1v1 compute_user_analytics c) as [Hl Hd].
    unfold budget_invariant. rewrite Hl, Hd, exec_fetch_drawn.
    cbn [steps_to_evaluation]. repeat split; try assumption; lia.
  - (* compute_meta_analytics *)
    destruct Hn as [Hde Hnum]. cbn [next].
    destruct (exec_compute_control fetch_top_players get_player_battlelog
                filter_and_normalize_ranked_1v1 compute_user_analytics c) as [Hl Hd].
    unfold budget_invariant. rewrite Hl, Hd.
    change (drawn (cfg_trace (exec_ compute_meta_analytics_n c))) with (drawn (cfg_trace c)).
    cbn [steps_to_evaluation]. repeat split; try assumption; lia.
  - (* check_enough_battles *)
    destruct Hn as [Hde Hnum].
    destruct (exec_check_control fetch_top_players get_player_battlelog
                filter_and_normalize_ranked_1v1 compute_user_analytics c) as [Hst Hde'].
    destruct (check_keeps_sampling_state (cfg_state c)) as (_ & _ & Hl & _ & _).
    rewrite <- Hst in Hl.
    pose proof (check_keeps_remaining (cfg_state c)) as Hrem'. rewrite <- Hst in Hrem'.
    destruct (check_enough_cases (cfg_state c))
      as [(_ & Hd & Hb)|[(_ & _ & Hd & Hb)|(_ & Hrem & Hlt & Hd & _)]];
      rewrite (next_after_check fetch_top_players get_player_battlelog
                 filter_and_normalize_ranked_1v1 compute_user_analytics c _ Hd);
      simpl (String.eqb _ _); cbv iota;
      destruct (final_after_check fetch_top_players get_player_battlelog
                  filter_and_normalize_ranked_1v1 compute_user_analytics c _ Hd) as [Hfin _];
      unfold get_stop_decision in Hde'; rewrite Hd in Hde'; cbn [from_option id] in Hde'.
    + split; [|split; [reflexivity|exact Hl]].
      unfold budget_at_end. rewrite Hl, exec_check_drawn, Hde', Hde.
      split; [lia|]. split; [lia|]. split; [lia|].
      exists "enough". split; [now left|]. split; [reflexivity|]. split; [exact Hfin|].
      rewrite Hst. unfold apply_update. cbn [is_balanced]. now rewrite Hb.
    + split; [|split; [reflexivity|exact Hl]].
      unfold budget_at_end. rewrite Hl, exec_check_drawn, Hde', Hde.
      split; [lia|]. split; [lia|]. split; [lia|].
      exists "stop". split; [now right|]. split; [reflexivity|]. split; [exact Hfin|].
      rewrite Hst. unfold apply_update. cbn [is_balanced]. now rewrite Hb.
    + unfold budget_invariant. rewrite Hl, Hrem', exec_check_drawn, Hde', Hde.
      cbn [steps_to_evaluation]. rewrite <- repeat_cons.
      repeat split; try assumption; try lia.
  - (* sample_more_5 *)
    destruct Hn as (Hde & Hnum & Hrem & Hlt). cbn [next].
    destruct (sample_more_5_sound (cfg_rng c) (cfg_state c))
      as (_ & _ & Hlen & _ & _ & _ & _ & _ & Hloop & _).
    apply remaining_unused in Hrem.
    assert (Hl : get_loop_count (cfg_state (exec_ sample_more_5 c))
                 = get_loop_count (cfg_state c) + 1).
    { unfold exec. cbn [cfg_state]. rewrite get_loop_count_update, Hloop.
      destruct (unused_indices (cfg_state c)); [contradiction|reflexivity]. }
    unfold budget_invariant. rewrite Hl.
    unfold exec at 1 2 3. cbn [cfg_trace]. rewrite decisions_app, drawn_app.
    simpl_trace. rewrite concat_snoc_length, length_app, Hlen, Hde.
    cbn [steps_to_evaluation length].
    replace (Z.to_nat (get_loop_count (cfg_state c) + 1))
      with (S (Z.to_nat (get_loop_count (cfg_state c)))) by lia.
    repeat split; try lia.
Qed.

Lemma run_budget (steps : nat) (n : Node) (c final : Config_) :
  budget_invariant n c -> run_ steps n c = Some final ->
  budget_at_end final /\
  let need := steps_to_evaluation n - 4 * get_loop_count (cfg_state c)
              + 4 * get_loop_count (cfg_state final) in
  1 <= need <= Z.of_nat steps /\ run_ (Z.to_nat need) n c = Some final.
Proof.
  revert n c. induction steps as [|steps IH]; intros n c Hinv Hrun; [discriminate|].
  rewrite run_S in Hrun. pose proof (budget_step n c Hinv) as Hstep.
  destruct (next n (exec_ n c)) as [n'|] eqn:Enext.
  - destruct Hstep as [Hinv' Hpot].
    destruct (IH n' _ Hinv' Hrun) as (Hend & Hneed & Hrun').
    split; [exact Hend|]. cbv zeta in *. split; [lia|].
    replace (Z.to_nat (steps_to_evaluation n - 4 * get_loop_count (cfg_state c)
                       + 4 * get_loop_count (cfg_state final)))
      with (S (Z.to_nat (steps_to_evaluation n' - 4 * get_loop_count (cfg_state (exec_ n c))
                         + 4 * get_loop_count (cfg_state final)))) by lia.
    rewrite run_S, Enext. exact Hrun'.
  - destruct Hstep as (Hend & Hn & Hl). injection Hrun as Hfin. subst final n.
    split; [exact Hend|]. cbv zeta. rewrite Hl. cbn [steps_to_evaluation].
    split; [lia|].
    replace (Z.to_nat (1 - 4 * get_loop_count (cfg_state c)
                       + 4 * get_loop_count (cfg_state c))) with 1%nat by lia.
    rewrite run_S, Enext. reflexivity.
Qed.

Lemma invoke_budget (steps : nat) (s0 : MetaState) (w : World) (g : Rng) (final : Config_) :
  invoke_ steps s0 w g = Some final ->
  budget_at_end final /\
  let need := 5 + 4 * get_loop_count (cfg_state final) in
  need <= Z.of_nat steps /\ invoke_ (Z.to_nat need) s0 w g = Some final.
Proof.
  unfold invoke.
  set (c0 := {| cfg_state := s0; cfg_world := w; cfg_rng := g; cfg_trace := [] |} : Config_).
  destruct steps as [|steps]; [discriminate|]. rewrite run_S. cbn [next]. intros Hrun.
  pose proof (budget_after_entry c0 eq_refl) as Hinv.
  destruct (run_budget steps _ _ _ Hinv Hrun) as (Hend & Hneed & Hrun').
  cbv zeta in *.
  assert (Hl : get_loop_count (cfg_state (exec_ fetch_top_players_n c0)) = 0)
    by (destruct Hinv as (_ & _ & _ & Hl); exact Hl).
  rewrite Hl in Hneed, Hrun'. cbn [steps_to_evaluation] in Hneed, Hrun'.
  split; [exact Hend|]. split; [lia|].
  replace (Z.to_nat (5 + 4 * get_loop_count (cfg_state final)))
    with (S (Z.to_nat (4 - 4 * 0 + 4 * get_loop_count (cfg_state final)))) by lia.
  rewrite run_S. cbn [next]. exact Hrun'.
Qed.

(** X10. The shape of every finished run of the graph: with [k] the final
    [loop_count], [0 <= k <= 20]; the sampling nodes were called [k + 1]
    times and drew at most [50 + 5k] indices in all; the evaluation said
    "need_more" exactly [k] times and then "enough" or "stop", which is the
    final [stop_decision]; and [is_balanced] is true exactly when that last
    decision is "enough". *)
Theorem finished_run_shape (steps : nat) (s0 : MetaState) (w : World) (g : Rng)
    (final : Config_) :
  invoke_ steps s0 w g = Some final ->
  let k := get_loop_count (cfg_state final) in
  0 <= k <= 20 /\
  Z.of_nat (length (drawn (cfg_trace final))) = k + 1 /\
  Z.of_nat (length (concat (drawn (cfg_trace final)))) <= 50 + 5 * k /\
  exists d,
    (d = "enough" \/ d = "stop") /\
    decisions (cfg_trace final) = repeat "need_more" (Z.to_nat k) ++ [d] /\
    stop_decision (cfg_state final) = Some d /\
    is_balanced (cfg_state final) = Some (String.eqb d "enough").
Proof.
  intros Hrun. destruct (invoke_budget _ _ _ _ _ Hrun) as [(Hk & Hdr & Hnum & Hd) _].
  cbv zeta. auto.
Qed.

Lemma run_follows_script (steps : nat) (n : Node) (c final : Config_) :
  budget_invariant n c -> run_ steps n c = Some final ->
  exists j : nat,
    final = exec_nodes_ (rest_of_pass n ++ concat (repeat loop_round j)) c /\
    get_loop_count (cfg_state final) = get_loop_count (cfg_state c) + Z.of_nat j.
Proof.
  revert n c. induction steps as [|steps IH]; intros n c Hinv Hrun; [discriminate|].
  rewrite run_S in Hrun. pose proof (budget_step n c Hinv) as Hstep.
  destruct (next n (exec_ n c)) as [n'|] eqn:Enext.
  - destruct Hstep as [Hinv' Hpot].
    destruct (IH n' _ Hinv' Hrun) as (j & Hfinal & Hl).
    apply next_successor in Enext.
    destruct n; subst n'; cbn [steps_to_evaluation] in Hpot.
    + destruct Hinv as (_ & _ & []).
    + exists j. split; [exact Hfinal|lia].
    + exists j. split; [exact Hfinal|lia].
    + exists j. split; [exact Hfinal|lia].
    + exists j. split; [exact Hfinal|lia].
    + exists (S j). split; [exact Hfinal|lia].
  - destruct Hstep as (_ & Hn & Hl). injection Hrun as Hfin. subst final n.
    exists 0%nat. split; [reflexivity|lia].
Qed.

Lemma run_script_length (k : nat) : length (run_script k) = (5 + 4 * k)%nat.
Proof.
  assert (Hrounds : length (concat (repeat loop_round k)) = (4 * k)%nat).
  { induction k as [|k IH]; [reflexivity|].
    cbn [repeat concat]. rewrite length_app, IH.
    change (length loop_round) with 4%nat. lia. }
  unfold run_script. rewrite length_app, Hrounds.
  change (length first_pass) with 5%nat. lia.
Qed.

(** X11. The nodes a finished run has executed are fixed by its final
    [loop_count] [k]: the five nodes of the first pass, from
    [fetch_top_players] to the first evaluation, and then [k] rounds of
    [sample_more_5], [fetch_meta_battles], [compute_meta_analytics] and
    [check_enough_battles]; that is [5 + 4k] node runs, between 5 and 85. *)
Theorem finished_run_script (steps : nat) (s0 : MetaState) (w : World) (g : Rng)
    (final : Config_) :
  invoke_ steps s0 w g = Some final ->
  let k := Z.to_nat (get_loop_count (cfg_state final)) in
  final = exec_nodes_ (run_script k)
            {| cfg_state := s0; cfg_world := w; cfg_rng := g; cfg_trace := [] |} /\
  length (run_script k) = (5 + 4 * k)%nat /\
  (5 <= length (run_script k) <= 85)%nat.
Proof.
  intros Hrun. destruct (invoke_budget _ _ _ _ _ Hrun) as ((Hk & _) & _).
  cbv zeta. rewrite run_script_length. split; [|split; [reflexivity|lia]].
  unfold invoke in Hrun.
  set (c0 := {| cfg_state := s0; cfg_world := w; cfg_rng := g; cfg_trace := [] |} : Config_)
    in *.
  destruct steps as [|steps]; [discriminate|]. rewrite run_S in Hrun. cbn [next] in Hrun.
  pose proof (budget_after_entry c0 eq_refl) as Hinv.
  destruct (run_follows_script steps _ _ _ Hinv Hrun) as (j & Hfinal & Hl).
  assert (Hl0 : get_loop_count (cfg_state (exec_ fetch_top_players_n c0)) = 0)
    by (destruct Hinv as (_ & _ & _ & Hl0); exact Hl0).
  rewrite Hl0 in Hl. rewrite Hl.
  replace (Z.to_nat (0 + Z.of_nat j)) with j by lia.
  exact Hfinal.
Qed.

(** ** What a run can cost: retrievals and cohort size *)

Lemma length_omap_le {A B} (f : A -> option B) (l : list A) :
  (length (omap f l) <= length l)%nat.
Proof.
  unfold omap. induction l as [|x l IH]; simpl; [lia|]. destruct (f x); simpl; lia.
Qed.

Lemma tags_at_length (top : list Player) (indices : list nat) :
  (length (tags_at top indices) <= length indices)%nat.
Proof.
  unfold tags_at, usable_tags, players_at.
  etransitivity; [apply length_filter|].
  etransitivity; apply length_omap_le.
Qed.

Lemma successes_length (t : list Event) :
  (length (successes t) <= length (retrieved_tags t))%nat.
Proof.
  unfold successes, retrieved_tags, omap.
  induction t as [|ev t IH]; simpl; [lia|].
  destruct ev as [idx|tag [e|normalized]|d]; simpl; lia.
Qed.

Lemma contributions_length (t : list Event) :
  (length (contributions t) <= 10 * length (successes t))%nat.
Proof.
  unfold contributions. induction (successes t) as [|[tag normalized] l IH]; simpl; [lia|].
  rewrite length_app. destruct (contribution_take normalized) as [_ Hlen].
  cbn [snd]. lia.
Qed.

Lemma NoDup_bounded_length (l : list nat) (n : nat) :
  NoDup l -> (forall i, i ∈ l -> (i < n)%nat) -> (length l <= n)%nat.
Proof.
  intros Hnd Hlt.
  assert (Hsub : l ⊆+ seq 0 n).
  { apply NoDup_submseteq; [assumption|]. intros x Hx. apply elem_of_seq.
    specialize (Hlt x Hx). lia. }
  apply submseteq_length in Hsub. now rewrite length_seq in Hsub.
Qed.

(** X12. What a finished run can have cost, whatever the population and
    the collaborators do: the used-index set holds exactly the indices
    drawn, at most [min(150, len(top_players))] of them; there is at most
    one retrieval per index drawn, so at most 150 retrievals; the fetched
    set holds one tag per successful retrieval; and the cohort holds at
    most ten battles per fetched tag, so at most 1500 battles. *)
Theorem run_resource_bounds (steps : nat) (s0 : MetaState) (w : World) (g : Rng)
    (final : Config_) :
  invoke_ steps s0 w g = Some final ->
  let s := cfg_state final in
  let t := cfg_trace final in
  let D := concat (drawn t) in
  size (get_used_player_indices s) = length D /\
  (length D <= Nat.min 150 (length (fetch_top_players w 300).1))%nat /\
  (length (retrieved_tags t) <= length D)%nat /\
  size (get_fetched_player_tags s) = length (successes t) /\
  (length (successes t) <= length (retrieved_tags t))%nat /\
  (length (get_meta_raw_battles s) <= 10 * size (get_fetched_player_tags s))%nat /\
  (length (retrieved_tags t) <= 150)%nat /\
  (length (get_meta_raw_battles s) <= 1500)%nat.
Proof.
  intros Hrun.
  destruct (invoke_budget _ _ _ _ _ Hrun) as [(Hk & Hdr & _) _].
  destruct (invoke_invariant fetch_top_players get_player_battlelog
              filter_and_normalize_ranked_1v1 compute_user_analytics _ _ _ _ _ Hrun)
    as (_ & Hnd & Hlt & Hused & Hraw & Hfet & Hnds & Hsub).
  cbv zeta in *.
  pose proof (NoDup_bounded_length _ _ Hnd Hlt) as HD.
  apply sublist_length in Hsub.
  pose proof (tags_at_length (fetch_top_players w 300).1 (concat (drawn (cfg_trace final))))
    as Htags.
  pose proof (successes_length (cfg_trace final)) as Hsucc.
  pose proof (contributions_length (cfg_trace final)) as Hcon.
  assert (Hsize : size (get_fetched_player_tags (cfg_state final))
                  = length (successes (cfg_trace final))).
  { rewrite Hfet, size_list_to_set by assumption. unfold success_tags. apply length_map. }
  rewrite Hused, size_list_to_set by assumption. rewrite Hsize, Hraw.
  repeat split; lia.
Qed.

(** ** The summary note of the fetch step *)

Lemma len_app {A} (l1 l2 : list A) : len (l1 ++ l2) = len l1 + len l2.
Proof. unfold len. rewrite length_app. lia. Qed.

Lemma fetch_player_counts (acc : FetchLoop_) (player : Player) :
  let acc' := fetch_player_ acc player in
  exists evs,
    fl_events acc' = fl_events acc ++ evs /\
    fl_new_battle_count acc' = fl_new_battle_count acc + len (contributions evs) /\
    fl_new_player_count acc' = fl_new_player_count acc + len (successes evs).
Proof.
  assert (Hsame : exists evs : list Event,
             fl_events acc = fl_events acc ++ evs /\
             fl_new_battle_count acc = fl_new_battle_count acc + len (contributions evs) /\
             fl_new_player_count acc = fl_new_player_count acc + len (successes evs)).
  { exists []. rewrite app_nil_r. unfold contributions, successes, len. simpl.
    repeat split; lia. }
  unfold fetch_player. destruct (player_tag player) as [tag|]; [|exact Hsame].
  destruct (String.eqb tag ""); [exact Hsame|].
  destruct (bool_decide (tag ∈ fl_fetched_tags acc)); [exact Hsame|].
  destruct (retrieve_ (fl_world acc) tag) as [[e|normalized] w'];
    cbn [fl_events fl_new_battle_count fl_new_player_count].
  - exists [Retrieved tag (inl e)]. unfold contributions, successes, len. simpl.
    repeat split; lia.
  - exists [Retrieved tag (inr normalized)]. unfold contributions, successes, contribution.
    simpl. rewrite app_nil_r. unfold len. repeat split; simpl; lia.
Qed.

Lemma fetch_loop_counts (players : list Player) (acc : FetchLoop_) :
  let acc' := fold_left fetch_player_ players acc in
  exists evs,
    fl_events acc' = fl_events acc ++ evs /\
    fl_new_battle_count acc' = fl_new_battle_count acc + len (contributions evs) /\
    fl_new_player_count acc' = fl_new_player_count acc + len (successes evs).
Proof.
  revert acc. induction players as [|p players IH]; intros acc; cbn [fold_left].
  - exists []. rewrite app_nil_r. unfold contributions, successes, len. simpl.
    repeat split; lia.
  - destruct (fetch_player_counts acc p) as (e1 & Hev1 & Hb1 & Hp1).
    destruct (IH (fetch_player_ acc p)) as (e2 & Hev2 & Hb2 & Hp2).
    exists (e1 ++ e2). cbv zeta in *.
    rewrite Hev2, Hb2, Hp2, Hev1, Hb1, Hp1, contributions_app, successes_app, !len_app.
    rewrite <- app_assoc. repeat split; lia.
Qed.

(** X13. The summary note of [fetch_meta_battles_node] reports what the
    step did: the number of battles it names is the number added to the
    cohort, the number of new players is the number of successful
    retrievals, which is the number of tags added to the fetched set, and
    the total is the length of the cohort it writes.  Before the summary
    come the notes already there and one error note per failed retrieval. *)
Theorem fetch_summary_is_accurate (w : World) (state : MetaState) :
  let r := fetch_node_ w state in
  let upd := r.1.1 in
  let evs := r.2 in
  let s' := apply_update state upd in
  notes upd = Some (get_notes state ++ error_notes evs ++ [
    match get_selected_players state with
    | [] => "fetch_meta_battles: no selected_players; nothing to fetch."
    | _ :: _ =>
        "fetch_meta_battles: fetched " +:+
        pretty (len (contributions evs)) +:+ " normalized ranked 1v1 battles " +:+
        "from " +:+ pretty (len (successes evs)) +:+ " new players. " +:+
        "total_meta_battles=" +:+ pretty (len (get_meta_raw_battles s'))
    end]) /\
  len (get_meta_raw_battles s') = len (get_meta_raw_battles state) + len (contributions evs) /\
  Z.of_nat (size (get_fetched_player_tags s'))
    = Z.of_nat (size (get_fetched_player_tags state)) + len (successes evs).
Proof.
  pose proof (fetch_node_spec get_player_battlelog filter_and_normalize_ranked_1v1 w state)
    as Hspec.
  cbv zeta in *.
  destruct Hspec as (Hfet & Hraw & _ & _ & _ & Hfresh & Hnd & _).
  assert (Hraw' : get_meta_raw_battles (apply_update state (fetch_node_ w state).1.1)
                  = get_meta_raw_battles state ++ contributions (fetch_node_ w state).2)
    by now rewrite get_meta_raw_update, Hraw.
  assert (Hfet' : get_fetched_player_tags (apply_update state (fetch_node_ w state).1.1)
                  = get_fetched_player_tags state
                    ∪ list_to_set (success_tags (fetch_node_ w state).2))
    by now rewrite get_fetched_update, Hfet.
  split; [|split].
  - rewrite Hraw'. clear Hfet Hraw Hraw' Hfet' Hfresh Hnd.
    unfold fetch_meta_battles_node.
    destruct (get_selected_players state) as [|p players] eqn:Esel.
    + reflexivity.
    + destruct (fetch_loop_between get_player_battlelog filter_and_normalize_ranked_1v1
                  (p :: players) (fetch_loop_start w state))
        as (evs & Hev & Hraw & _ & Hnotes & _).
      destruct (fetch_loop_counts (p :: players) (fetch_loop_start w state))
        as (evs' & Hev' & Hb & Hp).
      cbv zeta in *.
      set (acc' := fold_left fetch_player_ (p :: players) (fetch_loop_start w state)) in *.
      change (fl_events (fetch_loop_start w state)) with (@nil Event) in Hev, Hev'.
      change (fl_meta_raw (fetch_loop_start w state)) with (get_meta_raw_battles state) in Hraw.
      change (fl_notes (fetch_loop_start w state)) with (get_notes state) in Hnotes.
      change (fl_new_battle_count (fetch_loop_start w state)) with 0 in Hb.
      change (fl_new_player_count (fetch_loop_start w state)) with 0 in Hp.
      rewrite app_nil_l in Hev, Hev'. subst evs evs'.
      cbn [fst snd notes]. rewrite Hb, Hp, Hraw, Hnotes, !Z.add_0_l.
      now rewrite <- app_assoc.
  - now rewrite Hraw', len_app.
  - rewrite Hfet', size_union.
    + rewrite size_list_to_set by assumption. unfold success_tags, len.
      rewrite length_map. lia.
    + intros tag Hin Hs. apply elem_of_list_to_set, success_tags_retrieved in Hs.
      exact (Hfresh tag Hs Hin).
Qed.

(** ** From the analytics step to the evaluation *)

(** X14. The evaluation that follows [compute_meta_analytics_node] reads
    nothing but what that step has just computed from the cohort: the total
    is the [summary.games_played] of the fresh analytics (the cohort length
    when it is missing), the count of each required deck type is read from
    the fresh [opp_deck_types] rows, and "enough" is decided exactly when
    that total reaches 500 and each of the five counts reaches 50.  An
    analytics record left in the state by an earlier round has no part in
    it. *)
Theorem evaluation_reads_fresh_analytics (s : MetaState) :
  let battles := get_meta_raw_battles s in
  let fresh := compute_user_analytics battles in
  let total := default (len battles) (summary_games_played fresh) in
  let rows := default [] (opp_deck_types fresh) in
  let s' := apply_update s (compute_node_ s) in
  get_meta_raw_battles s' = battles /\
  state_games_total s' = total /\
  (forall t, required_count s' t = stopping_count rows t) /\
  source (get_meta_analytics s') = Some "meta" /\
  (stop_decision (check_enough_battles_node s') = Some "enough" <->
   MIN_TOTAL_BATTLES <= total /\
   Forall (fun t => MIN_GAMES_PER_TYPE <= stopping_count rows t) REQUIRED_DECK_TYPES_LOWER).
Proof.
  cbv zeta.
  set (s' := apply_update s (compute_node_ s)).
  assert (Hraw : get_meta_raw_battles s' = get_meta_raw_battles s).
  { unfold s'. now rewrite get_meta_raw_update. }
  assert (Hmeta : get_meta_analytics s'
                  = compute_meta_analytics compute_user_analytics (get_meta_raw_battles s))
    by reflexivity.
  assert (Htotal : state_games_total s'
                   = default (len (get_meta_raw_battles s))
                       (summary_games_played (compute_user_analytics (get_meta_raw_battles s)))).
  { unfold state_games_total. rewrite Hmeta. reflexivity. }
  assert (Hcount : forall t, required_count s' t
                   = stopping_count
                       (default [] (opp_deck_types (compute_user_analytics
                                                      (get_meta_raw_battles s)))) t).
  { intros t. unfold required_count, deck_counts_lower, deck_counts_raw, stopping_count.
    rewrite Hmeta. reflexivity. }
  split; [exact Hraw|]. split; [exact Htotal|]. split; [exact Hcount|].
  split; [now rewrite Hmeta|].
  rewrite <- Htotal.
  assert (Hth : thresholds_met s' <->
                MIN_TOTAL_BATTLES <= state_games_total s' /\
                Forall (fun t => MIN_GAMES_PER_TYPE <= stopping_count
                          (default [] (opp_deck_types (compute_user_analytics
                                                         (get_meta_raw_battles s)))) t)
                       REQUIRED_DECK_TYPES_LOWER).
  { unfold thresholds_met. rewrite !Forall_forall.
    split; intros [Ht Hall]; (split; [exact Ht|]); intros t Hin;
      [rewrite <- Hcount|rewrite Hcount]; now apply Hall. }
  rewrite <- Hth, <- thresholds_met_spec.
  destruct (check_enough_cases s')
    as [(He & Hd & _)|[(He & _ & Hd & _)|(He & _ & _ & Hd & _)]];
    rewrite Hd, He; split; intros H; try discriminate; reflexivity.
Qed.

End WorkflowMoreFacts.

(* ================================================================== *)
(** * The user analytics workflow *)
(* ================================================================== *)

Section UserFacts.

Context {World Raw : Type}.
Variable get_player_battlelog : World -> string -> (string + list Raw) * World.
Variable filter_and_normalize_ranked_1v1 : list Raw -> string + list Battle.
Variable compute_user_analytics : list Battle -> Analytics.

Local Abbreviation State_ := (@User.UserAnalyticsState Raw).
Local Abbreviation user_fetch_ := (User.fetch_battlelog_node get_player_battlelog).
Local Abbreviation user_filter_ := (User.filter_and_normalize_node filter_and_normalize_ranked_1v1).
Local Abbreviation user_compute_ := (User.compute_user_analytics_node compute_user_analytics).
Local Abbreviation user_invoke_ :=
  (User.invoke get_player_battlelog filter_and_normalize_ranked_1v1 compute_user_analytics).
Local Abbreviation success_notes_ := (User.success_notes compute_user_analytics).

(** The run of the graph, by the tests of the three nodes. *)
Lemma user_invoke_cases (w : World) (state : State_) :
  (* no tag *)
  ((User.player_tag state = None \/ User.player_tag state = Some "") /\
   user_invoke_ w state
   = (inl (User.ValueError "player_tag is required in state for fetch_battlelog_node"), w)) \/
  exists tag w1, User.player_tag state = Some tag /\ tag <> "" /\
    ((exists e, get_player_battlelog w tag = (inl e, w1) /\
        user_invoke_ w state = (inl (User.Raised e), w1)) \/
     exists raw, get_player_battlelog w tag = (inr raw, w1) /\
       ((raw = [] /\
         user_invoke_ w state
         = (inl (User.ValueError "battles_raw is required in state for filter_and_normalize_node"),
            w1)) \/
        (raw <> [] /\
         ((exists e, filter_and_normalize_ranked_1v1 raw = inl e /\
             user_invoke_ w state = (inl (User.Raised e), w1)) \/
          exists filtered, filter_and_normalize_ranked_1v1 raw = inr filtered /\
            ((filtered = [] /\
              user_invoke_ w state
              = (inl (User.ValueError
                        "battles_filtered is required in state for compute_user_analytics_node"),
                 w1)) \/
             (filtered <> [] /\
              user_invoke_ w state
              = (inr {| User.player_tag := Some tag;
                        User.battles_raw := Some raw;
                        User.battles_filtered := Some filtered;
                        User.user_analytics := Some (compute_user_analytics filtered);
                        User.user_plots := User.user_plots state;
                        User.notes := Some (User.get_notes state
                                            ++ success_notes_ tag raw filtered) |},
                 w1))))))).
Proof.
  unfold User.invoke, User.fetch_battlelog_node.
  destruct (User.player_tag state) as [tag|] eqn:Etag; [|left; auto].
  destruct (String.eqb_spec tag "") as [->|Hne]; [left; auto|].
  right. destruct (get_player_battlelog w tag) as [[e|raw] w1] eqn:Elog.
  { exists tag, w1. split; [reflexivity|]. split; [exact Hne|]. left. exists e. auto. }
  exists tag, w1. split; [reflexivity|]. split; [exact Hne|].
  right. exists raw. split; [exact Elog|]. clear Elog.
  unfold User.filter_and_normalize_node.
  unfold User.get_battles_raw at 1. cbn [User.apply_update User.battles_raw overwrite from_option id].
  destruct raw as [|r raw]; [left; auto|]. right. split; [discriminate|].
  unfold User.get_battles_raw. cbn [User.apply_update User.battles_raw overwrite from_option id].
  destruct (filter_and_normalize_ranked_1v1 (r :: raw)) as [e|filtered].
  { left. exists e. auto. }
  right. exists filtered. split; [reflexivity|].
  unfold User.compute_user_analytics_node.
  unfold User.get_battles_filtered.
  cbn [User.apply_update User.battles_filtered overwrite from_option id].
  destruct filtered as [|b filtered]; [left; auto|]. right. split; [discriminate|].
  unfold User.get_notes, User.success_notes, User.apply_update.
  cbn [User.player_tag User.battles_raw User.battles_filtered
       User.user_analytics User.user_plots User.notes overwrite from_option id].
  rewrite Etag, <- !app_assoc. reflexivity.
Qed.

(** X15. [build_user_analytics_graph().invoke(state)] returns a state
    exactly when the request carries a non-empty [player_tag], the battle
    log is retrieved and is not empty, and its ranked 1v1 battles are
    normalised and not empty.  The state returned then holds the raw
    battles, the filtered battles and the analytics of the filtered
    battles; [player_tag] and [user_plots] are as in the request; and the
    notes are those of the request followed by the three notes of the
    steps.  Whatever [battles_raw], [battles_filtered] or [user_analytics]
    the request carried has no part in the result. *)
Theorem user_run_succeeds_iff (w w' : World) (state final : State_) :
  user_invoke_ w state = (inr final, w') <->
  exists tag raw filtered,
    User.player_tag state = Some tag /\ tag <> "" /\
    get_player_battlelog w tag = (inr raw, w') /\ raw <> [] /\
    filter_and_normalize_ranked_1v1 raw = inr filtered /\ filtered <> [] /\
    final = {| User.player_tag := Some tag;
               User.battles_raw := Some raw;
               User.battles_filtered := Some filtered;
               User.user_analytics := Some (compute_user_analytics filtered);
               User.user_plots := User.user_plots state;
               User.notes := Some (User.get_notes state ++ success_notes_ tag raw filtered) |}.
Proof.
  destruct (user_invoke_cases w state)
    as [[Hno Hrun]
       |(tag & w1 & Htag & Hne &
         [(e & Hlog & Hrun)
         |(raw & Hlog &
           [[Hraw Hrun]
           |(Hraw & [(e & Hfil & Hrun)
                    |(filtered & Hfil & [[Hf Hrun]|[Hf Hrun]])])])])];
    rewrite Hrun; (split; [intros Heq|intros (tag' & raw' & filtered' & Htag' & Hne' & Hlog'
                                               & Hraw' & Hfil' & Hf' & Hfinal)]);
    try discriminate;
    try (destruct Hno as [Hno|Hno]; rewrite Hno in Htag'; [discriminate|];
         injection Htag' as <-; now destruct Hne');
    try (rewrite Htag in Htag'; injection Htag' as <-; rewrite Hlog' in Hlog;
         first [discriminate | injection Hlog as <- <-]).
  - contradiction.
  - rewrite Hfil' in Hfil. discriminate.
  - rewrite Hfil' in Hfil. injection Hfil as <-. contradiction.
  - injection Heq as <- <-. exists tag, raw, filtered. repeat split; assumption.
  - rewrite Hfil' in Hfil. injection Hfil as <-. now rewrite Hfinal.
Qed.

(** X16. Every other request ends in an exception, and which one is
    decided by the first test that fails: a missing or empty [player_tag]
    raises the [ValueError] of [fetch_battlelog_node] before anything is
    retrieved; an exception of the retrieval or of the normalisation
    escapes as it is; an empty battle log raises the [ValueError] of
    [filter_and_normalize_node]; and a log without a ranked 1v1 battle
    raises the [ValueError] of [compute_user_analytics_node], so that no
    analytics of an empty list are ever computed. *)
Theorem user_run_fails_iff (w w' : World) (state : State_) (failure : User.Failure) :
  user_invoke_ w state = (inl failure, w') <->
  ((User.player_tag state = None \/ User.player_tag state = Some "") /\ w' = w /\
   failure = User.ValueError "player_tag is required in state for fetch_battlelog_node") \/
  exists tag, User.player_tag state = Some tag /\ tag <> "" /\
    ((exists e, get_player_battlelog w tag = (inl e, w') /\ failure = User.Raised e) \/
     (get_player_battlelog w tag = (inr [], w') /\
      failure = User.ValueError "battles_raw is required in state for filter_and_normalize_node") \/
     exists raw, get_player_battlelog w tag = (inr raw, w') /\ raw <> [] /\
       ((exists e, filter_and_normalize_ranked_1v1 raw = inl e /\ failure = User.Raised e) \/
        (filter_and_normalize_ranked_1v1 raw = inr [] /\
         failure = User.ValueError
                     "battles_filtered is required in state for compute_user_analytics_node"))).
Proof.
  destruct (user_invoke_cases w state)
    as [[Hno Hrun]
       |(tag & w1 & Htag & Hne &
         [(e & Hlog & Hrun)
         |(raw & Hlog &
           [[Hraw Hrun]
           |(Hraw & [(e & Hfil & Hrun)
                    |(filtered & Hfil & [[Hf Hrun]|[Hf Hrun]])])])])];
    rewrite Hrun; (split; [intros Heq|]).
  all: try (intros [(Hno' & -> & ->)
                   |(tag' & Htag' & Hne' &
                     [(e' & Hlog' & ->)
                     |[[Hlog' ->]
                      |(raw' & Hlog' & Hraw' & [(e' & Hfil' & ->)|[Hfil' ->]])]])];
            try (destruct Hno as [Hno|Hno]; congruence);
            try (destruct Hno' as [Hno'|Hno']; congruence);
            congruence).
  - injection Heq as <- <-. left. auto.
  - injection Heq as <- <-. right. exists tag. split; [assumption|].
    split; [assumption|]. left. exists e. auto.
  - injection Heq as <- <-. right. exists tag. split; [assumption|].
    split; [assumption|]. right. left. subst raw. auto.
  - injection Heq as <- <-. right. exists tag. split; [assumption|].
    split; [assumption|]. right. right. exists raw. split; [assumption|].
    split; [assumption|]. left. exists e. auto.
  - injection Heq as <- <-. right. exists tag. split; [assumption|].
    split; [assumption|]. right. right. exists raw. split; [assumption|].
    split; [assumption|]. right. subst filtered. auto.
  - discriminate.
Qed.

End UserFacts.

(** ** The properties above on concrete inputs *)

Lemma sample_initial_50_size_witness :
  length (players_at (get_top_players Sample.state_midway)
            (sampling_indices (sample_initial_50_node Sample.rng Sample.state_midway)))
  = 3%nat /\
  (1%nat ∈ sampling_indices (sample_initial_50_node Sample.rng Sample.state_midway)).
Proof.
  pose proof (sample_initial_50_size Sample.rng Sample.state_midway) as H.
  cbv zeta in H.
  change (get_top_players Sample.state_midway) with Sample.trio in H |- *.
  unfold Sample.trio in H at 1.
  destruct H as (_ & Hlen & _ & _ & _ & Hall).
  split; [exact Hlen|]. apply Hall; simpl; lia.
Defined.

Lemma small_population_single_pass_witness :
  exists final d,
    invoke (Sample.leaderboard Sample.trio) Sample.b_times_out Sample.normalizer
           Sample.analytics 5 no_update tt Sample.rng = Some final /\
    decisions (cfg_trace final) = [d] /\
    get_loop_count (cfg_state final) = 0.
Proof.
  destruct (small_population_single_pass (Sample.leaderboard Sample.trio) Sample.b_times_out
              Sample.normalizer Sample.analytics no_update tt Sample.rng)
    as (final & d & Hrun & Hd & _ & _ & _ & Hl & _).
  - simpl. lia.
  - exists final, d. auto.
Defined.

Lemma run_ignores_initial_state_witness :
  invoke (Sample.leaderboard Sample.crowd) Sample.always_ten Sample.normalizer Sample.tally
         85 no_update tt Sample.rng
  = invoke (Sample.leaderboard Sample.crowd) Sample.always_ten Sample.normalizer Sample.tally
           85 Sample.state_at_bound tt Sample.rng.
Proof.
  apply (run_ignores_initial_state (Sample.leaderboard Sample.crowd) Sample.always_ten
           Sample.normalizer Sample.tally 85 no_update Sample.state_at_bound tt Sample.rng).
  reflexivity.
Defined.

Lemma finished_run_shape_witness :
  exists final,
    invoke (Sample.leaderboard Sample.crowd) Sample.always_timeout Sample.normalizer
           Sample.analytics 85 no_update tt Sample.rng = Some final /\
    Z.of_nat (length (drawn (cfg_trace final))) = get_loop_count (cfg_state final) + 1 /\
    Z.of_nat (length (concat (drawn (cfg_trace final))))
      <= 50 + 5 * get_loop_count (cfg_state final).
Proof.
  destruct (invoke (Sample.leaderboard Sample.crowd) Sample.always_timeout Sample.normalizer
                   Sample.analytics 85 no_update tt Sample.rng) as [final|] eqn:Hrun;
    [|vm_compute in Hrun; discriminate].
  exists final. split; [reflexivity|].
  destruct (finished_run_shape (Sample.leaderboard Sample.crowd) Sample.always_timeout
              Sample.normalizer Sample.analytics 85 no_update tt Sample.rng final Hrun)
    as (_ & Hcalls & Hdrawn & _).
  split; [exact Hcalls|exact Hdrawn].
Defined.

Lemma finished_run_script_witness :
  exists final,
    invoke (Sample.leaderboard Sample.crowd) Sample.always_timeout Sample.normalizer
           Sample.analytics 85 no_update tt Sample.rng = Some final /\
    final = exec_nodes (Sample.leaderboard Sample.crowd) Sample.always_timeout
              Sample.normalizer Sample.analytics
              (run_script (Z.to_nat (get_loop_count (cfg_state final))))
              (Sample.config no_update).
Proof.
  destruct (invoke (Sample.leaderboard Sample.crowd) Sample.always_timeout Sample.normalizer
                   Sample.analytics 85 no_update tt Sample.rng) as [final|] eqn:Hrun;
    [|vm_compute in Hrun; discriminate].
  exists final. split; [reflexivity|].
  destruct (finished_run_script (Sample.leaderboard Sample.crowd) Sample.always_timeout
              Sample.normalizer Sample.analytics 85 no_update tt Sample.rng final Hrun)
    as (Hscript & _).
  exact Hscript.
Defined.

Lemma run_resource_bounds_witness :
  exists final,
    invoke (Sample.leaderboard Sample.trio) Sample.b_times_out Sample.normalizer
           Sample.analytics 85 no_update tt Sample.rng = Some final /\
    (length (retrieved_tags (cfg_trace final)) <= 150)%nat /\
    (length (get_meta_raw_battles (cfg_state final)) <= 1500)%nat.
Proof.
  destruct (invoke (Sample.leaderboard Sample.trio) Sample.b_times_out Sample.normalizer
                   Sample.analytics 85 no_update tt Sample.rng) as [final|] eqn:Hrun;
    [|vm_compute in Hrun; discriminate].
  exists final. split; [reflexivity|].
  destruct (run_resource_bounds (Sample.leaderboard Sample.trio) Sample.b_times_out
              Sample.normalizer Sample.analytics 85 no_update tt Sample.rng final Hrun)
    as (_ & _ & _ & _ & _ & _ & Hcalls & Hcohort).
  split; [exact Hcalls|exact Hcohort].
Defined.

Lemma user_run_succeeds_iff_witness :
  exists final,
    User.invoke User.sample_log User.sample_filter User.sample_analytics tt (User.request "#P2")
    = (inr final, tt) /\
    User.battles_filtered final
    = Some [{| my_deck_type := "Cycle"; opp_deck_type := "Siege" |}].
Proof.
  eexists. split.
  - apply (proj2 (user_run_succeeds_iff User.sample_log User.sample_filter
                    User.sample_analytics tt tt (User.request "#P2") _)).
    exists "#P2",
      [{| my_deck_type := "Cycle"; opp_deck_type := "Siege" |};
       {| my_deck_type := "Friendly"; opp_deck_type := "Bait" |}],
      [{| my_deck_type := "Cycle"; opp_deck_type := "Siege" |}].
    split; [reflexivity|]. split; [discriminate|]. split; [reflexivity|].
    split; [discriminate|]. split; [vm_compute; reflexivity|].
    split; [discriminate|reflexivity].
  - reflexivity.
Defined.

Lemma user_run_fails_iff_witness :
  User.invoke User.sample_log User.sample_filter User.sample_analytics tt
              (User.request "#FRIENDLY")
  = (inl (User.ValueError
            "battles_filtered is required in state for compute_user_analytics_node"), tt).
Proof.
  apply (proj2 (user_run_fails_iff User.sample_log User.sample_filter User.sample_analytics
                  tt tt (User.request "#FRIENDLY") _)).
  right. exists "#FRIENDLY". split; [reflexivity|]. split; [discriminate|].
  right. right.
  exists [{| my_deck_type := "Friendly"; opp_deck_type := "Siege" |}].
  split; [reflexivity|]. split; [discriminate|].
  right. split; [vm_compute; reflexivity|reflexivity].
Defined.
